(** * bridge-ws: protocol codec, runners and request multiplexer

    A shallow embedding of the TypeScript sources of bridge-ws:

    - [JS]: the fragment of the JavaScript platform the sources rely on
      (UTF-16 strings, [JSON.parse], [TextEncoder], [String.prototype.trim],
      [split], POSIX [path.resolve]);
    - [Protocol]: [parseClientMessage] of [src/server/protocol.ts];
    - [Cli]: [BaseCliProvider] of [src/process/base-cli-provider.ts], with the
      [spawnProcess] of the Claude and Codex providers;
    - [Ollama]: [OllamaProvider] of [src/process/ollama-provider.ts];
    - [Server]: the per-connection dispatch of [src/server/websocket.ts]. *)

From Stdlib Require Import ZArith NArith List String Ascii Lia Bool DecimalString.
From Stdlib Require DecimalN DecimalPos.
From stdpp Require Import base option list gmap.
Import ListNotations.

Set Warnings "-register-all".

(* ===================================================================== *)
(** * The JavaScript platform                                             *)
(* ===================================================================== *)

Module JS.

(** A JavaScript string is a sequence of UTF-16 code units. *)
Definition jsstring : Type := list N.

(** ASCII literals of the sources. *)
Definition js (s : string) : jsstring :=
  List.map N_of_ascii (list_ascii_of_string s).

(** The same, with ['] standing for the double quote: JSON texts are
    written [jsq "{'type':'cancel'}"]. *)
Definition jsq (s : string) : jsstring :=
  List.map (fun c => if (c =? 0x27)%N then 0x22%N else c) (js s).

(** [s.length] *)
Definition jslength (s : jsstring) : N := N.of_nat (length s).

(** [a === b] on strings *)
Definition jseqb (a b : jsstring) : bool := bool_decide (a = b).

(** [s.slice(0, n)] *)
Definition slice0 (n : nat) (s : jsstring) : jsstring := take n s.

(** [s.startsWith(p)] *)
Fixpoint startsWith (s p : jsstring) : bool :=
  match p, s with
  | [], _ => true
  | _ :: _, [] => false
  | c :: p', d :: s' => (c =? d)%N && startsWith s' p'
  end.

(** [s.includes(p)] *)
Fixpoint includes (s p : jsstring) : bool :=
  startsWith s p ||
  match s with
  | [] => false
  | _ :: s' => includes s' p
  end.

(** Template-literal rendering of an integral number. *)
Definition dec_of_N (n : N) : jsstring := js (NilEmpty.string_of_uint (N.to_uint n)).
Definition dec_of_Z (z : Z) : jsstring := js (NilZero.string_of_int (Z.to_int z)).

(** [new TextEncoder().encode(s).byteLength]: the length of the UTF-8
    encoding.  A surrogate pair takes four bytes, a lone surrogate is
    replaced by U+FFFD (three bytes). *)
Definition is_high_surrogate (c : N) : bool := (0xD800 <=? c)%N && (c <=? 0xDBFF)%N.
Definition is_low_surrogate (c : N) : bool := (0xDC00 <=? c)%N && (c <=? 0xDFFF)%N.

Fixpoint utf8_byteLength (s : jsstring) : N :=
  match s with
  | [] => 0
  | c :: rest =>
      if (c <? 0x80)%N then 1 + utf8_byteLength rest
      else if (c <? 0x800)%N then 2 + utf8_byteLength rest
      else if is_high_surrogate c then
        match rest with
        | lo :: rest' =>
            if is_low_surrogate lo then 4 + utf8_byteLength rest'
            else 3 + utf8_byteLength rest
        | [] => 3
        end
      else 3 + utf8_byteLength rest
  end%N.

(** White space and line terminators removed by [trim()]. *)
Definition is_js_space (c : N) : bool :=
  ((c =? 0x09) || (c =? 0x0A) || (c =? 0x0B) || (c =? 0x0C) || (c =? 0x0D) ||
   (c =? 0x20) || (c =? 0xA0) || (c =? 0x1680) ||
   ((0x2000 <=? c) && (c <=? 0x200A)) ||
   (c =? 0x2028) || (c =? 0x2029) || (c =? 0x202F) || (c =? 0x205F) ||
   (c =? 0x3000) || (c =? 0xFEFF))%N.

(** [!s.trim()]: the trimmed string is empty. *)
Definition blank (s : jsstring) : bool := forallb is_js_space s.

(** [s.split(sep)] for a one-character separator: never empty, the last
    piece is what follows the last separator. *)
Fixpoint split_char (sep : N) (s : jsstring) : list jsstring :=
  match s with
  | [] => [[]]
  | c :: s' =>
      if (c =? sep)%N then [] :: split_char sep s'
      else match split_char sep s' with
           | piece :: pieces => (c :: piece) :: pieces
           | [] => [[c]]
           end
  end.

(** [pieces.join(sep)] *)
Fixpoint join_char (sep : N) (pieces : list jsstring) : jsstring :=
  match pieces with
  | [] => []
  | [p] => p
  | p :: ps => p ++ sep :: join_char sep ps
  end.

(** ** POSIX paths: [node:path]

    [normalizeString(path, allowAboveRoot, "/", ...)], segment by segment:
    empty segments and [.] are dropped, [..] removes the segment before it,
    or stays when there is none to remove and the path is relative. *)
Fixpoint normalize_segments (allowAboveRoot : bool) (stack segs : list jsstring)
    : list jsstring :=
  match segs with
  | [] => rev stack
  | seg :: rest =>
      if jseqb seg [] || jseqb seg (js ".") then
        normalize_segments allowAboveRoot stack rest
      else if jseqb seg (js "..") then
        match stack with
        | top :: stack' =>
            if jseqb top (js "..") then
              normalize_segments allowAboveRoot
                (if allowAboveRoot then seg :: stack else stack) rest
            else normalize_segments allowAboveRoot stack' rest
        | [] =>
            normalize_segments allowAboveRoot
              (if allowAboveRoot then [seg] else []) rest
        end
      else normalize_segments allowAboveRoot (seg :: stack) rest
  end.

Definition slash : N := 0x2F.

Definition normalizeString (path : jsstring) (allowAboveRoot : bool) : jsstring :=
  join_char slash (normalize_segments allowAboveRoot [] (split_char slash path)).

Definition isAbsolute (path : jsstring) : bool :=
  match path with
  | c :: _ => (c =? slash)%N
  | [] => false
  end.

(** The loop of [path.resolve]: the arguments from the last to the first,
    then the working directory, until the path is absolute. *)
Fixpoint resolve_loop (paths : list jsstring) (resolvedPath : jsstring)
    : jsstring * bool :=
  match paths with
  | [] => (resolvedPath, false)
  | path :: rest =>
      match path with
      | [] => resolve_loop rest resolvedPath
      | _ =>
          let resolvedPath := path ++ slash :: resolvedPath in
          if isAbsolute path then (resolvedPath, true)
          else resolve_loop rest resolvedPath
      end
  end.

(** [path.resolve(...args)] in a process whose working directory is [cwd] *)
Definition path_resolve (cwd : jsstring) (args : list jsstring) : jsstring :=
  let '(resolvedPath, resolvedAbsolute) := resolve_loop (rev args ++ [cwd]) [] in
  let normalized := normalizeString resolvedPath (negb resolvedAbsolute) in
  if resolvedAbsolute then slash :: normalized
  else match normalized with
       | [] => js "."
       | _ => normalized
       end.

(** [path.normalize(path)] *)
Definition path_normalize (path : jsstring) : jsstring :=
  match path with
  | [] => js "."
  | _ =>
      let absolute := isAbsolute path in
      let trailingSeparator :=
        match last path with Some c => (c =? slash)%N | None => false end in
      match normalizeString path (negb absolute) with
      | [] => if absolute then js "/" else if trailingSeparator then js "./" else js "."
      | p =>
          let p := if trailingSeparator then p ++ [slash] else p in
          if absolute then slash :: p else p
      end
  end.

(** [path.join(...args)] *)
Definition path_join (args : list jsstring) : jsstring :=
  match List.filter (fun a => negb (jseqb a [])) args with
  | [] => js "."
  | parts => path_normalize (join_char slash parts)
  end.

(** The directories and names of a path. *)
Definition path_segments (path : jsstring) : list jsstring := split_char slash path.

(** A name of a directory or file: not empty, not [.] nor [..], and free
    of separators. *)
Definition proper_name (seg : jsstring) : bool :=
  negb (jseqb seg []) && negb (jseqb seg (js ".")) && negb (jseqb seg (js ".."))
  && forallb (fun c => negb (c =? slash)%N) seg.

(** ** JSON values *)

(** A number as written in the JSON text: [(-1)^neg * mant * 10^exp10].
    The sources only test numbers against zero, which depends on the
    IEEE-754 double nearest to the literal only through [num_is_zero]. *)
Record JNumber := { num_neg : bool; num_mant : N; num_exp10 : Z }.

Inductive JSON :=
| JNull
| JBool (b : bool)
| JNum (n : JNumber)
| JStr (s : jsstring)
| JArr (elems : list JSON)
| JObj (members : list (jsstring * JSON)).

(** The double nearest to the literal is [0] or [-0]: the mantissa is zero
    or the magnitude is at most [2^-1075], half the least subnormal (a tie
    rounds to the even neighbour, which is zero). *)
Definition num_is_zero (n : JNumber) : bool :=
  (num_mant n =? 0)%N ||
  ((num_exp10 n <? 0)%Z &&
   (Z.of_N (num_mant n) * 2 ^ 1075 <=? 10 ^ (- num_exp10 n))%Z).

(** [x >= 0] for a number [x]; [-0 >= 0] holds. *)
Definition num_ge0 (n : JNumber) : bool := negb (num_neg n) || num_is_zero n.

(** Truthiness ([if (v)]) of a parsed value. *)
Definition truthy (v : JSON) : bool :=
  match v with
  | JNull => false
  | JBool b => b
  | JNum n => negb (num_is_zero n)
  | JStr s => negb (bool_decide (s = []))
  | JArr _ | JObj _ => true
  end.

(** [typeof v === "string"] with the string itself *)
Definition as_string (v : option JSON) : option jsstring :=
  match v with
  | Some (JStr s) => Some s
  | _ => None
  end.

(** [obj[key]] on an object literal: when a key is repeated in the JSON
    text the last occurrence wins. *)
Fixpoint jlookup (key : jsstring) (members : list (jsstring * JSON)) : option JSON :=
  match members with
  | [] => None
  | (k, v) :: rest =>
      match jlookup key rest with
      | Some w => Some w
      | None => if jseqb k key then Some v else None
      end
  end.

(** [env[key]] on a record of strings *)
Fixpoint jlookup_str (key : jsstring) (entries : list (jsstring * jsstring)) : option jsstring :=
  match entries with
  | [] => None
  | (k, v) :: rest =>
      match jlookup_str key rest with
      | Some w => Some w
      | None => if jseqb k key then Some v else None
      end
  end.

(** [v[key]] for the property names the sources read ([type], [prompt],
    [media_type], [error], ...): none of them is defined on arrays, strings,
    numbers or booleans, nor inherited by objects.  Reading a property of
    [null] throws, which the callers exclude or catch. *)
Definition jprop (v : JSON) (key : jsstring) : option JSON :=
  match v with
  | JObj members => jlookup key members
  | _ => None
  end.

(** ** [JSON.parse]

    The JSON grammar of ECMA-404, read one code unit at a time by a
    pushdown automaton: the stack holds the enclosing arrays and objects,
    the mode says what may come next. *)

Inductive Frame :=
| FArr (elems : list JSON)                   (* elements so far, last first *)
| FObj (members : list (jsstring * JSON))    (* members so far, last first *)
| FKey (key : jsstring).                     (* key whose value is being read *)

Inductive NumSt := NMinus | NZero | NInt | NDot | NFrac | NE | NESign | NExp.

Record NumAcc := {
  a_neg : bool;       (* leading minus *)
  a_mant : N;         (* integer and fraction digits *)
  a_scale : N;        (* number of fraction digits *)
  a_eneg : bool;      (* sign of the exponent *)
  a_exp : N           (* exponent digits *)
}.

Inductive StrSt :=
| SPlain
| SEsc                                (* after a backslash *)
| SHex (k : nat) (acc : N).           (* after \u and [k] hex digits *)

Inductive Mode :=
| MValue                                        (* a value *)
| MArrFirst                                     (* after '[': a value or ']' *)
| MObjFirst                                     (* after '{': a key or '}' *)
| MObjKey                                       (* after ',' in an object: a key *)
| MColon (key : jsstring)                       (* after a key: ':' *)
| MAfter                                        (* after a value inside a container *)
| MEnd (v : JSON)                               (* after the top-level value *)
| MStr (iskey : bool) (acc : jsstring) (st : StrSt)
| MNum (st : NumSt) (acc : NumAcc)
| MLit (rest : jsstring) (v : JSON)             (* inside true, false, null *)
| MFail.

Definition PState : Type := list Frame * Mode.

Definition is_json_ws (c : N) : bool :=
  ((c =? 0x20) || (c =? 0x09) || (c =? 0x0A) || (c =? 0x0D))%N.

Definition digit_of (c : N) : option N :=
  if ((0x30 <=? c) && (c <=? 0x39))%N then Some (c - 0x30)%N else None.

Definition hex_of (c : N) : option N :=
  if ((0x30 <=? c) && (c <=? 0x39))%N then Some (c - 0x30)%N
  else if ((0x41 <=? c) && (c <=? 0x46))%N then Some (c - 0x41 + 10)%N
  else if ((0x61 <=? c) && (c <=? 0x66))%N then Some (c - 0x61 + 10)%N
  else None.

Definition fail : PState := ([], MFail).

(** A complete value goes to the enclosing container. *)
Definition push_value (v : JSON) (stack : list Frame) : PState :=
  match stack with
  | [] => ([], MEnd v)
  | FArr es :: tl => (FArr (v :: es) :: tl, MAfter)
  | FKey k :: FObj ms :: tl => (FObj ((k, v) :: ms) :: tl, MAfter)
  | _ => fail
  end.

Definition num_of_acc (a : NumAcc) : JNumber :=
  {| num_neg := a_neg a;
     num_mant := a_mant a;
     num_exp10 := (if a_eneg a then - Z.of_N (a_exp a) else Z.of_N (a_exp a))
                  - Z.of_N (a_scale a) |}.

Definition acc0 (neg : bool) (d : N) : NumAcc :=
  {| a_neg := neg; a_mant := d; a_scale := 0; a_eneg := false; a_exp := 0 |}.

Definition acc_int (a : NumAcc) (d : N) : NumAcc :=
  {| a_neg := a_neg a; a_mant := a_mant a * 10 + d; a_scale := a_scale a;
     a_eneg := a_eneg a; a_exp := a_exp a |}.

Definition acc_frac (a : NumAcc) (d : N) : NumAcc :=
  {| a_neg := a_neg a; a_mant := a_mant a * 10 + d; a_scale := a_scale a + 1;
     a_eneg := a_eneg a; a_exp := a_exp a |}.

Definition acc_esign (a : NumAcc) (neg : bool) : NumAcc :=
  {| a_neg := a_neg a; a_mant := a_mant a; a_scale := a_scale a;
     a_eneg := neg; a_exp := a_exp a |}.

Definition acc_exp (a : NumAcc) (d : N) : NumAcc :=
  {| a_neg := a_neg a; a_mant := a_mant a; a_scale := a_scale a;
     a_eneg := a_eneg a; a_exp := a_exp a * 10 + d |}.

(** A number may end in these states. *)
Definition num_final (st : NumSt) : bool :=
  match st with
  | NZero | NInt | NFrac | NExp => true
  | _ => false
  end.

(** The first code unit of a value. *)
Definition step_value (stack : list Frame) (c : N) : PState :=
  if is_json_ws c then (stack, MValue)
  else if (c =? 0x22)%N then (stack, MStr false [] SPlain)
  else if (c =? 0x5B)%N then (FArr [] :: stack, MArrFirst)
  else if (c =? 0x7B)%N then (FObj [] :: stack, MObjFirst)
  else if (c =? 0x2D)%N then (stack, MNum NMinus (acc0 true 0))
  else if (c =? 0x30)%N then (stack, MNum NZero (acc0 false 0))
  else if (c =? 0x74)%N then (stack, MLit (js "rue") (JBool true))
  else if (c =? 0x66)%N then (stack, MLit (js "alse") (JBool false))
  else if (c =? 0x6E)%N then (stack, MLit (js "ull") JNull)
  else match digit_of c with
       | Some d => (stack, MNum NInt (acc0 false d))
       | None => fail
       end.

(** What follows a value inside a container. *)
Definition step_after (stack : list Frame) (c : N) : PState :=
  if is_json_ws c then (stack, MAfter)
  else match stack with
       | FArr es :: tl =>
           if (c =? 0x2C)%N then (stack, MValue)
           else if (c =? 0x5D)%N then push_value (JArr (rev es)) tl
           else fail
       | FObj ms :: tl =>
           if (c =? 0x2C)%N then (stack, MObjKey)
           else if (c =? 0x7D)%N then push_value (JObj (rev ms)) tl
           else fail
       | _ => fail
       end.

(** What follows the top-level value: white space only. *)
Definition step_end (v : JSON) (c : N) : PState :=
  if is_json_ws c then ([], MEnd v) else fail.

(** The code unit [c] ends a number: the number is delivered and [c] is
    read in the mode that follows. *)
Definition end_number (stack : list Frame) (a : NumAcc) (c : N) : PState :=
  match push_value (JNum (num_of_acc a)) stack with
  | (stack', MAfter) => step_after stack' c
  | (_, MEnd v) => step_end v c
  | _ => fail
  end.

Definition is_e (c : N) : bool := ((c =? 0x65) || (c =? 0x45))%N.

Definition step_num (stack : list Frame) (st : NumSt) (a : NumAcc) (c : N) : PState :=
  match st, digit_of c with
  | NMinus, Some d => if (d =? 0)%N then (stack, MNum NZero a) else (stack, MNum NInt (acc_int a d))
  | NMinus, None => fail
  | NZero, Some _ => fail
  | NZero, None =>
      if (c =? 0x2E)%N then (stack, MNum NDot a)
      else if is_e c then (stack, MNum NE a)
      else end_number stack a c
  | NInt, Some d => (stack, MNum NInt (acc_int a d))
  | NInt, None =>
      if (c =? 0x2E)%N then (stack, MNum NDot a)
      else if is_e c then (stack, MNum NE a)
      else end_number stack a c
  | NDot, Some d => (stack, MNum NFrac (acc_frac a d))
  | NDot, None => fail
  | NFrac, Some d => (stack, MNum NFrac (acc_frac a d))
  | NFrac, None =>
      if is_e c then (stack, MNum NE a) else end_number stack a c
  | NE, Some d => (stack, MNum NExp (acc_exp a d))
  | NE, None =>
      if (c =? 0x2B)%N then (stack, MNum NESign (acc_esign a false))
      else if (c =? 0x2D)%N then (stack, MNum NESign (acc_esign a true))
      else fail
  | NESign, Some d => (stack, MNum NExp (acc_exp a d))
  | NESign, None => fail
  | NExp, Some d => (stack, MNum NExp (acc_exp a d))
  | NExp, None => end_number stack a c
  end.

(** The closing quote of a string: a key waits for its colon, a value is
    delivered. *)
Definition end_string (stack : list Frame) (iskey : bool) (acc : jsstring) : PState :=
  if iskey then (stack, MColon (rev acc)) else push_value (JStr (rev acc)) stack.

Definition step_str (stack : list Frame) (iskey : bool) (acc : jsstring)
    (st : StrSt) (c : N) : PState :=
  match st with
  | SPlain =>
      if (c =? 0x22)%N then end_string stack iskey acc
      else if (c =? 0x5C)%N then (stack, MStr iskey acc SEsc)
      else if (c <? 0x20)%N then fail
      else (stack, MStr iskey (c :: acc) SPlain)
  | SEsc =>
      if ((c =? 0x22) || (c =? 0x5C) || (c =? 0x2F))%N then (stack, MStr iskey (c :: acc) SPlain)
      else if (c =? 0x62)%N then (stack, MStr iskey (0x08%N :: acc) SPlain)
      else if (c =? 0x66)%N then (stack, MStr iskey (0x0C%N :: acc) SPlain)
      else if (c =? 0x6E)%N then (stack, MStr iskey (0x0A%N :: acc) SPlain)
      else if (c =? 0x72)%N then (stack, MStr iskey (0x0D%N :: acc) SPlain)
      else if (c =? 0x74)%N then (stack, MStr iskey (0x09%N :: acc) SPlain)
      else if (c =? 0x75)%N then (stack, MStr iskey acc (SHex 0 0))
      else fail
  | SHex k h =>
      match hex_of c with
      | Some d =>
          if (k =? 3)%nat then (stack, MStr iskey ((h * 16 + d)%N :: acc) SPlain)
          else (stack, MStr iskey acc (SHex (S k) (h * 16 + d)))
      | None => fail
      end
  end.

Definition step (p : PState) (c : N) : PState :=
  let '(stack, mode) := p in
  match mode with
  | MValue => step_value stack c
  | MArrFirst =>
      if is_json_ws c then (stack, MArrFirst)
      else if (c =? 0x5D)%N then
        match stack with
        | FArr es :: tl => push_value (JArr (rev es)) tl
        | _ => fail
        end
      else step_value stack c
  | MObjFirst =>
      if is_json_ws c then (stack, MObjFirst)
      else if (c =? 0x7D)%N then
        match stack with
        | FObj ms :: tl => push_value (JObj (rev ms)) tl
        | _ => fail
        end
      else if (c =? 0x22)%N then (stack, MStr true [] SPlain)
      else fail
  | MObjKey =>
      if is_json_ws c then (stack, MObjKey)
      else if (c =? 0x22)%N then (stack, MStr true [] SPlain)
      else fail
  | MColon key =>
      if is_json_ws c then (stack, MColon key)
      else if (c =? 0x3A)%N then (FKey key :: stack, MValue)
      else fail
  | MAfter => step_after stack c
  | MEnd v => step_end v c
  | MStr iskey acc st => step_str stack iskey acc st c
  | MNum st a => step_num stack st a c
  | MLit rest v =>
      match rest with
      | x :: rest' =>
          if (c =? x)%N then
            match rest' with
            | [] => push_value v stack
            | _ => (stack, MLit rest' v)
            end
          else fail
      | [] => fail
      end
  | MFail => fail
  end.

(** At the end of the text the top-level value must be complete. *)
Definition finish_parse (p : PState) : option JSON :=
  match p with
  | ([], MEnd v) => Some v
  | ([], MNum st a) => if num_final st then Some (JNum (num_of_acc a)) else None
  | _ => None
  end.

(** [JSON.parse(text)]: [None] stands for the [SyntaxError]. *)
Definition JSON_parse (text : jsstring) : option JSON :=
  finish_parse (fold_left step text ([], MValue)).

End JS.

(* ===================================================================== *)
(** * The protocol codec: src/server/protocol.ts                          *)
(* ===================================================================== *)

Module Protocol.
Import JS.

Definition MAX_PROMPT_BYTES : N := 512 * 1024.
Definition MAX_SYSTEM_PROMPT_BYTES : N := 64 * 1024.
Definition MAX_IMAGES : N := 4.
Definition MAX_IMAGE_BASE64_BYTES : N := 10 * 1024 * 1024.
Definition ALLOWED_IMAGE_TYPES : list jsstring :=
  [js "image/png"; js "image/jpeg"; js "image/gif"; js "image/webp"].
Definition MAX_PROJECT_ID_LENGTH : N := 128.

(** [ALLOWED_IMAGE_TYPES.has(t)] *)
Definition allowed_image_type (t : jsstring) : bool :=
  existsb (jseqb t) ALLOWED_IMAGE_TYPES.

(** The character class [[a-zA-Z0-9._-]]. *)
Definition project_id_char (c : N) : bool :=
  (((0x61 <=? c) && (c <=? 0x7A)) || ((0x41 <=? c) && (c <=? 0x5A)) ||
   ((0x30 <=? c) && (c <=? 0x39)) || (c =? 0x2E) || (c =? 0x5F) || (c =? 0x2D))%N.

(** [PROJECT_ID_PATTERN.test(s)] for [/^[a-zA-Z0-9._-]+$/]: one or more
    characters of the class and nothing else. *)
Definition PROJECT_ID_PATTERN (s : jsstring) : bool :=
  match s with
  | [] => false
  | _ => forallb project_id_char s
  end.

Record PromptImage := { media_type : jsstring; data : jsstring }.

Record PromptMessage := {
  prompt : jsstring;
  model : option jsstring;
  systemPrompt : option jsstring;
  projectId : option jsstring;
  requestId : jsstring;
  provider : jsstring;
  thinkingTokens : option JNumber;
  images : option (list PromptImage)
}.

Inductive ClientMessage :=
| Prompt (m : PromptMessage)
| Cancel (requestId : jsstring).

Inductive ParseResult :=
| Ok (message : ClientMessage)
| Err (error : jsstring).

Definition dquote : jsstring := [0x22%N].

(** The error messages of [parseClientMessage]. *)
Definition err_prompt : jsstring := js "Missing or empty 'prompt' field".
Definition err_prompt_size : jsstring :=
  js "Prompt exceeds maximum size of " ++ dec_of_N MAX_PROMPT_BYTES ++ js " bytes".
Definition err_requestId : jsstring := js "Missing or empty 'requestId' field".
Definition err_system_size : jsstring :=
  js "System prompt exceeds maximum size of " ++ dec_of_N MAX_SYSTEM_PROMPT_BYTES ++ js " bytes".
Definition err_project_len : jsstring :=
  js "projectId exceeds maximum length of " ++ dec_of_N MAX_PROJECT_ID_LENGTH.
Definition err_project_chars : jsstring :=
  js "projectId contains invalid characters (allowed: alphanumeric, hyphens, underscores, dots)".
Definition err_provider (p : jsstring) : jsstring :=
  js "Unknown provider: " ++ dquote ++ p ++ dquote ++ js " (supported: claude, codex, ollama)".
Definition err_images_count : jsstring :=
  js "Too many images (max " ++ dec_of_N MAX_IMAGES ++ js ")".
Definition err_image_object : jsstring :=
  js "Each image must be an object with media_type and data".
Definition err_image_fields : jsstring :=
  js "Each image must have string media_type and data fields".
Definition err_image_type (t : jsstring) : jsstring :=
  js "Unsupported image type: " ++ slice0 50 t ++ js " (allowed: png, jpeg, gif, webp)".
Definition err_image_size : jsstring :=
  js "Image exceeds maximum size of " ++ dec_of_N MAX_IMAGE_BASE64_BYTES ++ js " bytes".
Definition err_cancel : jsstring := js "Missing or empty 'requestId' field in cancel message".
Definition err_type (t : jsstring) : jsstring := js "Unknown message type: " ++ slice0 50 t.

(** [typeof img !== "object" || img === null] fails for objects and arrays
    only. *)
Definition is_object_like (v : JSON) : bool :=
  match v with
  | JObj _ | JArr _ => true
  | _ => false
  end.

(** The body of [for (const img of rawImages)]: the first image that fails
    a check ends the loop with its error. *)
Fixpoint parseImages (rawImages : list JSON) : jsstring + list PromptImage :=
  match rawImages with
  | [] => inr []
  | img :: rest =>
      if negb (is_object_like img) then inl err_image_object
      else
        match as_string (jprop img (js "media_type")), as_string (jprop img (js "data")) with
        | Some mt, Some d =>
            if negb (allowed_image_type mt) then inl (err_image_type mt)
            else if (MAX_IMAGE_BASE64_BYTES <? jslength d)%N then inl err_image_size
            else match parseImages rest with
                 | inl e => inl e
                 | inr imgs => inr ({| media_type := mt; data := d |} :: imgs)
                 end
        | _, _ => inl err_image_fields
        end
  end.

(** [case "prompt"] *)
Definition parsePrompt (obj : list (jsstring * JSON)) : ParseResult :=
  match as_string (jlookup (js "prompt") obj) with
  | None => Err err_prompt
  | Some prompt =>
  if (jslength prompt =? 0)%N then Err err_prompt
  else if (MAX_PROMPT_BYTES <? utf8_byteLength prompt)%N then Err err_prompt_size
  else
  match as_string (jlookup (js "requestId") obj) with
  | None => Err err_requestId
  | Some requestId =>
  if (jslength requestId =? 0)%N then Err err_requestId
  else
  let model := jlookup (js "model") obj in
  let systemPrompt := jlookup (js "systemPrompt") obj in
  let projectId := jlookup (js "projectId") obj in
  let provider := jlookup (js "provider") obj in
  let thinkingTokens := jlookup (js "thinkingTokens") obj in
  if match as_string systemPrompt with
     | Some sp => (MAX_SYSTEM_PROMPT_BYTES <? utf8_byteLength sp)%N
     | None => false
     end
  then Err err_system_size
  else
  match match as_string projectId with
        | Some pid =>
            if (MAX_PROJECT_ID_LENGTH <? jslength pid)%N then Some err_project_len
            else if negb (PROJECT_ID_PATTERN pid) then Some err_project_chars
            else None
        | None => None
        end
  with
  | Some e => Err e
  | None =>
  match match as_string provider with
        | Some p =>
            if negb (jseqb p (js "claude")) && negb (jseqb p (js "codex"))
               && negb (jseqb p (js "ollama"))
            then Some (err_provider p) else None
        | None => None
        end
  with
  | Some e => Err e
  | None =>
  let rawImages := jlookup (js "images") obj in
  match match rawImages with
        | Some (JArr ((_ :: _) as imgs)) =>
            if (MAX_IMAGES <? N.of_nat (length imgs))%N then inl err_images_count
            else match parseImages imgs with
                 | inl e => inl e
                 | inr parsed => inr (Some parsed)
                 end
        | _ => inr None
        end
  with
  | inl e => Err e
  | inr parsedImages =>
      Ok (Prompt
        {| prompt := prompt;
           model := as_string model;
           systemPrompt := as_string systemPrompt;
           projectId := as_string projectId;
           requestId := requestId;
           provider :=
             match as_string provider with
             | Some p =>
                 if jseqb p (js "codex") then js "codex"
                 else if jseqb p (js "ollama") then js "ollama"
                 else js "claude"
             | None => js "claude"
             end;
           thinkingTokens :=
             match thinkingTokens with
             | Some (JNum n) => if num_ge0 n then Some n else None
             | _ => None
             end;
           images := parsedImages |})
  end end end end end.

(** [case "cancel"] *)
Definition parseCancel (obj : list (jsstring * JSON)) : ParseResult :=
  match as_string (jlookup (js "requestId") obj) with
  | None => Err err_cancel
  | Some requestId =>
      if (jslength requestId =? 0)%N then Err err_cancel
      else Ok (Cancel requestId)
  end.

Definition parseClientMessage (raw : jsstring) : ParseResult :=
  match JSON_parse raw with
  | None => Err (js "Invalid JSON")
  | Some (JObj obj) =>
      match as_string (jlookup (js "type") obj) with
      | None => Err (js "Missing or invalid 'type' field")
      | Some type =>
          if jseqb type (js "prompt") then parsePrompt obj
          else if jseqb type (js "cancel") then parseCancel obj
          else Err (err_type type)
      end
  | Some _ => Err (js "Message must be a JSON object")
  end.

(** ** The order of the checks, as the specification words it

    Each check looks at the frame on its own and returns the error it
    reports when it fails; the frame's error is the first failure in the
    order of the list. *)

Definition Check : Type := option jsstring.

Fixpoint first_failure (checks : list Check) : option jsstring :=
  match checks with
  | [] => None
  | Some e :: _ => Some e
  | None :: rest => first_failure rest
  end.

(** (a) non-empty [prompt] *)
Definition check_prompt (obj : list (jsstring * JSON)) : Check :=
  match as_string (jlookup (js "prompt") obj) with
  | Some (_ :: _) => None
  | _ => Some err_prompt
  end.

(** (b) prompt byte length at most 512 KiB, measured as UTF-8 *)
Definition check_prompt_size (obj : list (jsstring * JSON)) : Check :=
  match as_string (jlookup (js "prompt") obj) with
  | Some p =>
      if (utf8_byteLength p <=? 512 * 1024)%N then None else Some err_prompt_size
  | _ => None
  end.

(** (c) non-empty [requestId] *)
Definition check_requestId (obj : list (jsstring * JSON)) : Check :=
  match as_string (jlookup (js "requestId") obj) with
  | Some (_ :: _) => None
  | _ => Some err_requestId
  end.

(** (d) if [systemPrompt] is present and a string, byte length at most 64 KiB *)
Definition check_system_size (obj : list (jsstring * JSON)) : Check :=
  match as_string (jlookup (js "systemPrompt") obj) with
  | Some sp =>
      if (utf8_byteLength sp <=? 64 * 1024)%N then None else Some err_system_size
  | _ => None
  end.

(** (e) if [projectId] is present and a string, length at most 128 ... *)
Definition check_project_len (obj : list (jsstring * JSON)) : Check :=
  match as_string (jlookup (js "projectId") obj) with
  | Some pid =>
      if (jslength pid <=? 128)%N then None else Some err_project_len
  | _ => None
  end.

(** ... then the pattern *)
Definition check_project_pattern (obj : list (jsstring * JSON)) : Check :=
  match as_string (jlookup (js "projectId") obj) with
  | Some pid =>
      if PROJECT_ID_PATTERN pid then None else Some err_project_chars
  | _ => None
  end.

(** (f) if [provider] is present as a string, one of the three known tags *)
Definition check_provider (obj : list (jsstring * JSON)) : Check :=
  match as_string (jlookup (js "provider") obj) with
  | Some p =>
      if bool_decide (p ∈ [js "claude"; js "codex"; js "ollama"]) then None
      else Some (err_provider p)
  | _ => None
  end.

(** (g) if [images] is a non-empty array: at most 4 of them ... *)
Definition check_images_count (obj : list (jsstring * JSON)) : Check :=
  match jlookup (js "images") obj with
  | Some (JArr imgs) =>
      if (N.of_nat (length imgs) <=? 4)%N then None else Some err_images_count
  | _ => None
  end.

(** ... each element is an object, with a string [media_type] in the allowed
    set and a string [data] of length at most 10 MiB *)
Definition check_image_object (img : JSON) : Check :=
  match img with
  | JObj _ | JArr _ => None
  | _ => Some err_image_object
  end.

Definition check_image_fields (img : JSON) : Check :=
  match as_string (jprop img (js "media_type")), as_string (jprop img (js "data")) with
  | Some _, Some _ => None
  | _, _ => Some err_image_fields
  end.

Definition check_image_type (img : JSON) : Check :=
  match as_string (jprop img (js "media_type")) with
  | Some mt =>
      if bool_decide (mt ∈ ALLOWED_IMAGE_TYPES) then None else Some (err_image_type mt)
  | _ => None
  end.

Definition check_image_size (img : JSON) : Check :=
  match as_string (jprop img (js "data")) with
  | Some d =>
      if (jslength d <=? 10 * 1024 * 1024)%N then None else Some err_image_size
  | _ => None
  end.

Definition image_checks (img : JSON) : list Check :=
  [check_image_object img; check_image_fields img; check_image_type img;
   check_image_size img].

Definition images_checks (obj : list (jsstring * JSON)) : list Check :=
  match jlookup (js "images") obj with
  | Some (JArr imgs) => check_images_count obj :: flat_map image_checks imgs
  | _ => []
  end.

Definition prompt_checks (obj : list (jsstring * JSON)) : list Check :=
  [check_prompt obj; check_prompt_size obj; check_requestId obj;
   check_system_size obj; check_project_len obj; check_project_pattern obj;
   check_provider obj] ++ images_checks obj.

(** The [cancel] frame: non-empty [requestId]. *)
Definition cancel_checks (obj : list (jsstring * JSON)) : list Check :=
  [match as_string (jlookup (js "requestId") obj) with
   | Some (_ :: _) => None
   | _ => Some err_cancel
   end].

(** Steps 1 to 4 of the specification. *)
Definition frame_checks (raw : jsstring) : list Check :=
  match JSON_parse raw with
  | None => [Some (js "Invalid JSON")]
  | Some (JObj obj) =>
      match as_string (jlookup (js "type") obj) with
      | Some type =>
          if bool_decide (type = js "prompt") then prompt_checks obj
          else if bool_decide (type = js "cancel") then cancel_checks obj
          else [Some (js "Unknown message type: " ++ take 50 type)]
      | _ => [Some (js "Missing or invalid 'type' field")]
      end
  | Some _ => [Some (js "Message must be a JSON object")]
  end.

(** The frame with every occurrence of one field removed. *)
Definition without_field (key : jsstring) (obj : list (jsstring * JSON)) :
    list (jsstring * JSON) :=
  List.filter (fun kv => negb (jseqb (fst kv) key)) obj.

(** The error a result carries, if any. *)
Definition error_of (r : ParseResult) : option jsstring :=
  match r with
  | Err e => Some e
  | Ok _ => None
  end.

(** The provider of the frame, when it is an accepted prompt. *)
Definition provider_of_frame (raw : jsstring) : option jsstring :=
  match parseClientMessage raw with
  | Ok (Prompt m) => Some (provider m)
  | _ => None
  end.

End Protocol.

(* ===================================================================== *)
(** * Subprocess runners: src/process/base-cli-provider.ts                *)
(* ===================================================================== *)

Module Cli.
Import JS.

Record RunOptions := {
  prompt : jsstring;
  model : option jsstring;
  systemPrompt : option jsstring;
  projectId : option jsstring;
  requestId : jsstring;
  thinkingTokens : option JNumber;
  images : option (list Protocol.PromptImage)
}.

(** A call of one of the [RunHandlers].  The payload of [onChunk] and of
    [onError] is a string by its TypeScript type; at run time it is whatever
    value the backend's JSON carried. *)
Inductive HandlerCall :=
| onChunk (content : JSON) (requestId : jsstring) (thinking : bool)
| onComplete (requestId : jsstring)
| onError (message : JSON) (requestId : jsstring).

(** The final event of a request: [onComplete] or [onError]. *)
Definition is_terminal (c : HandlerCall) : bool :=
  match c with
  | onChunk _ _ _ => false
  | onComplete _ | onError _ _ => true
  end.

(** What goes to the child's standard input before it is closed. *)
Inductive Stdin :=
| StdinText (text : jsstring)
| StdinJsonLine (v : JSON).          (* [JSON.stringify(v) + "\n"] *)

Record SpawnInfo := {
  command : jsstring;
  args : list JSON;
  cwd : option jsstring;
  env : list (jsstring * jsstring);
  stdin : option Stdin
}.

(** What a provider asks of the operating system. *)
Inductive SysEffect :=
| Spawn (info : SpawnInfo)                       (* [spawn(...)] and the stdin writes *)
| Mkdir (path : jsstring)                        (* [mkdirSync(path, {recursive})] *)
| WriteFile (path : jsstring) (base64 : jsstring)
| Unlink (path : jsstring).

(** What a runner does to the world, in order. *)
Inductive Effect :=
| Call (c : HandlerCall)                         (* a handler of the run concerned *)
| ChildKill (pid : nat)                          (* [process.kill()] on a child *)
| Sys (e : SysEffect)
| Raised.                                        (* the call raised to its caller *)

(** How [spawnProcess] ends. *)
Inductive SpawnStatus :=
| Spawned               (* it returned the child *)
| NoProcess             (* it returned [null], after calling [handlers.onError] *)
| Threw.                (* an exception escaped *)

(** The abstract methods of [BaseCliProvider], over the subclass's own
    fields [S] and what the operating system answers to a [run], [Env]. *)
Class CliProvider (S Env : Type) := {
  spawnProcess : S -> Env -> RunOptions -> S * list Effect * SpawnStatus;
  parseStreamLine : S -> jsstring -> jsstring -> S * list HandlerCall;
  onProcessExit : S -> RunOptions -> S * list SysEffect
}.

(** What the closures of one [run] capture: its options (hence the
    [requestId]) and the [handlersDone] flag.  The child spawned by the
    [n]-th successful [run] of a runner is child [n]. *)
Record Exec := {
  options : RunOptions;
  handlersDone : bool
}.

Record Runner (S : Type) := {
  process : option nat;        (* [this.process]: the child it refers to *)
  timeout : option nat;        (* [this.timeout]: the run whose timer it holds *)
  disposed : bool;
  killed : bool;
  execs : list Exec;
  sub : S                      (* the subclass's fields *)
}.
Arguments process {S}. Arguments timeout {S}. Arguments disposed {S}.
Arguments killed {S}. Arguments execs {S}. Arguments sub {S}.

Section BaseCliProvider.
Context {S Env : Type} `{CliProvider S Env}.

(** [new Provider(...)] *)
Definition new (s : S) : Runner S :=
  {| process := None; timeout := None; disposed := false; killed := false;
     execs := []; sub := s |}.

Definition set_process (p : option nat) (r : Runner S) : Runner S :=
  {| process := p; timeout := timeout r; disposed := disposed r;
     killed := killed r; execs := execs r; sub := sub r |}.
Definition set_timeout (t : option nat) (r : Runner S) : Runner S :=
  {| process := process r; timeout := t; disposed := disposed r;
     killed := killed r; execs := execs r; sub := sub r |}.
Definition set_disposed (b : bool) (r : Runner S) : Runner S :=
  {| process := process r; timeout := timeout r; disposed := b;
     killed := killed r; execs := execs r; sub := sub r |}.
Definition set_killed (b : bool) (r : Runner S) : Runner S :=
  {| process := process r; timeout := timeout r; disposed := disposed r;
     killed := b; execs := execs r; sub := sub r |}.
Definition set_execs (l : list Exec) (r : Runner S) : Runner S :=
  {| process := process r; timeout := timeout r; disposed := disposed r;
     killed := killed r; execs := l; sub := sub r |}.
Definition set_sub (s : S) (r : Runner S) : Runner S :=
  {| process := process r; timeout := timeout r; disposed := disposed r;
     killed := killed r; execs := execs r; sub := s |}.

(** [get isRunning()] *)
Definition isRunning (r : Runner S) : bool :=
  match process r with Some _ => true | None => false end.

(** [private clearTimeout()] *)
Definition clearTimeout (r : Runner S) : Runner S := set_timeout None r.

(** [kill()] *)
Definition kill (r : Runner S) : Runner S * list Effect :=
  let r := clearTimeout r in
  match process r with
  | Some pid => (set_process None (set_killed true r), [ChildKill pid])
  | None => (r, [])
  end.

(** [dispose()] *)
Definition dispose (r : Runner S) : Runner S * list Effect :=
  kill (set_disposed true r).

(** [finish(cb)] of the run that spawned child [pid] *)
Definition finish (pid : nat) (cb : HandlerCall) (r : Runner S) : Runner S * list Effect :=
  match execs r !! pid with
  | Some ex =>
      if handlersDone ex then (r, [])
      else
        let ex' := {| options := options ex; handlersDone := true |} in
        (clearTimeout (set_execs (<[pid := ex']> (execs r)) r), [Call cb])
  | None => (r, [])
  end.

(** [run(options, handlers)] *)
Definition run (o : RunOptions) (e : Env) (r : Runner S) : Runner S * list Effect :=
  if disposed r then
    (r, [Call (onError (JStr (js "Runner has been disposed")) (requestId o))])
  else
    let '(r, out_kill) := kill r in
    let r := set_killed false r in
    let '(s, out_spawn, status) := spawnProcess (sub r) e o in
    let r := set_sub s r in
    match status with
    | Threw => (r, out_kill ++ out_spawn ++ [Raised])
    | NoProcess => (r, out_kill ++ out_spawn)
    | Spawned =>
        let pid := length (execs r) in
        let r := set_process (Some pid) r in
        let r := set_execs (execs r ++ [{| options := o; handlersDone := false |}]) r in
        let r := set_timeout (Some pid) r in
        (r, out_kill ++ out_spawn)
    end.

(** The [setTimeout] callback of the run that spawned child [pid]. *)
Definition on_timeout (pid : nat) (r : Runner S) : Runner S * list Effect :=
  match execs r !! pid with
  | Some ex =>
      let '(r, out_kill) := kill r in
      let '(r, out) := finish pid (onError (JStr (js "Process timed out")) (requestId (options ex))) r in
      (r, out_kill ++ out)
  | None => (r, [])
  end.

(** The [rl.on("line")] listener on the stdout of child [pid]. *)
Definition on_line (pid : nat) (line : jsstring) (r : Runner S) : Runner S * list Effect :=
  match execs r !! pid with
  | Some ex =>
      let '(s, calls) := parseStreamLine (sub r) line (requestId (options ex)) in
      (set_sub s r, List.map Call calls)
  | None => (r, [])
  end.

(** The reason given to [onError] when a child exits abnormally. *)
Definition exit_reason (exitCode : option Z) (signal : option jsstring) : jsstring :=
  match exitCode with
  | Some n => js "CLI exited with code " ++ dec_of_Z n
  | None => js "CLI killed by signal " ++ default (js "unknown") signal
  end.

(** The [process.on("exit")] listener of child [pid]. *)
Definition on_exit (pid : nat) (exitCode : option Z) (signal : option jsstring)
    (r : Runner S) : Runner S * list Effect :=
  match execs r !! pid with
  | Some ex =>
      let r := set_process None r in
      let '(s, out_hook) := onProcessExit (sub r) (options ex) in
      let r := set_sub s r in
      if killed r then (r, List.map Sys out_hook)
      else
        let cb :=
          if bool_decide (exitCode = Some 0%Z) then onComplete (requestId (options ex))
          else onError (JStr (exit_reason exitCode signal)) (requestId (options ex)) in
        let '(r, out) := finish pid cb r in
        (r, List.map Sys out_hook ++ out)
  | None => (r, [])
  end.

(** The [process.on("error")] listener of child [pid]. *)
Definition on_error (pid : nat) (message : jsstring) (r : Runner S) : Runner S * list Effect :=
  match execs r !! pid with
  | Some ex =>
      let r := set_process None r in
      let '(s, out_hook) := onProcessExit (sub r) (options ex) in
      let r := set_sub s r in
      let '(r, out) := finish pid (onError (JStr message) (requestId (options ex))) r in
      (r, List.map Sys out_hook ++ out)
  | None => (r, [])
  end.

(** What happens to a runner: the calls of its owner and the events of its
    children and timers.  The timer of a run fires only while
    [this.timeout] still holds it. *)
Inductive Event :=
| Run (o : RunOptions) (e : Env)
| Kill
| Dispose
| ChildExit (pid : nat) (exitCode : option Z) (signal : option jsstring)
| ChildError (pid : nat) (message : jsstring)
| ChildLine (pid : nat) (line : jsstring)
| TimerFire (pid : nat).

Definition step (r : Runner S) (ev : Event) : Runner S * list Effect :=
  match ev with
  | Run o e => run o e r
  | Kill => kill r
  | Dispose => dispose r
  | ChildExit pid exitCode signal => on_exit pid exitCode signal r
  | ChildError pid message => on_error pid message r
  | ChildLine pid line => on_line pid line r
  | TimerFire pid =>
      if bool_decide (timeout r = Some pid) then on_timeout pid r else (r, [])
  end.

(** The events in order, each with what it caused. *)
Fixpoint steps (r : Runner S) (evs : list Event) : Runner S * list (Event * list Effect) :=
  match evs with
  | [] => (r, [])
  | ev :: evs' =>
      let '(r1, out) := step r ev in
      let '(r2, trace) := steps r1 evs' in
      (r2, (ev, out) :: trace)
  end.

(** [handlersDone] of the run that spawned child [pid]. *)
Definition done_at (pid : nat) (r : Runner S) : bool :=
  match execs r !! pid with
  | Some ex => handlersDone ex
  | None => false
  end.

(** The handler calls among effects. *)
Definition calls (out : list Effect) : list HandlerCall :=
  omap (fun e => match e with Call c => Some c | _ => None end) out.

(** The events of the listeners that go through [finish] for child [pid]:
    its exit, its error and the timer of its run. *)
Definition finishes_for (pid : nat) (ev : Event) : bool :=
  match ev with
  | ChildExit p _ _ | ChildError p _ | TimerFire p => bool_decide (p = pid)
  | _ => false
  end.

(** The final events ([onComplete], [onError]) that the exit, error and
    timeout listeners of child [pid] fired in a trace. *)
Fixpoint terminal_calls_of (pid : nat) (trace : list (Event * list Effect)) : list HandlerCall :=
  match trace with
  | [] => []
  | (ev, out) :: rest =>
      (if finishes_for pid ev then List.filter is_terminal (calls out) else [])
      ++ terminal_calls_of pid rest
  end.

End BaseCliProvider.

(** ** The provider of test/base-cli-provider.test.ts *)

Record TestProvider := { spawnCalled : bool; failSpawn : bool }.

#[export] Instance TestProvider_cli : CliProvider TestProvider unit := {
  spawnProcess s _ o :=
    let s' := {| spawnCalled := true; failSpawn := failSpawn s |} in
    if failSpawn s then (s', [Call (onError (JStr (js "spawn failed")) (requestId o))], NoProcess)
    else (s', [], Spawned);
  parseStreamLine s line rid :=
    (s, (if jseqb line (js "CHUNK:hello") then [onChunk (JStr (js "hello")) rid false] else [])
        ++ (if jseqb line (js "ERROR:oops") then [onError (JStr (js "oops")) rid] else []));
  onProcessExit s _ := (s, [])
}.

(** ** What the operating system answers to a [spawnProcess] *)

Record SysEnv := {
  tmpdir : jsstring;                            (* [os.tmpdir()] *)
  process_cwd : jsstring;                       (* [process.cwd()] *)
  process_env : list (jsstring * jsstring);     (* [process.env] *)
  mkdir_throws : jsstring -> bool;              (* [mkdirSync(path)] raises *)
  write_throws : jsstring -> bool;              (* [writeFileSync(path)] raises *)
  (** [spawn] raises: [Some (Some m)] an [Error] with message [m],
      [Some None] a value that is not an [Error] *)
  spawn_throws : option (option jsstring);
  child_has_stdin : bool                        (* [proc.stdin] is not null *)
}.

(** [if (s)] for an optional string *)
Definition present (s : option jsstring) : bool :=
  match s with
  | Some (_ :: _) => true
  | _ => false
  end.

(** The allowlisted part of [process.env]. *)
Definition allowed_env (keys : list jsstring) (e : SysEnv) : list (jsstring * jsstring) :=
  omap (fun key =>
          match jlookup_str key (process_env e) with
          | Some (c :: v) => Some (key, c :: v)
          | _ => None
          end) keys.

(** The working directory of a project: [resolve(resolve(tmpdir(),
    sessionDir), projectId)], and the base it must stay in. *)
Definition session_base (e : SysEnv) (sessionDir : jsstring) : jsstring :=
  path_resolve (process_cwd e) [tmpdir e; sessionDir].

Definition project_cwd (e : SysEnv) (sessionDir projectId : jsstring) : jsstring :=
  path_resolve (process_cwd e) [session_base e sessionDir; projectId].

(** [!cwd.startsWith(base + "/") && cwd !== base] *)
Definition escapes_base (base cwd : jsstring) : bool :=
  negb (startsWith cwd (base ++ js "/")) && negb (jseqb cwd base).

(** [v.k] and [v?.k] on parsed values; [v === "text"]. *)
Definition field (v : JSON) (k : string) : option JSON := jprop v (js k).
Definition field_opt (v : option JSON) (k : string) : option JSON :=
  match v with
  | None | Some JNull => None
  | Some v => jprop v (js k)
  end.
Definition is_text (v : option JSON) (text : string) : bool :=
  match v with
  | Some (JStr s) => jseqb s (js text)
  | _ => false
  end.
Definition truthy_opt (v : option JSON) : bool :=
  match v with
  | Some v => truthy v
  | None => false
  end.

(** [a || b]: the first when it is truthy. *)
Definition or_else (a b : option JSON) : option JSON :=
  if truthy_opt a then a else b.

Section Providers.
(** [String(n)] for a number *)
Variable number_to_string : JNumber -> jsstring.

(** *** src/process/claude-provider.ts *)

Record ClaudeProvider := {
  claudePath : jsstring;
  claude_sessionDir : jsstring;
  maxTurns : option Z;
  tools : option jsstring
}.

Definition CLAUDE_ENV_KEYS : list jsstring :=
  [js "PATH"; js "HOME"; js "USER"; js "SHELL"; js "TERM"; js "LANG"; js "LC_ALL";
   js "ANTHROPIC_API_KEY"; js "NODE_PATH"; js "XDG_CONFIG_HOME"].

(** The arguments of the Claude CLI.  [maxTurns] is taken to be an integer
    below 1e21, where [String(maxTurns)] is its decimal numeral; from 1e21
    on JavaScript writes an exponent. *)
Definition claude_args (p : ClaudeProvider) (o : RunOptions) : list JSON :=
  List.map JStr
    ([js "--print"; js "--verbose"; js "--output-format"; js "stream-json"]
     ++ match maxTurns p with Some n => [js "--max-turns"; dec_of_Z n] | None => [] end
     ++ match tools p with Some t => [js "--tools"; t] | None => [] end
     ++ match images o with
        | Some (_ :: _) => [js "--input-format"; js "stream-json"]
        | _ => []
        end
     ++ (if present (projectId o) then [js "--continue"] else [])
     ++ match model o with Some (c :: m) => [js "--model"; c :: m] | _ => [] end
     ++ match systemPrompt o with
        | Some (c :: sp) => [js "--append-system-prompt"; c :: sp]
        | _ => []
        end
     ++ [js "-"]).

(** The stdin of the Claude CLI: one stream-json user message when there
    are images, the prompt otherwise. *)
Definition claude_stdin (o : RunOptions) : Stdin :=
  match images o with
  | Some ((_ :: _) as imgs) =>
      let image (img : Protocol.PromptImage) :=
        JObj [(js "type", JStr (js "image"));
              (js "source",
               JObj [(js "type", JStr (js "base64"));
                     (js "media_type", JStr (Protocol.media_type img));
                     (js "data", JStr (Protocol.data img))])] in
      StdinJsonLine
        (JObj [(js "type", JStr (js "user"));
               (js "message",
                JObj [(js "role", JStr (js "user"));
                      (js "content",
                       JArr (List.map image imgs
                             ++ [JObj [(js "type", JStr (js "text"));
                                       (js "text", JStr (prompt o))]]))])])
  | _ => StdinText (prompt o)
  end.

Definition claude_spawnProcess (p : ClaudeProvider) (e : SysEnv) (o : RunOptions)
    : ClaudeProvider * list Effect * SpawnStatus :=
  let spawn_with (cwd : option jsstring) (before : list Effect) :=
    let env :=
      match thinkingTokens o with
      | Some n => [(js "MAX_THINKING_TOKENS", number_to_string n)]
      | None => []
      end ++ allowed_env CLAUDE_ENV_KEYS e in
    match spawn_throws e with
    | Some thrown =>
        (p, before ++ [Call (onError (JStr (default (js "Failed to start Claude") thrown))
                               (requestId o))], NoProcess)
    | None =>
        (p, before ++ [Sys (Spawn {| command := claudePath p; args := claude_args p o;
                                     cwd := cwd; env := env;
                                     stdin := if child_has_stdin e
                                              then Some (claude_stdin o) else None |})],
         Spawned)
    end in
  match projectId o with
  | Some ((_ :: _) as pid) =>
      let base := session_base e (claude_sessionDir p) in
      let cwd := project_cwd e (claude_sessionDir p) pid in
      if escapes_base base cwd then
        (p, [Call (onError (JStr (js "Invalid projectId")) (requestId o))], NoProcess)
      else if mkdir_throws e cwd then (p, [Sys (Mkdir cwd)], Threw)
      else spawn_with (Some cwd) [Sys (Mkdir cwd)]
  | _ => spawn_with None []
  end.

(** The chunk of a [content_block_delta] event, from its [delta]. *)
Definition delta_chunks (delta : option JSON) (rid : jsstring) : list HandlerCall :=
  if is_text (field_opt delta "type") "text_delta" && truthy_opt (field_opt delta "text")
  then match field_opt delta "text" with
       | Some text => [onChunk text rid false]
       | None => []
       end
  else if is_text (field_opt delta "type") "thinking_delta"
          && truthy_opt (field_opt delta "thinking")
  then match field_opt delta "thinking" with
       | Some text => [onChunk text rid true]
       | None => []
       end
  else [].

(** The blocks of an assembled assistant message; reading a [null] block
    raises, which ends the loop. *)
Fixpoint block_chunks (blocks : list JSON) (rid : jsstring) : list HandlerCall :=
  match blocks with
  | [] => []
  | JNull :: _ => []
  | block :: rest =>
      (if is_text (field block "type") "text" && truthy_opt (field block "text")
       then match field block "text" with
            | Some text => [onChunk text rid false]
            | None => []
            end
       else if is_text (field block "type") "thinking" && truthy_opt (field block "thinking")
       then match field block "thinking" with
            | Some text => [onChunk text rid true]
            | None => []
            end
       else [])
      ++ block_chunks rest rid
  end.

Definition claude_parseStreamLine (line rid : jsstring) : list HandlerCall :=
  if blank line then []
  else
    match JSON_parse line with
    | None | Some JNull => []                (* caught: not JSON, or [null.type] *)
    | Some event =>
        if is_text (field event "type") "content_block_delta" then
          delta_chunks (field event "delta") rid
        else if is_text (field event "type") "stream_event"
                && truthy_opt (field event "event") then
          let inner := field event "event" in
          if is_text (field_opt inner "type") "content_block_delta"
          then delta_chunks (field_opt inner "delta") rid
          else []
        else if is_text (field event "type") "assistant" then
          match field_opt (field event "message") "content" with
          | Some (JArr blocks) => block_chunks blocks rid
          | _ => []
          end
        else []
    end.

#[export] Instance ClaudeProvider_cli : CliProvider ClaudeProvider SysEnv := {
  spawnProcess := claude_spawnProcess;
  parseStreamLine p line rid := (p, claude_parseStreamLine line rid);
  onProcessExit p _ := (p, [])
}.

(** *** src/process/codex-provider.ts *)

Record CodexProvider := {
  codexPath : jsstring;
  codex_sessionDir : jsstring;
  threadId : option JSON;
  currentImagePaths : list jsstring
}.

Definition set_threadId (t : option JSON) (p : CodexProvider) : CodexProvider :=
  {| codexPath := codexPath p; codex_sessionDir := codex_sessionDir p;
     threadId := t; currentImagePaths := currentImagePaths p |}.
Definition set_currentImagePaths (l : list jsstring) (p : CodexProvider) : CodexProvider :=
  {| codexPath := codexPath p; codex_sessionDir := codex_sessionDir p;
     threadId := threadId p; currentImagePaths := l |}.

Definition CODEX_ENV_KEYS : list jsstring :=
  [js "PATH"; js "HOME"; js "USER"; js "SHELL"; js "TERM"; js "LANG"; js "LC_ALL";
   js "OPENAI_API_KEY"; js "NODE_PATH"; js "XDG_CONFIG_HOME"].

Definition is_alnum (c : N) : bool :=
  (((0x61 <=? c) && (c <=? 0x7A)) || ((0x41 <=? c) && (c <=? 0x5A)) ||
   ((0x30 <=? c) && (c <=? 0x39)))%N.

(** [requestId.replace(/[^a-zA-Z0-9_-]/g, "_").slice(0, 64)] *)
Definition safeId (rid : jsstring) : jsstring :=
  take 64 (List.map (fun c => if is_alnum c || (c =? 0x5F)%N || (c =? 0x2D)%N
                              then c else 0x5F%N) rid).

(** The extension of an image file, from its media type. *)
Definition image_ext (media_type : jsstring) : jsstring :=
  let rawExt :=
    match split_char slash media_type with
    | _ :: (c :: sub) :: _ => c :: sub
    | _ => js "png"
    end in
  match take 10 (List.filter is_alnum rawExt) with
  | [] => js "png"
  | ext => ext
  end.

Definition image_path (imgDir rid : jsstring) (i : nat) (img : Protocol.PromptImage)
    : jsstring :=
  path_join [imgDir; safeId rid ++ js "-" ++ dec_of_N (N.of_nat i) ++ js "."
                     ++ image_ext (Protocol.media_type img)].

(** The loop writing the images: a [writeFileSync] that raises ends it. *)
Fixpoint write_images (e : SysEnv) (imgDir rid : jsstring) (i : nat)
    (imgs : list Protocol.PromptImage) (paths : list jsstring)
    : list jsstring * list Effect * bool :=
  match imgs with
  | [] => (paths, [], false)
  | img :: rest =>
      let path := image_path imgDir rid i img in
      if write_throws e path then (paths, [Sys (WriteFile path (Protocol.data img))], true)
      else
        let '(paths', out, threw) := write_images e imgDir rid (Datatypes.S i) rest (paths ++ [path]) in
        (paths', Sys (WriteFile path (Protocol.data img)) :: out, threw)
  end.

(** [private cleanupImages()] *)
Definition cleanupImages (p : CodexProvider) : CodexProvider * list SysEffect :=
  (set_currentImagePaths [] p, List.map Unlink (currentImagePaths p)).

(** The images of a request go to temporary files for the [-i] flag; the
    last component says whether a file-system call raised. *)
Definition codex_write_images (p : CodexProvider) (e : SysEnv) (o : RunOptions)
    : CodexProvider * list Effect * bool :=
  let p := set_currentImagePaths [] p in
  match images o with
  | Some ((_ :: _) as imgs) =>
      let imgDir := path_resolve (process_cwd e) [tmpdir e; js "bridge-ws-images"] in
      if mkdir_throws e imgDir then (p, [Sys (Mkdir imgDir)], true)
      else
        let '(paths, out, threw) := write_images e imgDir (requestId o) 0 imgs [] in
        (set_currentImagePaths paths p, Sys (Mkdir imgDir) :: out, threw)
  | _ => (p, [], false)
  end.

Definition codex_spawnProcess (p : CodexProvider) (e : SysEnv) (o : RunOptions)
    : CodexProvider * list Effect * SpawnStatus :=
  let fullPrompt :=
    match systemPrompt o with
    | Some ((_ :: _) as sp) => sp ++ [0x0A; 0x0A]%N ++ js "---" ++ [0x0A; 0x0A]%N ++ prompt o
    | _ => prompt o
    end in
  let '(p, out_images, threw) := codex_write_images p e o in
  if threw then (p, out_images, Threw)
  else
    let resuming := present (projectId o) && truthy_opt (threadId p) in
    let args :=
      (if resuming
       then [JStr (js "exec"); JStr (js "resume"); default JNull (threadId p);
             JStr (js "--json"); JStr (js "--full-auto"); JStr (js "--skip-git-repo-check")]
       else [JStr (js "exec"); JStr (js "--json"); JStr (js "--full-auto");
             JStr (js "--skip-git-repo-check")])
      ++ match model o with
         | Some (c :: m) => if resuming then [] else [JStr (js "--model"); JStr (c :: m)]
         | _ => []
         end
      ++ flat_map (fun path => [JStr (js "-i"); JStr path]) (currentImagePaths p)
      ++ [JStr (js "-")] in
    let spawn_with (cwd : option jsstring) (before : list Effect) :=
      match spawn_throws e with
      | Some thrown =>
          let '(p, unlinks) := cleanupImages p in
          (p, before ++ List.map Sys unlinks
                ++ [Call (onError (JStr (default (js "Failed to start Codex") thrown))
                            (requestId o))], NoProcess)
      | None =>
          (p, before ++ [Sys (Spawn {| command := codexPath p; args := args; cwd := cwd;
                                       env := allowed_env CODEX_ENV_KEYS e;
                                       stdin := if child_has_stdin e
                                                then Some (StdinText fullPrompt)
                                                else None |})],
           Spawned)
      end in
    match projectId o with
    | Some ((_ :: _) as pid) =>
        let base := session_base e (codex_sessionDir p) in
        let cwd := project_cwd e (codex_sessionDir p) pid in
        if escapes_base base cwd then
          let '(p, unlinks) := cleanupImages p in
          (p, out_images ++ List.map Sys unlinks
                ++ [Call (onError (JStr (js "Invalid projectId")) (requestId o))], NoProcess)
        else if mkdir_throws e cwd then (p, out_images ++ [Sys (Mkdir cwd)], Threw)
        else spawn_with (Some cwd) (out_images ++ [Sys (Mkdir cwd)])
    | _ => spawn_with None out_images
    end.

Definition codex_parseStreamLine (p : CodexProvider) (line rid : jsstring)
    : CodexProvider * list HandlerCall :=
  if blank line then (p, [])
  else
    match JSON_parse line with
    | None | Some JNull => (p, [])
    | Some event =>
        let type := field event "type" in
        let item := field event "item" in
        if is_text type "thread.started" && truthy_opt (field event "thread_id") then
          (set_threadId (field event "thread_id") p, [])
        else if is_text type "item.completed" && is_text (field_opt item "type") "agent_message"
                && truthy_opt (field_opt item "text") then
          (p, match field_opt item "text" with
              | Some text => [onChunk text rid false]
              | None => []
              end)
        else if is_text type "item.completed" && is_text (field_opt item "type") "reasoning"
                && truthy_opt (field_opt item "text") then
          (p, match field_opt item "text" with
              | Some text => [onChunk text rid true]
              | None => []
              end)
        else if is_text type "turn.failed" then
          let msg := or_else (or_else (field_opt (field event "error") "message")
                                      (field event "message"))
                             (Some (JStr (js "Codex turn failed"))) in
          (p, [onError (default JNull msg) rid])
        else if is_text type "error" then
          let msg := or_else (or_else (field event "message")
                                      (field_opt (field event "error") "message"))
                             (Some (JStr (js "Codex error"))) in
          (p, [onError (default JNull msg) rid])
        else (p, [])
    end.

#[export] Instance CodexProvider_cli : CliProvider CodexProvider SysEnv := {
  spawnProcess := codex_spawnProcess;
  parseStreamLine := codex_parseStreamLine;
  onProcessExit p _ := cleanupImages p
}.

End Providers.

(** The children a [spawnProcess] started. *)
Definition spawns (out : list Effect) : list SpawnInfo :=
  omap (fun e => match e with Sys (Spawn info) => Some info | _ => None end) out.

(** The names along a path, from the root. *)
Definition path_names (path : jsstring) : list jsstring :=
  List.filter (fun seg => negb (jseqb seg [])) (path_segments path).

(** [cwd] is [base] or lies below it. *)
Definition within_base (base cwd : jsstring) : Prop :=
  path_names base `prefix_of` path_names cwd.

(** [cwd] lies below [base] and is not [base] itself. *)
Definition strictly_within_base (base cwd : jsstring) : Prop :=
  within_base base cwd /\ path_names cwd <> path_names base.

(** A project id the protocol validator lets through. *)
Definition accepted_projectId (pid : jsstring) : bool :=
  (jslength pid <=? Protocol.MAX_PROJECT_ID_LENGTH)%N && Protocol.PROJECT_ID_PATTERN pid.

(** The operating system of the examples. *)
Definition example_env : SysEnv :=
  {| tmpdir := js "/tmp"; process_cwd := js "/home/user";
     process_env := [(js "PATH", js "/usr/bin")];
     mkdir_throws := fun _ => false; write_throws := fun _ => false;
     spawn_throws := None; child_has_stdin := true |}.

Definition example_claude : ClaudeProvider :=
  {| claudePath := js "claude"; claude_sessionDir := js "bridge-ws-sessions";
     maxTurns := None; tools := None |}.

Definition example_codex : CodexProvider :=
  {| codexPath := js "codex"; codex_sessionDir := js "bridge-ws-sessions";
     threadId := None; currentImagePaths := [] |}.

(** [String(n)] where it is easy: a natural number written without
    fraction or exponent. *)
Definition example_number_to_string (n : JNumber) : jsstring := dec_of_N (num_mant n).

(** [{ prompt, requestId, projectId }] *)
Definition project_options (prompt requestId projectId : jsstring) : RunOptions :=
  {| prompt := prompt; model := None; systemPrompt := None; projectId := Some projectId;
     requestId := requestId; thinkingTokens := None; images := None |}.

(** [{ prompt, requestId }], as the tests pass it to [run]. *)
Definition simple_options (prompt requestId : jsstring) : RunOptions :=
  {| prompt := prompt; model := None; systemPrompt := None; projectId := None;
     requestId := requestId; thinkingTokens := None; images := None |}.

(** [new TestProvider(log, 5000)] *)
Definition test_runner : Runner TestProvider :=
  new {| spawnCalled := false; failSpawn := false |}.

End Cli.

(* ===================================================================== *)
(** * The HTTP streaming runner: src/process/ollama-provider.ts           *)
(* ===================================================================== *)

Module Ollama.
Import JS.
Import Cli (RunOptions, HandlerCall, onChunk, onComplete, onError).

Definition DEFAULT_BASE_URL : jsstring := js "http://localhost:11434".
Definition DEFAULT_MODEL : jsstring := js "llama3.2".

(** What the runner does to the world. *)
Inductive Effect :=
| Call (c : HandlerCall)
| Fetch (k : nat) (url : jsstring) (body : JSON)   (* [fetch(url, {method: "POST", body, signal})] *)
| Abort (k : nat).                                 (* [abortController.abort()] *)

(** Where the promise chain of one [run] stands. *)
Inductive Phase :=
| AwaitFetch                       (* [await fetch(...)] *)
| AwaitText (status : N)           (* [await response.text()] of an error response *)
| Reading (buffer : jsstring)      (* [await reader.read()], with the partial line *)
| Settled.                         (* [finally] has run *)

(** One [run]: its options, its abort signal, its timer and its phase.  The
    [k]-th [run] of a runner that was not disposed is request [k]. *)
Record Request := {
  options : RunOptions;
  aborted : bool;                  (* [signal.aborted] *)
  timer : bool;                    (* [timeoutHandle] is still to fire *)
  phase : Phase
}.

Record OllamaProvider := {
  baseUrl : jsstring;
  abortController : option nat;    (* the request whose controller it holds *)
  disposed : bool;
  requests : list Request
}.

(** [/\/$/] removed: one trailing slash *)
Definition strip_trailing_slash (url : jsstring) : jsstring :=
  match last url with
  | Some c => if (c =? slash)%N then take (length url - 1) url else url
  | None => url
  end.

(** [new OllamaProvider({ baseUrl, ... })] *)
Definition new (url : option jsstring) : OllamaProvider :=
  {| baseUrl := strip_trailing_slash (default DEFAULT_BASE_URL url);
     abortController := None; disposed := false; requests := [] |}.

Definition set_abortController (c : option nat) (p : OllamaProvider) : OllamaProvider :=
  {| baseUrl := baseUrl p; abortController := c; disposed := disposed p;
     requests := requests p |}.
Definition set_disposed (b : bool) (p : OllamaProvider) : OllamaProvider :=
  {| baseUrl := baseUrl p; abortController := abortController p; disposed := b;
     requests := requests p |}.
Definition set_requests (l : list Request) (p : OllamaProvider) : OllamaProvider :=
  {| baseUrl := baseUrl p; abortController := abortController p; disposed := disposed p;
     requests := l |}.

Definition set_aborted (b : bool) (q : Request) : Request :=
  {| options := options q; aborted := b; timer := timer q; phase := phase q |}.
Definition set_timer (b : bool) (q : Request) : Request :=
  {| options := options q; aborted := aborted q; timer := b; phase := phase q |}.
Definition set_phase (ph : Phase) (q : Request) : Request :=
  {| options := options q; aborted := aborted q; timer := timer q; phase := ph |}.

(** A change to request [k]. *)
Definition update (k : nat) (f : Request -> Request) (p : OllamaProvider) : OllamaProvider :=
  set_requests (alter f k (requests p)) p.

(** [kill()] *)
Definition kill (p : OllamaProvider) : OllamaProvider * list Effect :=
  match abortController p with
  | Some k => (set_abortController None (update k (set_aborted true) p), [Abort k])
  | None => (p, [])
  end.

(** [dispose()] *)
Definition dispose (p : OllamaProvider) : OllamaProvider * list Effect :=
  kill (set_disposed true p).

(** The body of the POST. *)
Definition request_body (o : RunOptions) : JSON :=
  JObj ([(js "model", JStr (default DEFAULT_MODEL (Cli.model o)));
         (js "prompt", JStr (Cli.prompt o));
         (js "stream", JBool true)]
        ++ match Cli.systemPrompt o with
           | Some ((_ :: _) as sp) => [(js "system", JStr sp)]
           | _ => []
           end).

(** [run(options, handlers)], up to the first [await] *)
Definition run (o : RunOptions) (p : OllamaProvider) : OllamaProvider * list Effect :=
  if disposed p then
    (p, [Call (onError (JStr (js "Runner has been disposed")) (Cli.requestId o))])
  else
    let '(p, out_kill) := kill p in
    let k := length (requests p) in
    let p := set_abortController (Some k) p in
    let p := set_requests
               (requests p ++ [{| options := o; aborted := false; timer := true;
                                  phase := AwaitFetch |}]) p in
    (p, out_kill ++ [Fetch k (baseUrl p ++ js "/api/generate") (request_body o)]).

(** [.finally(...)]: the timer is cleared, the controller forgotten. *)
Definition settle (k : nat) (p : OllamaProvider) : OllamaProvider :=
  set_abortController None (update k (fun q => set_phase Settled (set_timer false q)) p).

(** [fetchStream] returned: nothing more is said. *)
Definition resolved (k : nat) (p : OllamaProvider) : OllamaProvider * list Effect :=
  (settle k p, []).

(** [.catch(err)]: an error of a request that was killed is suppressed.
    [thrown] is the message of an [Error], or [None] for another value. *)
Definition rejected (k : nat) (q : Request) (thrown : option jsstring) (p : OllamaProvider)
    : OllamaProvider * list Effect :=
  if aborted q then (settle k p, [])
  else (settle k p,
        [Call (onError (JStr (default (js "Ollama request failed") thrown))
                 (Cli.requestId (options q)))]).

(** [response.ok] *)
Definition ok (status : N) : bool := ((200 <=? status) && (status <=? 299))%N.

(** What one line of the stream asks for. *)
Inductive LineResult :=
| Continue (out : list HandlerCall)      (* go on with the next line *)
| Return (out : list HandlerCall).       (* [finish(...); return] *)

(** The body of [for (const line of lines)]. *)
Definition process_line (line rid : jsstring) : LineResult :=
  if blank line then Continue []
  else
    match JSON_parse line with
    | None | Some JNull => Continue []        (* caught: not JSON, or [null.error] *)
    | Some event =>
        let chunk :=
          match jprop event (js "response") with
          | Some text => if truthy text then [onChunk text rid false] else []
          | None => []
          end in
        let after :=
          if Cli.truthy_opt (jprop event (js "done"))
          then Return (chunk ++ [onComplete rid]) else Continue chunk in
        match jprop event (js "error") with
        | Some err => if truthy err then Return [onError err rid] else after
        | None => after
        end
    end.

Fixpoint process_lines (lines : list jsstring) (rid : jsstring) : LineResult :=
  match lines with
  | [] => Continue []
  | line :: rest =>
      match process_line line rid with
      | Return out => Return out
      | Continue out =>
          match process_lines rest rid with
          | Return out' => Return (out ++ out')
          | Continue out' => Continue (out ++ out')
          end
      end
  end.

(** [lines.pop() ?? ""] and what is left of [lines]. *)
Definition complete_lines (text : jsstring) : list jsstring :=
  removelast (split_char 0x0A text).
Definition partial_line (text : jsstring) : jsstring :=
  default [] (last (split_char 0x0A text)).

(** What the promise chain of request [k] is waiting for. *)
Inductive Response :=
| FetchRejected (thrown : option jsstring)      (* [fetch] rejects *)
| FetchResponded (status : N) (has_body : bool) (* [fetch] resolves *)
| TextSettled (text : option jsstring)          (* [response.text()] resolves, or rejects *)
| ReadChunk (value : jsstring)                  (* [read()] gives [{done: false, value}] *)
| ReadDone                                      (* [read()] gives [{done: true}] *)
| ReadRejected (thrown : option jsstring).      (* [read()] rejects *)

(** [fetchStream] and the [.catch] and [.finally] of [run], from one
    [await] to the next. *)
Definition on_response (k : nat) (resp : Response) (p : OllamaProvider)
    : OllamaProvider * list Effect :=
  match requests p !! k with
  | None => (p, [])
  | Some q =>
      let rid := Cli.requestId (options q) in
      match phase q, resp with
      | AwaitFetch, FetchRejected thrown =>
          if aborted q then resolved k p
          else
            let message :=
              match thrown with
              | Some m =>
                  if includes m (js "ECONNREFUSED")
                  then js "Ollama server not reachable at " ++ baseUrl p
                       ++ js ". Is Ollama running?"
                  else m
              | None => js "Failed to connect to Ollama"
              end in
            rejected k q (Some message) p
      | AwaitFetch, FetchResponded status has_body =>
          if negb (ok status) then (update k (set_phase (AwaitText status)) p, [])
          else if negb has_body then rejected k q (Some (js "Ollama response has no body")) p
          else (update k (set_phase (Reading [])) p, [])
      | AwaitText status, TextSettled text =>
          rejected k q
            (Some (js "Ollama returned HTTP " ++ dec_of_N status ++ js ": "
                   ++ slice0 200 (default [] text))) p
      | Reading buffer, ReadChunk value =>
          if aborted q then resolved k p
          else
            let buffer := buffer ++ value in
            match process_lines (complete_lines buffer) rid with
            | Return out => (settle k p, List.map Call out)
            | Continue out =>
                (update k (set_phase (Reading (partial_line buffer))) p, List.map Call out)
            end
      | Reading _, ReadDone =>
          if aborted q then resolved k p
          else (settle k p, [Call (onComplete rid)])
      | Reading _, ReadRejected thrown => rejected k q thrown p
      | _, _ => (p, [])
      end
  end.

(** The [setTimeout] callback of request [k]. *)
Definition on_timeout (k : nat) (p : OllamaProvider) : OllamaProvider * list Effect :=
  match requests p !! k with
  | Some q =>
      if timer q then
        let p := update k (set_timer false) p in
        let '(p, out_kill) := kill p in
        (p, out_kill ++ [Call (onError (JStr (js "Request timed out"))
                                 (Cli.requestId (options q)))])
      else (p, [])
  | None => (p, [])
  end.

Inductive Event :=
| Run (o : RunOptions)
| Kill
| Dispose
| Respond (k : nat) (resp : Response)
| TimerFire (k : nat).

Definition step (p : OllamaProvider) (ev : Event) : OllamaProvider * list Effect :=
  match ev with
  | Run o => run o p
  | Kill => kill p
  | Dispose => dispose p
  | Respond k resp => on_response k resp p
  | TimerFire k => on_timeout k p
  end.

Fixpoint steps (p : OllamaProvider) (evs : list Event) : OllamaProvider * list Effect :=
  match evs with
  | [] => (p, [])
  | ev :: evs' =>
      let '(p1, out) := step p ev in
      let '(p2, out') := steps p1 evs' in
      (p2, out ++ out')
  end.

Definition calls (out : list Effect) : list HandlerCall :=
  omap (fun e => match e with Call c => Some c | _ => None end) out.

(** ** The stream, as the specification words it

    The complete lines of the whole response body, in order, up to the
    first line that ends the request; then the end of the stream. *)
Fixpoint spec_lines (lines : list jsstring) (rid : jsstring) : list HandlerCall * bool :=
  match lines with
  | [] => ([], false)
  | line :: rest =>
      match process_line line rid with
      | Return out => (out, true)
      | Continue out =>
          let '(out', stopped) := spec_lines rest rid in (out ++ out', stopped)
      end
  end.

Definition spec_stream (body rid : jsstring) : list HandlerCall :=
  let '(out, stopped) := spec_lines (complete_lines body) rid in
  if stopped then out else out ++ [onComplete rid].

(** The reads of a body delivered in the given pieces, then its end. *)
Definition reads (k : nat) (pieces : list jsstring) : list Event :=
  List.map (fun v => Respond k (ReadChunk v)) pieces ++ [Respond k ReadDone].

(** The pieces of a body that arrives line by line, as the
    [mockOllamaResponse] of the tests enqueues them. *)
Definition mockOllamaResponse (lines : list jsstring) : list jsstring :=
  List.map (fun line => line ++ [0x0A%N]) lines.

(** A request that has just received a 200 response with a body. *)
Definition streaming (requestId : jsstring) : OllamaProvider :=
  fst (steps (new None)
         [Run (Cli.simple_options (js "hi") requestId);
          Respond 0 (FetchResponded 200 true)]).

(** A request whose [fetch] is pending. *)
Definition fetching (requestId : jsstring) : OllamaProvider :=
  fst (run (Cli.simple_options (js "hi") requestId) (new None)).

End Ollama.

(* ===================================================================== *)
(** * The request multiplexer: src/server/websocket.ts                    *)
(* ===================================================================== *)

Module Server.
Import JS.
Import Cli (RunOptions, HandlerCall, onChunk, onComplete, onError).

(** [AgentMessage]; a chunk carries [thinking] only when it is true. *)
Inductive AgentMessage :=
| ConnectedMessage (version agent : jsstring)
| ChunkMessage (content : JSON) (requestId : jsstring) (thinking : bool)
| CompleteMessage (requestId : jsstring)
| ErrorMessage (message : JSON) (requestId : option jsstring).

(** The three runner slots of a connection. *)
Inductive Provider := Claude | Codex | Ollama.

#[export] Instance Provider_eq_dec : EqDecision Provider.
Proof. solve_decision. Defined.

(** A runner is an object: requests hold references to it. *)
Definition RunnerRef : Type := nat.

Record ActiveRequest := { runner : RunnerRef }.

Record ConnectionState := {
  requests : gmap jsstring ActiveRequest;
  claudeRunner : option RunnerRef;
  codexRunner : option RunnerRef;
  ollamaRunner : option RunnerRef;
  isAlive : bool
}.

(** A connection: its state, whether its socket is [OPEN], and how many
    runners the server has created so far. *)
Record Connection := {
  state : ConnectionState;
  open : bool;
  created : nat
}.

(** What the server does, in order. *)
Inductive Effect :=
| WsSend (m : AgentMessage)                     (* [ws.send(serializeMessage(m))] *)
| Dropped (m : AgentMessage)                    (* the socket is not open: logged *)
| RequestsSet (id : jsstring) (r : RunnerRef)   (* [state.requests.set(id, {runner})] *)
| RequestsDelete (id : jsstring)                (* [state.requests.delete(id)] *)
| CreateRunner (p : Provider) (r : RunnerRef)   (* [this.create...Runner()] *)
| RunnerRun (p : Provider) (r : RunnerRef) (o : RunOptions)   (* [runner.run(o, handlers)] *)
| RunnerKill (r : RunnerRef)                    (* [runner.kill()] *)
| RunnerDispose (r : RunnerRef).                (* [runner.dispose()] *)

Definition set_state (s : ConnectionState) (c : Connection) : Connection :=
  {| state := s; open := open c; created := created c |}.
Definition set_requests (m : gmap jsstring ActiveRequest) (s : ConnectionState)
    : ConnectionState :=
  {| requests := m; claudeRunner := claudeRunner s; codexRunner := codexRunner s;
     ollamaRunner := ollamaRunner s; isAlive := isAlive s |}.

(** The slot of a provider. *)
Definition slot (p : Provider) (s : ConnectionState) : option RunnerRef :=
  match p with
  | Claude => claudeRunner s
  | Codex => codexRunner s
  | Ollama => ollamaRunner s
  end.

Definition set_slot (p : Provider) (r : RunnerRef) (s : ConnectionState) : ConnectionState :=
  match p with
  | Claude =>
      {| requests := requests s; claudeRunner := Some r; codexRunner := codexRunner s;
         ollamaRunner := ollamaRunner s; isAlive := isAlive s |}
  | Codex =>
      {| requests := requests s; claudeRunner := claudeRunner s; codexRunner := Some r;
         ollamaRunner := ollamaRunner s; isAlive := isAlive s |}
  | Ollama =>
      {| requests := requests s; claudeRunner := claudeRunner s;
         codexRunner := codexRunner s; ollamaRunner := Some r; isAlive := isAlive s |}
  end.

Section Server.
(** The runner factories: the runner the server obtains for a provider when
    it has already created [n] runners.  The built-in constructors give a new
    object each time; the factories of the options need not. *)
Variable factory : Provider -> nat -> RunnerRef.

(** The state of a connection that has just been admitted. *)
Definition connected : Connection :=
  {| state := {| requests := ∅; claudeRunner := None; codexRunner := None;
                 ollamaRunner := None; isAlive := true |};
     open := true; created := 0 |}.

(** [private sendMessage(ws, message)] *)
Definition sendMessage (c : Connection) (m : AgentMessage) : list Effect :=
  if open c then [WsSend m] else [Dropped m].

(** [message.provider === "codex"], [=== "ollama"], else Claude *)
Definition provider_slot (provider : jsstring) : Provider :=
  if jseqb provider (js "codex") then Codex
  else if jseqb provider (js "ollama") then Ollama
  else Claude.

Definition run_options (m : Protocol.PromptMessage) : RunOptions :=
  {| Cli.prompt := Protocol.prompt m;
     Cli.model := Protocol.model m;
     Cli.systemPrompt := Protocol.systemPrompt m;
     Cli.projectId := Protocol.projectId m;
     Cli.requestId := Protocol.requestId m;
     Cli.thinkingTokens := Protocol.thinkingTokens m;
     Cli.images := Protocol.images m |}.

(** [private handlePrompt(ws, state, message)].  [runner.run] is its last
    statement and [RunnerRun] stands for that call; what the runner does
    with the handlers it is given, inside the call or later, is not part of
    the result: each handler call is a [Callback] event of its own. *)
Definition handlePrompt (m : Protocol.PromptMessage) (c : Connection)
    : Connection * list Effect :=
  let requestId := Protocol.requestId m in
  match requests (state c) !! requestId with
  | Some _ =>
      (c, sendMessage c
            (ErrorMessage (JStr (js "Request " ++ requestId ++ js " is already in progress"))
               (Some requestId)))
  | None =>
      let p := provider_slot (Protocol.provider m) in
      let '(c, runner, out_create) :=
        match slot p (state c) with
        | Some r => (c, r, [])
        | None =>
            let r := factory p (created c) in
            ({| state := set_slot p r (state c); open := open c;
                created := Datatypes.S (created c) |},
             r, [CreateRunner p r])
        end in
      let c := set_state (set_requests (<[requestId := {| runner := runner |}]>
                                          (requests (state c))) (state c)) c in
      (c, out_create ++ [RequestsSet requestId runner; RunnerRun p runner (run_options m)])
  end.

(** [private handleCancel(ws, state, message)] *)
Definition handleCancel (requestId : jsstring) (c : Connection) : Connection * list Effect :=
  match requests (state c) !! requestId with
  | None =>
      (c, sendMessage c
            (ErrorMessage (JStr (js "No active request with id: " ++ requestId))
               (Some requestId)))
  | Some active =>
      let c' := set_state (set_requests (delete requestId (requests (state c))) (state c)) c in
      (c', [RunnerKill (runner active); RequestsDelete requestId]
           ++ sendMessage c' (ErrorMessage (JStr (js "Request cancelled")) (Some requestId)))
  end.

(** [private handleMessage(ws, state, raw)] *)
Definition handleMessage (raw : jsstring) (c : Connection) : Connection * list Effect :=
  match Protocol.parseClientMessage raw with
  | Protocol.Err error => (c, sendMessage c (ErrorMessage (JStr error) None))
  | Protocol.Ok (Protocol.Prompt m) => handlePrompt m c
  | Protocol.Ok (Protocol.Cancel requestId) => handleCancel requestId c
  end.

(** The [RunHandlers] that [handlePrompt] gives to a runner. *)
Definition handler (call : HandlerCall) (c : Connection) : Connection * list Effect :=
  match call with
  | onChunk content reqId thinking =>
      (c, sendMessage c (ChunkMessage content reqId thinking))
  | onComplete reqId =>
      let c' := set_state (set_requests (delete reqId (requests (state c))) (state c)) c in
      (c', RequestsDelete reqId :: sendMessage c' (CompleteMessage reqId))
  | onError errorMessage reqId =>
      let c' := set_state (set_requests (delete reqId (requests (state c))) (state c)) c in
      (c', RequestsDelete reqId :: sendMessage c' (ErrorMessage errorMessage (Some reqId)))
  end.

(** What happens on a connection: a frame arrives, a runner calls one of
    the handlers it was given (from inside [run], before it returns, or
    later), the socket opens or closes to writes, a pong arrives. *)
Inductive Event :=
| Message (raw : jsstring)
| Callback (call : HandlerCall)
| ReadyState (is_open : bool)
| Pong.

Definition step (c : Connection) (ev : Event) : Connection * list Effect :=
  match ev with
  | Message raw => handleMessage raw c
  | Callback call => handler call c
  | ReadyState b => ({| state := state c; open := b; created := created c |}, [])
  | Pong =>
      (set_state {| requests := requests (state c); claudeRunner := claudeRunner (state c);
                    codexRunner := codexRunner (state c);
                    ollamaRunner := ollamaRunner (state c); isAlive := true |} c, [])
  end.

Fixpoint steps (c : Connection) (evs : list Event) : Connection * list Effect :=
  match evs with
  | [] => (c, [])
  | ev :: evs' =>
      let '(c1, out) := step c ev in
      let '(c2, out') := steps c1 evs' in
      (c2, out ++ out')
  end.

End Server.

(** The runners a trace created for a provider, and those it ran. *)
Definition created_for (p : Provider) (out : list Effect) : list RunnerRef :=
  omap (fun e => match e with
                 | CreateRunner p' r => if decide (p' = p) then Some r else None
                 | _ => None
                 end) out.

Definition ran_for (p : Provider) (out : list Effect) : list RunnerRef :=
  omap (fun e => match e with
                 | RunnerRun p' r _ => if decide (p' = p) then Some r else None
                 | _ => None
                 end) out.

(** What a trace and the slot of a provider have to say of each other: an
    empty slot means no runner was created or run for the provider; a filled
    one holds the only runner created for it, the one every run used. *)
Definition slot_inv (q : Provider) (c : Connection) (trace : list Effect) : Prop :=
  match slot q (state c) with
  | None => created_for q trace = [] /\ ran_for q trace = []
  | Some r => created_for q trace = [r] /\ forall r', r' ∈ ran_for q trace -> r' = r
  end.

(** The calls on runners in a trace. *)
Definition touches_runner (e : Effect) : bool :=
  match e with
  | CreateRunner _ _ | RunnerRun _ _ _ | RunnerKill _ | RunnerDispose _ => true
  | _ => false
  end.

(** Every runner is a new object, as with the built-in constructors. *)
Definition fresh_runners (p : Provider) (n : nat) : RunnerRef := n.

(** A prompt for the Claude runner. *)
Definition simple_prompt (prompt requestId : jsstring) : Protocol.PromptMessage :=
  {| Protocol.prompt := prompt; Protocol.model := None; Protocol.systemPrompt := None;
     Protocol.projectId := None; Protocol.requestId := requestId;
     Protocol.provider := js "claude"; Protocol.thinkingTokens := None;
     Protocol.images := None |}.

End Server.

(* ===================================================================== *)
(** * Traces of subprocess runners                                        *)
(* ===================================================================== *)

Module CliRuns.
Import JS Cli.

(** The request id a handler call carries. *)
Definition call_id (c : HandlerCall) : jsstring :=
  match c with
  | onChunk _ id _ | onComplete id | onError _ id => id
  end.

(** The children that [process.kill()] signalled, among effects. *)
Definition kills (out : list Effect) : list nat :=
  omap (fun e => match e with ChildKill pid => Some pid | _ => None end) out.

Section Runs.
Context {S Env : Type} `{CliProvider S Env}.

Definition kills_of (trace : list (@Event Env * list Effect)) : list nat :=
  flat_map (fun entry => kills (snd entry)) trace.

(** The events of the run that spawned child [pid]: those of its exit,
    error and timeout listeners, and the lines of its standard output. *)
Definition concerns (pid : nat) (ev : @Event Env) : bool :=
  match ev with
  | ChildExit p _ _ | ChildError p _ | ChildLine p _ | TimerFire p => bool_decide (p = pid)
  | _ => false
  end.

Definition is_run (ev : @Event Env) : bool :=
  match ev with
  | Run _ _ => true
  | _ => false
  end.

Definition is_exit (ev : @Event Env) : bool :=
  match ev with
  | ChildExit _ _ _ => true
  | _ => false
  end.

(** The calls a trace made on behalf of the run of child [pid], and the
    final events among them. *)
Definition calls_of (pid : nat) (trace : list (@Event Env * list Effect)) : list HandlerCall :=
  flat_map (fun entry => if concerns pid (fst entry) then calls (snd entry) else []) trace.

Definition final_calls_of (pid : nat) (trace : list (@Event Env * list Effect))
    : list HandlerCall :=
  List.filter is_terminal (calls_of pid trace).

(** What the children signalled so far and the runner have to say of each
    other: no child was signalled twice, every one of them was spawned by
    this runner, and the child [this.process] refers to was spawned by it
    and not signalled yet. *)
Definition signal_inv (r : Runner S) (signalled : list nat) : Prop :=
  NoDup signalled
  /\ (forall q, q ∈ signalled -> q < length (execs r))
  /\ (forall p, process r = Some p -> p < length (execs r) /\ p ∉ signalled).

End Runs.

End CliRuns.

(* ===================================================================== *)
(** * The files and the calls of the providers                            *)
(* ===================================================================== *)

Module ProviderFiles.
Import JS Cli.

(** The name of the temporary file of the [i]-th image of a request:
    [`${safeId}-${i}.${ext}`]. *)
Definition image_name (rid : jsstring) (i : nat) (img : Protocol.PromptImage) : jsstring :=
  safeId rid ++ js "-" ++ dec_of_N (N.of_nat i) ++ js "."
  ++ image_ext (Protocol.media_type img).

(** [resolve(tmpdir(), "bridge-ws-images")] *)
Definition image_dir (e : SysEnv) : jsstring :=
  path_resolve (process_cwd e) [tmpdir e; js "bridge-ws-images"].

(** The files written and the files removed, among effects. *)
Definition written (out : list Effect) : list jsstring :=
  omap (fun e => match e with Sys (WriteFile path _) => Some path | _ => None end) out.

Definition unlinked (out : list Effect) : list jsstring :=
  omap (fun e => match e with Sys (Unlink path) => Some path | _ => None end) out.

(** An event that neither starts a run nor reports the end of a child. *)
Definition keeps_files {Env : Type} (ev : @Event Env) : bool :=
  match ev with
  | Run _ _ | ChildExit _ _ _ | ChildError _ _ => false
  | Kill | Dispose | ChildLine _ _ | TimerFire _ => true
  end.

(** The files removed along a trace. *)
Definition unlinked_of {Env : Type} (trace : list (@Event Env * list Effect))
    : list jsstring :=
  flat_map (fun entry => unlinked (snd entry)) trace.

(** A character other than the separator of paths. *)
Definition no_slash (c : N) : bool := negb (c =? slash)%N.

(** A chunk with something in it, for request [rid]. *)
Definition is_chunk_for (rid : jsstring) (c : HandlerCall) : bool :=
  match c with
  | onChunk content id _ => truthy content && jseqb id rid
  | _ => false
  end.

(** An error with a message, for request [rid]. *)
Definition is_error_for (rid : jsstring) (c : HandlerCall) : bool :=
  match c with
  | onError message id => truthy message && jseqb id rid
  | _ => false
  end.

End ProviderFiles.

(* ===================================================================== *)
(** * Traces of the HTTP streaming runner                                 *)
(* ===================================================================== *)

Module OllamaRuns.
Import JS Ollama.
Import Cli (RunOptions, HandlerCall, onChunk, onComplete, onError).

(** The events in order, each with what it caused. *)
Fixpoint trace (p : OllamaProvider) (evs : list Event)
    : OllamaProvider * list (Event * list Effect) :=
  match evs with
  | [] => (p, [])
  | ev :: evs' =>
      let '(p1, out) := step p ev in
      let '(p2, rest) := trace p1 evs' in
      (p2, (ev, out) :: rest)
  end.

(** An event of the promise chain of request [k]. *)
Definition of_chain (k : nat) (ev : Event) : bool :=
  match ev with
  | Respond j _ => bool_decide (j = k)
  | _ => false
  end.

(** The calls that the promise chain of request [k] made in a trace. *)
Definition chain_calls (k : nat) (tr : list (Event * list Effect)) : list HandlerCall :=
  flat_map (fun entry => if of_chain k (fst entry) then calls (snd entry) else []) tr.

(** Request [k] exists and was aborted; request [k] exists and its promise
    chain is over. *)
Definition is_aborted (k : nat) (p : OllamaProvider) : Prop :=
  exists q, requests p !! k = Some q /\ aborted q = true.

Definition is_settled (k : nat) (p : OllamaProvider) : Prop :=
  exists q, requests p !! k = Some q /\ phase q = Settled.

(** What becomes of a request: once aborted it stays aborted, once settled
    it stays settled, and its options never change. *)
Definition persists (q q' : Request) : Prop :=
  (aborted q = true -> aborted q' = true)
  /\ (phase q = Settled -> phase q' = Settled)
  /\ options q' = options q.

End OllamaRuns.

(* ===================================================================== *)
(** * Connections: admission, traces and teardown                         *)
(* ===================================================================== *)

Module ServerRuns.
Import JS Server.
Import Cli (RunOptions, HandlerCall, onChunk, onComplete, onError).

(** The frames the server tried to write (sent, or dropped because the
    socket was not open), and the runs it started, among effects. *)
Definition frames (out : list Effect) : list AgentMessage :=
  omap (fun e => match e with WsSend m | Dropped m => Some m | _ => None end) out.

Definition runs (out : list Effect) : list RunnerRef :=
  omap (fun e => match e with RunnerRun _ r _ => Some r | _ => None end) out.

Definition sent (out : list Effect) : list AgentMessage :=
  omap (fun e => match e with WsSend m => Some m | _ => None end) out.

(** The runners created and the runners disposed, among effects. *)
Definition created_runners (out : list Effect) : list RunnerRef :=
  omap (fun e => match e with CreateRunner _ r => Some r | _ => None end) out.

Definition disposed_runners (out : list Effect) : list RunnerRef :=
  omap (fun e => match e with RunnerDispose r => Some r | _ => None end) out.

(** The request id an event is about: that of the frame, when it is
    accepted, or that of the handler call. *)
Definition event_id (ev : Event) : option jsstring :=
  match ev with
  | Message raw =>
      match Protocol.parseClientMessage raw with
      | Protocol.Ok (Protocol.Prompt m) => Some (Protocol.requestId m)
      | Protocol.Ok (Protocol.Cancel id) => Some id
      | Protocol.Err _ => None
      end
  | Callback (onChunk _ id _) | Callback (onComplete id) | Callback (onError _ id) => Some id
  | ReadyState _ | Pong => None
  end.

Definition is_pong (ev : Event) : bool :=
  match ev with
  | Pong => true
  | _ => false
  end.

(** Every active request runs on a runner that the connection caches. *)
Definition cached (c : Connection) : Prop :=
  forall id active, requests (state c) !! id = Some active ->
                    exists p, slot p (state c) = Some (runner active).

End ServerRuns.

(** ** One frame, with what [runner.run] does inside the call *)

Module Dispatch.
Import JS Server ServerRuns.
Import Cli (RunOptions, HandlerCall, onChunk, onComplete, onError).


Section Dispatch.
Context {S Env : Type} `{Cli.CliProvider S Env}.
Variable factory : Provider -> nat -> RunnerRef.


End Dispatch.
End Dispatch.

(** ** [handleConnection]: who is let in *)

Module Admission.
Import JS Server.

(** The options of the server that [handleConnection] reads. *)
Record Options := {
  allowedOrigins : option (list jsstring);
  apiKey : option jsstring;
  agentName : option jsstring
}.

(** The headers of the upgrade request that it reads. *)
Record Upgrade := {
  origin : option jsstring;            (* [req.headers.origin] *)
  authorization : option jsstring      (* [req.headers["authorization"]] *)
}.

Inductive Outcome :=
| Closed (code : N) (reason : jsstring)          (* [ws.close(code, reason)] *)
| Accepted (c : Connection) (out : list Effect). (* registered, greeted *)

(** [if (x)] for an optional string *)
Definition given (s : option jsstring) : bool :=
  match s with
  | Some (_ :: _) => true
  | _ => false
  end.

(** The origin check: an allowlist that is not empty refuses an [Origin]
    header that is not in it. *)
Definition origin_refused (o : Options) (req : Upgrade) : bool :=
  match allowedOrigins o with
  | Some ((_ :: _) as allowed) =>
      given (origin req)
      && negb (existsb (jseqb (default [] (origin req))) allowed)
  | _ => false
  end.

(** [auth.startsWith("Bearer ") ? auth.slice(7) : ""] *)
Definition bearer_token (req : Upgrade) : jsstring :=
  let auth := default [] (authorization req) in
  if startsWith auth (js "Bearer ") then drop 7 auth else [].

(** The API key check. *)
Definition key_refused (o : Options) (req : Upgrade) : bool :=
  given (apiKey o) && negb (jseqb (bearer_token req) (default [] (apiKey o))).

(** [private handleConnection(ws, req)], on a socket that is open or not. *)
Definition handleConnection (o : Options) (req : Upgrade) (is_open : bool) : Outcome :=
  if origin_refused o req then Closed 4003 (js "Origin not allowed")
  else if key_refused o req then Closed 4001 (js "Unauthorized")
  else
    let c := {| state := state connected; open := is_open; created := 0 |} in
    Accepted c (sendMessage c (ConnectedMessage (js "2.0")
                                 (default (js "bridge-ws") (agentName o)))).

End Admission.

(** ** The end of a connection: close, heartbeat, stop *)

Module Teardown.
Import JS Server.

(** What the server does to a socket and to its table of connections. *)
Inductive Effect :=
| Core (e : Server.Effect)
| Ping                         (* [ws.ping()] *)
| Terminate                    (* [ws.terminate()] *)
| Forget.                      (* [this.connections.delete(ws)] *)

(** The disposals that end a connection: the runner of every active
    request, in the order [state.requests.values()] gives them, then the
    cached runners of the three providers.  [values] is that enumeration of
    the request map. *)
Definition dispose_all (values : list ActiveRequest) (c : Connection) : list Effect :=
  List.map (fun active => Core (RunnerDispose (runner active))) values
  ++ List.map (fun r => Core (RunnerDispose r))
       (omap (fun p => slot p (state c)) [Claude; Codex; Ollama]).

(** [ws.on("close", ...)] *)
Definition on_close (values : list ActiveRequest) (c : Connection) : list Effect :=
  dispose_all values c ++ [Forget].

(** The connection of [stop()]: disposed, then terminated. *)
Definition stop (values : list ActiveRequest) (c : Connection) : list Effect :=
  dispose_all values c ++ [Terminate].

Definition set_isAlive (b : bool) (c : Connection) : Connection :=
  {| state := {| requests := requests (state c); claudeRunner := claudeRunner (state c);
                 codexRunner := codexRunner (state c);
                 ollamaRunner := ollamaRunner (state c); isAlive := b |};
     open := open c; created := created c |}.

(** One connection in one round of the heartbeat: [None] when the
    connection is gone afterwards.  [ping_throws] says whether [ws.ping()]
    raises. *)
Definition heartbeat (ping_throws : bool) (values : list ActiveRequest) (c : Connection)
    : option Connection * list Effect :=
  if negb (isAlive (state c)) then
    (None, dispose_all values c ++ [Forget; Terminate])
  else
    let c := set_isAlive false c in
    if ping_throws then (None, Ping :: dispose_all values c ++ [Forget; Terminate])
    else (Some c, [Ping]).

(** The runners a teardown disposes. *)
Definition disposals (out : list Effect) : list RunnerRef :=
  omap (fun e => match e with Core (RunnerDispose r) => Some r | _ => None end) out.

(** [values] enumerates the request map. *)
Definition enumerates (values : list ActiveRequest) (c : Connection) : Prop :=
  forall active, active ∈ values <-> exists id, requests (state c) !! id = Some active.

End Teardown.

(* ===================================================================== *)
(** * Start-up: the validation of the command line, src/cli.ts            *)
(* ===================================================================== *)

Module Startup.
Import JS.

(** [s.trim()] *)
Fixpoint trim_start (s : jsstring) : jsstring :=
  match s with
  | c :: rest => if is_js_space c then trim_start rest else s
  | [] => []
  end.

Definition trim (s : jsstring) : jsstring := rev (trim_start (rev (trim_start s))).

Definition is_digit (c : N) : bool := ((0x30 <=? c) && (c <=? 0x39))%N.

(** The value of the decimal digits a string starts with. *)
Fixpoint digits_value (acc : N) (s : jsstring) : N :=
  match s with
  | c :: rest => if is_digit c then digits_value (10 * acc + (c - 0x30)) rest else acc
  | [] => acc
  end.

(** [parseInt(s, 10)]: leading white space is skipped, a sign is read, then
    the longest run of decimal digits; [None] is [NaN], when there is no
    digit.  The result is the mathematical value: JavaScript rounds it to
    the nearest double, which changes neither a value below 2^53 nor the
    outcome of a comparison with a bound that is a double. *)
Definition parseInt10 (s : jsstring) : option Z :=
  let s := trim_start s in
  let '(negative, s) :=
    match s with
    | c :: rest =>
        if (c =? 0x2D)%N then (true, rest)
        else if (c =? 0x2B)%N then (false, rest)
        else (false, s)
    | [] => (false, [])
    end in
  match s with
  | c :: _ =>
      if is_digit c then
        Some (if negative then (- Z.of_N (digits_value 0 s))%Z
              else Z.of_N (digits_value 0 s))
      else None
  | [] => None
  end.

(** The options of the command line, as commander gives them. *)
Record CliOptions := {
  port : jsstring;
  host : jsstring;
  claudePath : jsstring;
  codexPath : jsstring;
  ollamaUrl : jsstring;
  timeout : jsstring;
  logLevel : jsstring;
  origins : option jsstring;
  maxTurns : option jsstring;
  tools : option jsstring
}.

(** The options given to [new AgentWS(...)]. *)
Record AgentWSOptions := {
  agent_port : Z;
  agent_host : jsstring;
  agent_claudePath : jsstring;
  agent_codexPath : jsstring;
  agent_ollamaUrl : jsstring;
  timeoutMs : Z;
  agent_logLevel : jsstring;
  allowedOrigins : option (list jsstring);
  apiKey : option jsstring;
  agent_maxTurns : option Z;
  agent_tools : option jsstring
}.

(** How the action ends before the server starts: [process.exit(1)] after
    the lines written to the error stream, or the construction of the
    agent. *)
Inductive Outcome :=
| Exit (errors : list jsstring)
| Start (options : AgentWSOptions).

Definition en_dash : jsstring := [0x2013%N].

Section Action.
(** [checkCli(path).available]: the CLI answers [--version] *)
Variable cli_available : jsstring -> bool.
(** [new URL(s)] does not raise *)
Variable valid_url : jsstring -> bool.
(** [process.env["BRIDGE_WS_API_KEY"]] *)
Variable env_api_key : option jsstring.

(** [opts.origins?.split(",").map((o) => o.trim()).filter(Boolean)] *)
Definition parse_origins (opts : CliOptions) : option (list jsstring) :=
  match origins opts with
  | Some text =>
      Some (List.filter (fun o => negb (jseqb o []))
              (List.map trim (split_char 0x2C text)))
  | None => None
  end.

(** The first origin that is not a URL. *)
Definition bad_origin (allowed : option (list jsstring)) : option jsstring :=
  match allowed with
  | Some l => List.find (fun o => negb (valid_url o)) l
  | None => None
  end.

(** The action of the program, up to [new AgentWS(...)]. *)
Definition action (opts : CliOptions) : Outcome :=
  if negb (cli_available (claudePath opts)) then
    Exit [js "Claude CLI not found at: " ++ claudePath opts;
          js "Make sure Claude Code is installed and in your PATH.";
          js "Install: npm install -g @anthropic-ai/claude-code";
          js "Or specify path: bridge-ws --claude-path /path/to/claude"]
  else
  match parseInt10 (port opts) with
  | None => Exit [js "Invalid port: " ++ port opts ++ js " (must be 1" ++ en_dash
                  ++ js "65535)"]
  | Some p =>
  if ((p <? 1) || (65535 <? p))%Z then
    Exit [js "Invalid port: " ++ port opts ++ js " (must be 1" ++ en_dash ++ js "65535)"]
  else
  match parseInt10 (timeout opts) with
  | None => Exit [js "Invalid timeout: " ++ timeout opts ++ js " (must be 1" ++ en_dash
                  ++ js "3600 seconds)"]
  | Some seconds =>
  if ((seconds <? 1) || (3600 <? seconds))%Z then
    Exit [js "Invalid timeout: " ++ timeout opts ++ js " (must be 1" ++ en_dash
          ++ js "3600 seconds)"]
  else
  match match maxTurns opts with
        | Some text =>
            match parseInt10 text with
            | Some n => if (n <? 1)%Z then inl text else inr (Some n)
            | None => inl text
            end
        | None => inr None
        end
  with
  | inl text =>
      Exit [js "Invalid --max-turns: " ++ text ++ js " (must be a positive integer)"]
  | inr turns =>
  match bad_origin (parse_origins opts) with
  | Some o =>
      Exit [js "Invalid origin: " ++ Protocol.dquote ++ o ++ Protocol.dquote
            ++ js " (must be a valid URL, e.g. https://example.com)"]
  | None =>
      Start {| agent_port := p; agent_host := host opts;
               agent_claudePath := claudePath opts; agent_codexPath := codexPath opts;
               agent_ollamaUrl := ollamaUrl opts; timeoutMs := seconds * 1000;
               agent_logLevel := logLevel opts;
               allowedOrigins := parse_origins opts;
               apiKey := match env_api_key with
                         | Some (c :: key) => Some (c :: key)
                         | _ => None
                         end;
               agent_maxTurns := turns; agent_tools := tools opts |}
  end end end end.

End Action.

(** The options of a command line without flags. *)
Definition defaults : CliOptions :=
  {| port := js "9999"; host := js "localhost"; claudePath := js "claude";
     codexPath := js "codex"; ollamaUrl := js "http://localhost:11434";
     timeout := js "300"; logLevel := js "info"; origins := None; maxTurns := None;
     tools := None |}.

End Startup.

(* ===================================================================== *)
(** * Properties                                                          *)
(* ===================================================================== *)

Module ProtocolProps.
Import JS Protocol.

Lemma existsb_jseqb (t : jsstring) (l : list jsstring) :
  existsb (jseqb t) l = bool_decide (t ∈ l).
Proof.
  induction l as [|x l IH]; cbn.
  - symmetry. apply bool_decide_eq_false. inversion 1.
  - rewrite IH. unfold jseqb.
    destruct (decide (t = x)) as [->|Hne].
    + rewrite bool_decide_eq_true_2 by reflexivity. cbn.
      symmetry. apply bool_decide_eq_true. left.
    + rewrite (bool_decide_eq_false_2 _ Hne). cbn.
      apply bool_decide_ext. rewrite elem_of_cons. tauto.
Qed.

Lemma ltb_negb_leb (a b : N) : (a <? b)%N = negb (b <=? a)%N.
Proof. apply N.ltb_antisym. Qed.

Lemma parseImages_checks (imgs : list JSON) :
  first_failure (flat_map image_checks imgs) =
  match parseImages imgs with
  | inl e => Some e
  | inr _ => None
  end.
Proof.
  induction imgs as [|img rest IH]; [reflexivity|].
  cbn [parseImages flat_map image_checks app first_failure].
  assert (Hobj : check_image_object img
                 = if negb (is_object_like img) then Some err_image_object else None)
    by (destruct img; reflexivity).
  rewrite Hobj; clear Hobj.
  unfold check_image_fields, check_image_type, check_image_size.
  destruct (negb (is_object_like img)); [reflexivity|].
  destruct (as_string (jprop img (js "media_type"))) as [mt|]; [|reflexivity].
  destruct (as_string (jprop img (js "data"))) as [d|]; [|reflexivity].
  unfold allowed_image_type. rewrite existsb_jseqb, ltb_negb_leb.
  destruct (bool_decide (mt ∈ ALLOWED_IMAGE_TYPES)); cbn [negb]; [|reflexivity].
  change MAX_IMAGE_BASE64_BYTES with (10 * 1024 * 1024)%N.
  destruct (jslength d <=? 10 * 1024 * 1024)%N; cbn [negb]; [|reflexivity].
  rewrite IH. destruct (parseImages rest); reflexivity.
Qed.

Lemma jslength_cons_nonzero (c : N) (s : jsstring) : (jslength (c :: s) =? 0)%N = false.
Proof. unfold jslength. cbn [length]. apply N.eqb_neq. lia. Qed.

Lemma provider_known (p : jsstring) :
  negb (jseqb p (js "claude")) && negb (jseqb p (js "codex")) && negb (jseqb p (js "ollama"))
  = negb (bool_decide (p ∈ [js "claude"; js "codex"; js "ollama"])).
Proof.
  unfold jseqb.
  destruct (bool_decide (p ∈ [js "claude"; js "codex"; js "ollama"])) eqn:E.
  - apply bool_decide_eq_true in E. rewrite !elem_of_cons in E.
    destruct E as [->|[->|[->|E]]]; [reflexivity..|inversion E].
  - apply bool_decide_eq_false in E. rewrite !elem_of_cons in E.
    rewrite !bool_decide_eq_false_2; [reflexivity|tauto..].
Qed.

(** The images stage of [parsePrompt]. *)
Lemma images_stage_checks (obj : list (jsstring * JSON)) :
  first_failure (images_checks obj) =
  match match jlookup (js "images") obj with
        | Some (JArr ((_ :: _) as imgs)) =>
            if (MAX_IMAGES <? N.of_nat (length imgs))%N then inl err_images_count
            else match parseImages imgs with
                 | inl e => inl e
                 | inr parsed => inr (Some parsed)
                 end
        | _ => inr None
        end
  with
  | inl e => Some e
  | inr _ => None
  end.
Proof.
  unfold images_checks, check_images_count.
  destruct (jlookup (js "images") obj) as [[| | | |imgs|]|]; try reflexivity.
  destruct imgs as [|img imgs]; [reflexivity|].
  cbn [first_failure]. rewrite ltb_negb_leb. change MAX_IMAGES with 4%N.
  destruct (N.of_nat (length (img :: imgs)) <=? 4)%N; cbn [negb]; [|reflexivity].
  rewrite parseImages_checks. destruct (parseImages (img :: imgs)); reflexivity.
Qed.

Ltac split_conditions :=
  repeat match goal with
    | |- context [(?a <=? ?b)%N] => destruct (a <=? b)%N
    | |- context [PROJECT_ID_PATTERN ?p] => destruct (PROJECT_ID_PATTERN p)
    | |- context [bool_decide (?p ∈ ?l)] => destruct (bool_decide (p ∈ l))
    end;
  cbn [negb first_failure error_of]; try reflexivity.

Lemma parsePrompt_checks (obj : list (jsstring * JSON)) :
  error_of (parsePrompt obj) = first_failure (prompt_checks obj).
Proof.
  unfold parsePrompt, prompt_checks, check_prompt, check_prompt_size,
    check_requestId, check_system_size, check_project_len,
    check_project_pattern, check_provider.
  cbn [app].
  pose proof (images_stage_checks obj) as Himg.
  destruct (as_string (jlookup (js "prompt") obj)) as [[|c p]|];
    cbn [first_failure error_of]; try reflexivity.
  rewrite jslength_cons_nonzero, ltb_negb_leb.
  change MAX_PROMPT_BYTES with (512 * 1024)%N.
  destruct (utf8_byteLength (c :: p) <=? 512 * 1024)%N;
    cbn [negb first_failure error_of]; [|reflexivity].
  destruct (as_string (jlookup (js "requestId") obj)) as [[|c' rid]|];
    cbn [first_failure error_of]; try reflexivity.
  rewrite jslength_cons_nonzero.
  destruct (as_string (jlookup (js "systemPrompt") obj)) as [sp|];
    destruct (as_string (jlookup (js "projectId") obj)) as [pid|];
    destruct (as_string (jlookup (js "provider") obj)) as [pv|];
    rewrite ?ltb_negb_leb, ?provider_known;
    change MAX_SYSTEM_PROMPT_BYTES with (64 * 1024)%N;
    change MAX_PROJECT_ID_LENGTH with 128%N;
    split_conditions;
    rewrite Himg;
    match goal with
    | |- context [jlookup (js "images") obj] =>
        destruct (jlookup (js "images") obj) as [[| | | |[|img imgs]|]|]; try reflexivity
    end;
    destruct (MAX_IMAGES <? N.of_nat (length (img :: imgs)))%N; try reflexivity;
    destruct (parseImages (img :: imgs)); reflexivity.
Qed.

(** C1, as amended: for every input string, the error [parseClientMessage]
    returns is the first failure in the specification's order of checks -
    [Invalid JSON], then [Message must be a JSON object], then
    [Missing or invalid 'type' field]; for type [prompt]: empty prompt,
    prompt over 512 KiB of UTF-8, empty requestId, systemPrompt over 64 KiB,
    projectId longer than 128 then the pattern, unknown provider string,
    then the images (more than 4, then image by image: object shape, string
    fields, allowed media type, data length over 10 MiB); for type [cancel]
    an empty requestId; for any type other than [prompt] and [cancel],
    [Unknown message type: ] followed by the first 50 characters of the
    type - and the frame is accepted exactly when no check fails. *)
Theorem parseClientMessage_first_failure (raw : jsstring) :
  error_of (parseClientMessage raw) = first_failure (frame_checks raw).
Proof.
  unfold parseClientMessage, frame_checks.
  destruct (JSON_parse raw) as [[| | | | |obj]|]; try reflexivity.
  destruct (as_string (jlookup (js "type") obj)) as [type|]; [|reflexivity].
  unfold jseqb.
  destruct (bool_decide (type = js "prompt")); [apply parsePrompt_checks|].
  destruct (bool_decide (type = js "cancel")); [|reflexivity].
  unfold parseCancel, cancel_checks.
  destruct (as_string (jlookup (js "requestId") obj)) as [[|c rid]|]; reflexivity.
Qed.

(** C1 as stated fails on a [cancel] frame: its type is a string other than
    [prompt], yet the frame is accepted instead of being answered with
    [Unknown message type: cancel]. *)
Lemma parseClientMessage_cancel_is_known :
  JSON_parse (jsq "{'type':'cancel','requestId':'r1'}")
    = Some (JObj [(js "type", JStr (js "cancel")); (js "requestId", JStr (js "r1"))])
  /\ js "cancel" <> js "prompt"
  /\ parseClientMessage (jsq "{'type':'cancel','requestId':'r1'}") = Ok (Cancel (js "r1"))
  /\ parseClientMessage (jsq "{'type':'cancel','requestId':'r1'}")
     <> Err (js "Unknown message type: " ++ take 50 (js "cancel")).
Proof.
  repeat split; try reflexivity; try discriminate.
Qed.

Lemma jlookup_without_field (key k : jsstring) (obj : list (jsstring * JSON)) :
  jlookup k (without_field key obj) = if jseqb k key then None else jlookup k obj.
Proof.
  unfold without_field.
  induction obj as [|[k0 v] obj IH]; cbn [List.filter jlookup fst].
  - destruct (jseqb k key); reflexivity.
  - unfold jseqb in *.
    destruct (decide (k0 = key)) as [->|Hne].
    + rewrite (bool_decide_eq_true_2 (key = key)) by reflexivity. cbn [negb].
      rewrite IH.
      destruct (decide (k = key)) as [->|Hk].
      * rewrite bool_decide_eq_true_2 by reflexivity. reflexivity.
      * rewrite (bool_decide_eq_false_2 (k = key)) by assumption.
        rewrite (bool_decide_eq_false_2 (key = k)) by congruence.
        destruct (jlookup k obj); reflexivity.
    + rewrite (bool_decide_eq_false_2 (k0 = key)) by assumption.
      cbn [negb jlookup]. rewrite IH. unfold jseqb.
      destruct (decide (k = key)) as [->|Hk].
      * rewrite (bool_decide_eq_true_2 (key = key)) by reflexivity.
        rewrite (bool_decide_eq_false_2 (k0 = key)) by assumption. reflexivity.
      * rewrite (bool_decide_eq_false_2 (k = key)) by assumption. reflexivity.
Qed.

(** A prompt frame whose [provider] is not a string is parsed like the
    same frame without that field. *)
Lemma parsePrompt_provider_ignored (obj : list (jsstring * JSON)) :
  as_string (jlookup (js "provider") obj) = None ->
  parsePrompt obj = parsePrompt (without_field (js "provider") obj).
Proof.
  intros Hp. unfold parsePrompt.
  rewrite !jlookup_without_field.
  change (jseqb (js "provider") (js "provider")) with true.
  change (jseqb (js "prompt") (js "provider")) with false.
  change (jseqb (js "requestId") (js "provider")) with false.
  change (jseqb (js "model") (js "provider")) with false.
  change (jseqb (js "systemPrompt") (js "provider")) with false.
  change (jseqb (js "projectId") (js "provider")) with false.
  change (jseqb (js "thinkingTokens") (js "provider")) with false.
  change (jseqb (js "images") (js "provider")) with false.
  cbn iota. rewrite Hp. reflexivity.
Qed.

Lemma parsePrompt_provider (obj : list (jsstring * JSON)) (m : PromptMessage) :
  parsePrompt obj = Ok (Prompt m) ->
  provider m ∈ [js "claude"; js "codex"; js "ollama"]
  /\ match as_string (jlookup (js "provider") obj) with
     | Some p => provider m = p
     | None => provider m = js "claude"
     end.
Proof.
  unfold parsePrompt.
  destruct (as_string (jlookup (js "prompt") obj)) as [p|]; [|discriminate].
  destruct (jslength p =? 0)%N; [discriminate|].
  destruct (MAX_PROMPT_BYTES <? utf8_byteLength p)%N; [discriminate|].
  destruct (as_string (jlookup (js "requestId") obj)) as [rid|]; [|discriminate].
  destruct (jslength rid =? 0)%N; [discriminate|].
  destruct (match as_string (jlookup (js "systemPrompt") obj) with
            | Some sp => _ | None => _ end); [discriminate|].
  destruct (match as_string (jlookup (js "projectId") obj) with
            | Some pid => _ | None => _ end); [discriminate|].
  destruct (as_string (jlookup (js "provider") obj)) as [pv|].
  - rewrite provider_known. unfold jseqb.
    destruct (bool_decide (pv ∈ [js "claude"; js "codex"; js "ollama"])) eqn:E;
      cbn [negb]; [|discriminate].
    apply bool_decide_eq_true in E.
    destruct (match jlookup (js "images") obj with Some _ => _ | None => _ end);
      [discriminate|].
    intros [= <-]. cbn [provider]. 
    rewrite !elem_of_cons in E. destruct E as [->|[->|[->|E]]]; [..|inversion E];
      (split; [|reflexivity]); cbn -[js]; set_solver.
  - destruct (match jlookup (js "images") obj with Some _ => _ | None => _ end);
      [discriminate|].
    intros [= <-]. cbn [provider]. split; [set_solver|reflexivity].
Qed.

(** The lookups of [parsePrompt] on a frame from which [provider], or
    [provider] and [images], were removed. *)
Ltac without_provider_lookups :=
  rewrite !jlookup_without_field;
  change (jseqb (js "provider") (js "provider")) with true;
  change (jseqb (js "prompt") (js "provider")) with false;
  change (jseqb (js "requestId") (js "provider")) with false;
  change (jseqb (js "model") (js "provider")) with false;
  change (jseqb (js "systemPrompt") (js "provider")) with false;
  change (jseqb (js "projectId") (js "provider")) with false;
  change (jseqb (js "thinkingTokens") (js "provider")) with false;
  change (jseqb (js "images") (js "provider")) with false;
  change (jseqb (js "images") (js "images")) with true;
  change (jseqb (js "prompt") (js "images")) with false;
  change (jseqb (js "requestId") (js "images")) with false;
  change (jseqb (js "model") (js "images")) with false;
  change (jseqb (js "systemPrompt") (js "images")) with false;
  change (jseqb (js "projectId") (js "images")) with false;
  change (jseqb (js "thinkingTokens") (js "images")) with false;
  change (jseqb (js "provider") (js "images")) with false;
  cbn iota.

(** A prompt frame whose [provider] is one of the three names is parsed
    like the same frame without that field, and carries that name when it
    is accepted. *)
Lemma parsePrompt_known_provider (obj : list (jsstring * JSON)) (p : jsstring) :
  as_string (jlookup (js "provider") obj) = Some p ->
  p ∈ [js "claude"; js "codex"; js "ollama"] ->
  parsePrompt obj
  = match parsePrompt (without_field (js "provider") obj) with
    | Ok (Prompt m) =>
        Ok (Prompt {| prompt := prompt m; model := model m;
                      systemPrompt := systemPrompt m; projectId := projectId m;
                      requestId := requestId m; provider := p;
                      thinkingTokens := thinkingTokens m; images := images m |})
    | other => other
    end.
Proof.
  intros Hp Hin. unfold parsePrompt. without_provider_lookups. rewrite Hp.
  destruct (as_string (jlookup (js "prompt") obj)) as [pr|]; [|reflexivity].
  destruct (jslength pr =? 0)%N; [reflexivity|].
  destruct (MAX_PROMPT_BYTES <? utf8_byteLength pr)%N; [reflexivity|].
  destruct (as_string (jlookup (js "requestId") obj)) as [rid|]; [|reflexivity].
  destruct (jslength rid =? 0)%N; [reflexivity|].
  destruct (match as_string (jlookup (js "systemPrompt") obj) with
            | Some sp => _ | None => _ end); [reflexivity|].
  destruct (match as_string (jlookup (js "projectId") obj) with
            | Some pid => _ | None => _ end); [reflexivity|].
  cbn [as_string]. rewrite provider_known, bool_decide_eq_true_2 by exact Hin.
  cbn [negb].
  destruct (match jlookup (js "images") obj with Some _ => _ | None => _ end);
    [reflexivity|].
  rewrite !elem_of_cons in Hin. destruct Hin as [->|[->|[->|Hin]]]; [..|inversion Hin];
    reflexivity.
Qed.

(** A prompt frame whose [provider] is a string other than the three names
    is rejected: with the error of the first of the earlier checks that
    fails - those of [prompt], [requestId], [systemPrompt] and [projectId],
    which are all that is left to check in the frame without [provider] and
    [images] - and with the provider's error when they all pass. *)
Lemma parsePrompt_unknown_provider (obj : list (jsstring * JSON)) (p : jsstring) :
  as_string (jlookup (js "provider") obj) = Some p ->
  p ∉ [js "claude"; js "codex"; js "ollama"] ->
  parsePrompt obj
  = match parsePrompt (without_field (js "images") (without_field (js "provider") obj)) with
    | Err e => Err e
    | Ok _ => Err (err_provider p)
    end.
Proof.
  intros Hp Hin. unfold parsePrompt. without_provider_lookups. rewrite Hp.
  destruct (as_string (jlookup (js "prompt") obj)) as [pr|]; [|reflexivity].
  destruct (jslength pr =? 0)%N; [reflexivity|].
  destruct (MAX_PROMPT_BYTES <? utf8_byteLength pr)%N; [reflexivity|].
  destruct (as_string (jlookup (js "requestId") obj)) as [rid|]; [|reflexivity].
  destruct (jslength rid =? 0)%N; [reflexivity|].
  destruct (match as_string (jlookup (js "systemPrompt") obj) with
            | Some sp => _ | None => _ end); [reflexivity|].
  destruct (match as_string (jlookup (js "projectId") obj) with
            | Some pid => _ | None => _ end); [reflexivity|].
  cbn [as_string]. rewrite provider_known, bool_decide_eq_false_2 by exact Hin.
  reflexivity.
Qed.

(** A prompt frame on which every check but the provider's passes: the
    provider alone decides. *)
Lemma provider_decides (obj : list (jsstring * JSON)) :
  first_failure ([check_prompt obj; check_prompt_size obj; check_requestId obj;
                  check_system_size obj; check_project_len obj;
                  check_project_pattern obj] ++ images_checks obj) = None ->
  match jlookup (js "provider") obj with
  | Some (JStr p) =>
      if bool_decide (p ∈ [js "claude"; js "codex"; js "ollama"])
      then exists m, parsePrompt obj = Ok (Prompt m) /\ provider m = p
      else parsePrompt obj = Err (err_provider p)
  | _ => exists m, parsePrompt obj = Ok (Prompt m) /\ provider m = js "claude"
  end.
Proof.
  intros Hothers.
  assert (Herr : error_of (parsePrompt obj) = check_provider obj).
  { rewrite parsePrompt_checks. unfold prompt_checks.
    cbn [app first_failure] in Hothers |- *.
    destruct (check_prompt obj); [discriminate|].
    destruct (check_prompt_size obj); [discriminate|].
    destruct (check_requestId obj); [discriminate|].
    destruct (check_system_size obj); [discriminate|].
    destruct (check_project_len obj); [discriminate|].
    destruct (check_project_pattern obj); [discriminate|].
    destruct (check_provider obj); [reflexivity|exact Hothers]. }
  assert (Hok : error_of (parsePrompt obj) = None ->
                exists m, parsePrompt obj = Ok (Prompt m)
                          /\ match as_string (jlookup (js "provider") obj) with
                             | Some p => provider m = p
                             | None => provider m = js "claude"
                             end).
  { destruct (parsePrompt obj) as [[m|id]|e] eqn:Hp; [| |discriminate].
    - intros _. exists m. split; [reflexivity|]. apply (parsePrompt_provider obj m Hp).
    - exfalso. revert Hp. unfold parsePrompt.
      repeat match goal with
             | |- context [match ?x with _ => _ end] => destruct x
             end; discriminate. }
  unfold check_provider in Herr.
  destruct (jlookup (js "provider") obj) as [[| | |p| |]|]; cbn [as_string] in *;
    try (apply Hok, Herr).
  destruct (bool_decide (p ∈ [js "claude"; js "codex"; js "ollama"])).
  - apply Hok, Herr.
  - destruct (parsePrompt obj) as [cm|e]; [discriminate|]. injection Herr as ->. reflexivity.
Qed.

(** C10: the provider of a prompt frame.  Every prompt frame that
    [parseClientMessage] accepts carries a provider that is one of [claude],
    [codex], [ollama].  A [provider] member that is absent or not a string
    (a number, [null], ...) is ignored: the frame is parsed exactly as if
    the member were not there, and when it is accepted its provider is
    [claude].  A [provider] that is one of the three names never causes a
    rejection either: the frame is parsed as without the member, and when it
    is accepted its provider is that name.  A [provider] that is any other
    string is always rejected: with [Unknown provider: "<p>" (supported:
    claude, codex, ollama)], unless one of the checks that come before it
    (of [prompt], [requestId], [systemPrompt], [projectId]) fails, whose
    error is then returned.  So on a frame on which every other check
    passes the provider alone decides: the frame is accepted with provider
    [claude] when the member is absent or not a string, accepted with the
    name given when it is one of the three, and rejected with the
    provider's error otherwise. *)
Theorem parseClientMessage_provider :
  (forall (raw : jsstring) (m : PromptMessage),
     parseClientMessage raw = Ok (Prompt m) ->
     provider m ∈ [js "claude"; js "codex"; js "ollama"])
  /\ (forall (raw : jsstring) (obj : list (jsstring * JSON)),
        JSON_parse raw = Some (JObj obj) ->
        as_string (jlookup (js "type") obj) = Some (js "prompt") ->
        as_string (jlookup (js "provider") obj) = None ->
        parseClientMessage raw = parsePrompt (without_field (js "provider") obj)
        /\ forall m, parseClientMessage raw = Ok (Prompt m) -> provider m = js "claude")
  /\ (forall (raw : jsstring) (obj : list (jsstring * JSON)) (p : jsstring),
        JSON_parse raw = Some (JObj obj) ->
        as_string (jlookup (js "type") obj) = Some (js "prompt") ->
        jlookup (js "provider") obj = Some (JStr p) ->
        p ∈ [js "claude"; js "codex"; js "ollama"] ->
        parseClientMessage raw
        = match parsePrompt (without_field (js "provider") obj) with
          | Ok (Prompt m) =>
              Ok (Prompt {| prompt := prompt m; model := model m;
                            systemPrompt := systemPrompt m; projectId := projectId m;
                            requestId := requestId m; provider := p;
                            thinkingTokens := thinkingTokens m; images := images m |})
          | other => other
          end)
  /\ (forall (raw : jsstring) (obj : list (jsstring * JSON)) (p : jsstring),
        JSON_parse raw = Some (JObj obj) ->
        as_string (jlookup (js "type") obj) = Some (js "prompt") ->
        jlookup (js "provider") obj = Some (JStr p) ->
        p ∉ [js "claude"; js "codex"; js "ollama"] ->
        parseClientMessage raw
        = match parsePrompt (without_field (js "images")
                               (without_field (js "provider") obj)) with
          | Err e => Err e
          | Ok _ => Err (err_provider p)
          end)
  /\ (forall (raw : jsstring) (obj : list (jsstring * JSON)),
        JSON_parse raw = Some (JObj obj) ->
        as_string (jlookup (js "type") obj) = Some (js "prompt") ->
        first_failure ([check_prompt obj; check_prompt_size obj; check_requestId obj;
                        check_system_size obj; check_project_len obj;
                        check_project_pattern obj] ++ images_checks obj) = None ->
        match jlookup (js "provider") obj with
        | Some (JStr p) =>
            if bool_decide (p ∈ [js "claude"; js "codex"; js "ollama"])
            then exists m, parseClientMessage raw = Ok (Prompt m) /\ provider m = p
            else parseClientMessage raw = Err (err_provider p)
        | _ => exists m, parseClientMessage raw = Ok (Prompt m) /\ provider m = js "claude"
        end).
Proof.
  assert (Hpc : forall raw obj,
            JSON_parse raw = Some (JObj obj) ->
            as_string (jlookup (js "type") obj) = Some (js "prompt") ->
            parseClientMessage raw = parsePrompt obj).
  { intros raw obj Hparse Htype. unfold parseClientMessage.
    rewrite Hparse, Htype. reflexivity. }
  split; [|split; [|split; [|split]]].
  - intros raw m. unfold parseClientMessage.
    destruct (JSON_parse raw) as [[| | | | |obj]|]; try discriminate.
    destruct (as_string (jlookup (js "type") obj)) as [type|]; [|discriminate].
    destruct (jseqb type (js "prompt")).
    + intros Hm. apply (parsePrompt_provider obj m Hm).
    + destruct (jseqb type (js "cancel")); [|discriminate].
      unfold parseCancel.
      destruct (as_string (jlookup (js "requestId") obj)) as [rid|]; [|discriminate].
      destruct (jslength rid =? 0)%N; discriminate.
  - intros raw obj Hparse Htype Hprov. rewrite (Hpc raw obj Hparse Htype). split.
    + apply parsePrompt_provider_ignored, Hprov.
    + intros m Hm.
      destruct (parsePrompt_provider obj m Hm) as [_ Hm']. rewrite Hprov in Hm'. exact Hm'.
  - intros raw obj p Hparse Htype Hprov Hin. rewrite (Hpc raw obj Hparse Htype).
    apply parsePrompt_known_provider; [rewrite Hprov; reflexivity|exact Hin].
  - intros raw obj p Hparse Htype Hprov Hin. rewrite (Hpc raw obj Hparse Htype).
    apply parsePrompt_unknown_provider; [rewrite Hprov; reflexivity|exact Hin].
  - intros raw obj Hparse Htype Hothers. rewrite (Hpc raw obj Hparse Htype).
    apply provider_decides, Hothers.
Qed.

Lemma parseClientMessage_provider_witness :
  parseClientMessage (jsq "{'type':'prompt','prompt':'hi','requestId':'r1','provider':5}")
  = parsePrompt [(js "type", JStr (js "prompt")); (js "prompt", JStr (js "hi"));
                 (js "requestId", JStr (js "r1"))]
  /\ provider_of_frame (jsq "{'type':'prompt','prompt':'hi','requestId':'r1','provider':5}")
     = Some (js "claude")
  /\ provider_of_frame
       (jsq "{'type':'prompt','prompt':'hi','requestId':'r1','provider':'codex'}")
     = Some (js "codex")
  /\ parseClientMessage
       (jsq "{'type':'prompt','prompt':'hi','requestId':'r1','provider':'gpt'}")
     = Err (err_provider (js "gpt"))
  /\ parseClientMessage
       (jsq "{'type':'prompt','prompt':'','requestId':'r1','provider':'gpt'}")
     = Err err_prompt.
Proof.
  destruct parseClientMessage_provider as (_ & Hignored & Hknown & Hunknown & _).
  assert (Hcodex : js "codex" ∈ [js "claude"; js "codex"; js "ollama"])
    by (apply list_elem_of_further, list_elem_of_here).
  assert (Hgpt : js "gpt" ∉ [js "claude"; js "codex"; js "ollama"])
    by (rewrite !not_elem_of_cons; repeat split; try discriminate; apply not_elem_of_nil).
  split; [|split; [|split; [|split]]].
  - apply (proj1 (Hignored
      (jsq "{'type':'prompt','prompt':'hi','requestId':'r1','provider':5}")
      [(js "type", JStr (js "prompt")); (js "prompt", JStr (js "hi"));
       (js "requestId", JStr (js "r1"));
       (js "provider", JNum {| num_neg := false; num_mant := 5; num_exp10 := 0 |})]
      eq_refl eq_refl eq_refl)).
  - reflexivity.
  - unfold provider_of_frame.
    rewrite (Hknown
      (jsq "{'type':'prompt','prompt':'hi','requestId':'r1','provider':'codex'}")
      [(js "type", JStr (js "prompt")); (js "prompt", JStr (js "hi"));
       (js "requestId", JStr (js "r1")); (js "provider", JStr (js "codex"))]
      (js "codex") eq_refl eq_refl eq_refl Hcodex).
    reflexivity.
  - rewrite (Hunknown
      (jsq "{'type':'prompt','prompt':'hi','requestId':'r1','provider':'gpt'}")
      [(js "type", JStr (js "prompt")); (js "prompt", JStr (js "hi"));
       (js "requestId", JStr (js "r1")); (js "provider", JStr (js "gpt"))]
      (js "gpt") eq_refl eq_refl eq_refl Hgpt).
    reflexivity.
  - rewrite (Hunknown
      (jsq "{'type':'prompt','prompt':'','requestId':'r1','provider':'gpt'}")
      [(js "type", JStr (js "prompt")); (js "prompt", JStr (js ""));
       (js "requestId", JStr (js "r1")); (js "provider", JStr (js "gpt"))]
      (js "gpt") eq_refl eq_refl eq_refl Hgpt).
    reflexivity.
Defined.

End ProtocolProps.

Module CliProps.
Import JS Cli.

Section BaseCliProvider.
Context {S Env : Type} `{CliProvider S Env}.

Lemma cli_calls_app (a b : list Effect) : calls (a ++ b) = calls a ++ calls b.
Proof. unfold calls. apply omap_app. Qed.

Lemma calls_Sys (l : list SysEffect) : calls (List.map Sys l) = [].
Proof. induction l as [|x l IH]; [reflexivity|exact IH]. Qed.

Lemma cli_kill_calls (r : Runner S) : calls (snd (kill r)) = [].
Proof. unfold kill. destruct (process (clearTimeout r)); reflexivity. Qed.

Lemma cli_kill_execs (r : Runner S) : execs (fst (kill r)) = execs r.
Proof. unfold kill. destruct (process (clearTimeout r)); reflexivity. Qed.

Lemma cli_kill_disposed (r : Runner S) : disposed (fst (kill r)) = disposed r.
Proof. unfold kill. destruct (process (clearTimeout r)); reflexivity. Qed.

(** [finish] fires its callback exactly when the flag is still down, and
    raises the flag. *)
Lemma finish_calls (pid : nat) (cb : HandlerCall) (r : Runner S) :
  calls (snd (finish pid cb r)) =
  match execs r !! pid with
  | Some ex => if handlersDone ex then [] else [cb]
  | None => []
  end.
Proof.
  unfold finish. destruct (execs r !! pid) as [ex|]; [|reflexivity].
  destruct (handlersDone ex); reflexivity.
Qed.

Lemma finish_done (pid : nat) (cb : HandlerCall) (r : Runner S) (ex : Exec) :
  execs r !! pid = Some ex -> done_at pid (fst (finish pid cb r)) = true.
Proof.
  intros Hex. unfold finish, done_at. rewrite Hex.
  destruct (handlersDone ex) eqn:Hd; cbn.
  - rewrite Hex. exact Hd.
  - rewrite list_lookup_insert_eq; [reflexivity|].
    apply lookup_lt_Some in Hex. exact Hex.
Qed.

Lemma finish_done_mono (pid p : nat) (cb : HandlerCall) (r : Runner S) :
  done_at pid r = true -> done_at pid (fst (finish p cb r)) = true.
Proof.
  unfold finish, done_at. intros Hd.
  destruct (execs r !! p) as [ex|] eqn:Hex; [|exact Hd].
  destruct (handlersDone ex) eqn:He; [exact Hd|]. cbn.
  destruct (decide (p = pid)) as [->|Hne].
  - rewrite list_lookup_insert_eq; [reflexivity|].
    apply lookup_lt_Some in Hex. exact Hex.
  - rewrite list_lookup_insert_ne by assumption. exact Hd.
Qed.

Lemma kill_done (pid : nat) (r : Runner S) : done_at pid (fst (kill r)) = done_at pid r.
Proof. unfold done_at. rewrite cli_kill_execs. reflexivity. Qed.

(** Once raised, the flag of a run stays up. *)
Lemma step_done_mono (pid : nat) (r : Runner S) (ev : Event) :
  done_at pid r = true -> done_at pid (fst (step r ev)) = true.
Proof.
  intros Hd. destruct ev as [o e| | |p code sig|p msg|p line|p]; cbn [step].
  - unfold run. destruct (disposed r); [exact Hd|].
    destruct (kill r) as [r1 out1] eqn:Hk.
    assert (Hd1 : done_at pid r1 = true).
    { replace r1 with (fst (kill r)) by (rewrite Hk; reflexivity).
      rewrite kill_done. exact Hd. }
    destruct (spawnProcess (sub (set_killed false r1)) e o) as [[s out] status].
    destruct status; cbn; try exact Hd1.
    unfold done_at in *. cbn.
    destruct (execs r1 !! pid) as [ex|] eqn:Hex; [|discriminate].
    rewrite (lookup_app_l_Some _ _ _ _ Hex). exact Hd1.
  - rewrite kill_done. exact Hd.
  - unfold dispose. rewrite kill_done. exact Hd.
  - unfold on_exit. destruct (execs r !! p) as [ex|]; [|exact Hd].
    destruct (onProcessExit (sub (set_process None r)) (options ex)) as [s out].
    cbn [killed set_sub set_process].
    destruct (killed r); [exact Hd|].
    match goal with |- context [finish p ?cb ?r0] =>
      pose proof (finish_done_mono pid p cb r0 Hd) as Hf;
      destruct (finish p cb r0) as [r2 out2] end.
    exact Hf.
  - unfold on_error. destruct (execs r !! p) as [ex|]; [|exact Hd].
    destruct (onProcessExit (sub (set_process None r)) (options ex)) as [s out].
    match goal with |- context [finish p ?cb ?r0] =>
      pose proof (finish_done_mono pid p cb r0 Hd) as Hf;
      destruct (finish p cb r0) as [r2 out2] end.
    exact Hf.
  - unfold on_line. destruct (execs r !! p) as [ex|]; [|exact Hd].
    destruct (parseStreamLine (sub r) line (requestId (options ex))) as [s cs].
    exact Hd.
  - destruct (bool_decide (timeout r = Some p)); [|exact Hd].
    unfold on_timeout. destruct (execs r !! p) as [ex|]; [|exact Hd].
    destruct (kill r) as [r1 out1] eqn:Hk.
    assert (Hd1 : done_at pid r1 = true).
    { replace r1 with (fst (kill r)) by (rewrite Hk; reflexivity).
      rewrite kill_done. exact Hd. }
    match goal with |- context [finish p ?cb ?r0] =>
      pose proof (finish_done_mono pid p cb r0 Hd1) as Hf;
      destruct (finish p cb r0) as [r2 out2] end.
    exact Hf.
Qed.

(** A listener of child [pid] that goes through [finish] fires a final
    event only while the flag is down, fires one at most, and leaves the
    flag up when it did. *)
Lemma step_finishes (pid : nat) (r : Runner S) (ev : Event) :
  finishes_for pid ev = true ->
  let out := List.filter is_terminal (calls (snd (step r ev))) in
  length out <= 1
  /\ (done_at pid r = true -> out = [])
  /\ (out <> [] -> done_at pid (fst (step r ev)) = true).
Proof.
  intros Hf.
  assert (Hfin : forall (cb : HandlerCall) (r0 : Runner S),
    execs r0 = execs r ->
    let out := List.filter is_terminal (calls (snd (finish pid cb r0))) in
    length out <= 1 /\ (done_at pid r = true -> out = [])
    /\ (out <> [] -> done_at pid (fst (finish pid cb r0)) = true)).
  { intros cb r0 He. cbn zeta. rewrite finish_calls. unfold done_at at 1. rewrite He.
    destruct (execs r !! pid) as [ex|] eqn:Hex.
    - destruct (handlersDone ex) eqn:Hd; cbn [List.filter length].
      + split; [lia|split; [reflexivity|congruence]].
      + split; [|split].
        * destruct (is_terminal cb); cbn; lia.
        * discriminate.
        * intros _. apply (finish_done pid cb r0 ex). rewrite He. exact Hex.
    - cbn. split; [lia|split; [reflexivity|congruence]]. }
  destruct ev as [o e| | |p code sig|p msg|p line|p]; cbn [finishes_for] in Hf;
    try discriminate; apply bool_decide_eq_true in Hf; subst p; cbn [step].
  - unfold on_exit. destruct (execs r !! pid) as [ex|] eqn:Hex.
    2:{ cbn. split; [lia|split; [reflexivity|congruence]]. }
    destruct (onProcessExit (sub (set_process None r)) (options ex)) as [s out].
    cbn [killed set_sub set_process].
    destruct (killed r).
    { cbn [snd fst]. rewrite calls_Sys. cbn. split; [lia|split; [reflexivity|congruence]]. }
    match goal with |- context [finish pid ?cb ?r0] =>
      pose proof (Hfin cb r0 eq_refl) as Hx;
      destruct (finish pid cb r0) as [r2 out2] end.
    cbn [snd fst] in *. rewrite cli_calls_app, calls_Sys. exact Hx.
  - unfold on_error. destruct (execs r !! pid) as [ex|] eqn:Hex.
    2:{ cbn. split; [lia|split; [reflexivity|congruence]]. }
    destruct (onProcessExit (sub (set_process None r)) (options ex)) as [s out].
    match goal with |- context [finish pid ?cb ?r0] =>
      pose proof (Hfin cb r0 eq_refl) as Hx;
      destruct (finish pid cb r0) as [r2 out2] end.
    cbn [snd fst] in *. rewrite cli_calls_app, calls_Sys. exact Hx.
  - destruct (bool_decide (timeout r = Some pid)).
    2:{ cbn. split; [lia|split; [reflexivity|congruence]]. }
    unfold on_timeout. destruct (execs r !! pid) as [ex|] eqn:Hex.
    2:{ cbn. split; [lia|split; [reflexivity|congruence]]. }
    pose proof (cli_kill_calls r) as Hkc. pose proof (cli_kill_execs r) as Hke.
    destruct (kill r) as [r1 out1]. cbn [fst snd] in Hkc, Hke.
    match goal with |- context [finish pid ?cb ?r0] =>
      pose proof (Hfin cb r0 Hke) as Hx;
      destruct (finish pid cb r0) as [r2 out2] end.
    cbn [snd fst] in *. rewrite cli_calls_app, Hkc. exact Hx.
Qed.

Lemma cli_steps_cons (r : Runner S) (ev : Event) (evs : list Event) :
  steps r (ev :: evs) =
  (fst (steps (fst (step r ev)) evs),
   (ev, snd (step r ev)) :: snd (steps (fst (step r ev)) evs)).
Proof.
  cbn [steps]. destruct (step r ev) as [r1 out]. cbn [fst snd].
  destruct (steps r1 evs); reflexivity.
Qed.

(** The one-shot guard: whatever happens to a runner, the exit, error and
    timeout listeners of one run fire at most one final event between
    them. *)
Lemma finish_one_shot (pid : nat) (evs : list Event) (r : Runner S) :
  length (terminal_calls_of pid (snd (steps r evs))) <= 1
  /\ (done_at pid r = true -> terminal_calls_of pid (snd (steps r evs)) = []).
Proof.
  revert r. induction evs as [|ev evs IH]; intros r.
  - cbn. split; [lia|reflexivity].
  - rewrite cli_steps_cons. cbn [snd terminal_calls_of].
    destruct (IH (fst (step r ev))) as [IH1 IH2].
    destruct (finishes_for pid ev) eqn:Hf.
    + destruct (step_finishes pid r ev Hf) as (Hlen & Hdone & Hup).
      cbn zeta in *. rewrite length_app. split.
      * destruct (List.filter is_terminal (calls (snd (step r ev)))) as [|c l] eqn:Hout.
        -- cbn. exact IH1.
        -- rewrite IH2 by (apply Hup; discriminate). cbn in *. lia.
      * intros Hd. rewrite (Hdone Hd). cbn.
        apply IH2, step_done_mono, Hd.
    + cbn [app]. split; [exact IH1|].
      intros Hd. apply IH2, step_done_mono, Hd.
Qed.

Lemma finish_disposed (pid : nat) (cb : HandlerCall) (r : Runner S) :
  disposed (fst (finish pid cb r)) = disposed r.
Proof.
  unfold finish. destruct (execs r !! pid) as [ex|]; [|reflexivity].
  destruct (handlersDone ex); reflexivity.
Qed.

(** [disposed] is a latch: nothing lowers it. *)
Lemma cli_step_disposed (r : Runner S) (ev : Event) :
  disposed r = true -> disposed (fst (step r ev)) = true.
Proof.
  intros Hd. destruct ev as [o e| | |p code sig|p msg|p line|p]; cbn [step].
  - unfold run. rewrite Hd. exact Hd.
  - rewrite cli_kill_disposed. exact Hd.
  - unfold dispose. rewrite cli_kill_disposed. reflexivity.
  - unfold on_exit. destruct (execs r !! p) as [ex|]; [|exact Hd].
    destruct (onProcessExit (sub (set_process None r)) (options ex)) as [s out].
    cbn [killed set_sub set_process].
    destruct (killed r); [exact Hd|].
    match goal with |- context [finish p ?cb ?r0] =>
      pose proof (finish_disposed p cb r0) as Hf;
      destruct (finish p cb r0) as [r2 out2] end.
    cbn [fst] in *. rewrite Hf. exact Hd.
  - unfold on_error. destruct (execs r !! p) as [ex|]; [|exact Hd].
    destruct (onProcessExit (sub (set_process None r)) (options ex)) as [s out].
    match goal with |- context [finish p ?cb ?r0] =>
      pose proof (finish_disposed p cb r0) as Hf;
      destruct (finish p cb r0) as [r2 out2] end.
    cbn [fst] in *. rewrite Hf. exact Hd.
  - unfold on_line. destruct (execs r !! p) as [ex|]; [|exact Hd].
    destruct (parseStreamLine (sub r) line (requestId (options ex))) as [s cs].
    exact Hd.
  - destruct (bool_decide (timeout r = Some p)); [|exact Hd].
    unfold on_timeout. destruct (execs r !! p) as [ex|]; [|exact Hd].
    pose proof (cli_kill_disposed r) as Hk.
    destruct (kill r) as [r1 out1]. cbn [fst] in Hk.
    match goal with |- context [finish p ?cb ?r0] =>
      pose proof (finish_disposed p cb r0) as Hf;
      destruct (finish p cb r0) as [r2 out2] end.
    cbn [fst] in *. rewrite Hf, Hk. exact Hd.
Qed.

Lemma cli_steps_disposed (evs : list Event) (r : Runner S) :
  disposed r = true -> disposed (fst (steps r evs)) = true.
Proof.
  revert r. induction evs as [|ev evs IH]; intros r Hd; [exact Hd|].
  rewrite cli_steps_cons. cbn [fst]. apply IH, cli_step_disposed, Hd.
Qed.

Lemma cli_run_disposed (o : RunOptions) (e : Env) (r : Runner S) :
  disposed r = true ->
  run o e r = (r, [Call (onError (JStr (js "Runner has been disposed")) (requestId o))]).
Proof. intros Hd. unfold run. rewrite Hd. reflexivity. Qed.

End BaseCliProvider.

(** A [run] on a live runner lowers the [killed] flag that its own
    implicit [kill()] has just raised. *)
Lemma run_resets_killed {S Env : Type} `{CliProvider S Env}
    (o : RunOptions) (e : Env) (r : Runner S) :
  disposed r = false -> killed (fst (run o e r)) = false.
Proof.
  intros Hd. unfold run. rewrite Hd.
  destruct (kill r) as [r1 out1].
  destruct (spawnProcess (sub (set_killed false r1)) e o) as [[s out] status].
  destruct status; reflexivity.
Qed.

(** C5 fails on the implicit kill: [run(r1)], then [run(r2)] while the
    child of [r1] is alive, then that child's exit by the signal it was sent.
    The second [run] kills the first child but lowers [killed] again before
    the exit of that child can be heard, so the exit listener of the killed
    execution calls [onError("CLI killed by signal SIGTERM", "r1")]; it also
    forgets the handle of the second child and clears the timer of the
    second run. *)
Lemma implicit_kill_exit_not_suppressed :
  snd (steps test_runner
         [Run (simple_options (js "first") (js "r1")) tt;
          Run (simple_options (js "second") (js "r2")) tt;
          ChildExit 0 None (Some (js "SIGTERM"))])
  = [(Run (simple_options (js "first") (js "r1")) tt, []);
     (Run (simple_options (js "second") (js "r2")) tt, [ChildKill 0]);
     (ChildExit 0 None (Some (js "SIGTERM")),
      [Call (onError (JStr (js "CLI killed by signal SIGTERM")) (js "r1"))])]
  /\ process (fst (steps test_runner
                     [Run (simple_options (js "first") (js "r1")) tt;
                      Run (simple_options (js "second") (js "r2")) tt])) = Some 1
  /\ process (fst (steps test_runner
                     [Run (simple_options (js "first") (js "r1")) tt;
                      Run (simple_options (js "second") (js "r2")) tt;
                      ChildExit 0 None (Some (js "SIGTERM"))])) = None
  /\ timeout (fst (steps test_runner
                     [Run (simple_options (js "first") (js "r1")) tt;
                      Run (simple_options (js "second") (js "r2")) tt;
                      ChildExit 0 None (Some (js "SIGTERM"))])) = None.
Proof. repeat split; vm_compute; reflexivity. Qed.

(** The sibling path: after an explicit [kill()], as in the test "killed
    process exit does not call onComplete or onError", the exit of the child
    calls nothing. *)
Lemma explicit_kill_exit_suppressed :
  snd (steps test_runner
         [Run (simple_options (js "hi") (js "r1")) tt;
          Kill;
          ChildExit 0 (Some 0%Z) None])
  = [(Run (simple_options (js "hi") (js "r1")) tt, []);
     (Kill, [ChildKill 0]);
     (ChildExit 0 (Some 0%Z) None, [])].
Proof. vm_compute. reflexivity. Qed.

End CliProps.

Module ProviderProps.
Import JS Cli.

Lemma split_char_nonempty (sep : N) (s : jsstring) : split_char sep s <> [].
Proof.
  destruct s as [|c s]; cbn; [discriminate|].
  destruct (c =? sep)%N; [discriminate|].
  destruct (split_char sep s); discriminate.
Qed.

(** Splitting at a separator splits the pieces. *)
Lemma split_char_app (sep : N) (a b : jsstring) :
  split_char sep (a ++ sep :: b) = split_char sep a ++ split_char sep b.
Proof.
  induction a as [|c a IH]; cbn [app split_char].
  - rewrite N.eqb_refl. reflexivity.
  - destruct (c =? sep)%N.
    + rewrite IH. reflexivity.
    + rewrite IH. pose proof (split_char_nonempty sep a) as Hne.
      destruct (split_char sep a) as [|p ps]; [contradiction|reflexivity].
Qed.

Lemma startsWith_app (s p : jsstring) :
  startsWith s p = true -> exists rest, s = p ++ rest.
Proof.
  revert s. induction p as [|c p IH]; intros s Hs.
  - exists s. reflexivity.
  - destruct s as [|d s]; [discriminate|]. cbn in Hs.
    apply andb_true_iff in Hs as [Hc Hp]. apply N.eqb_eq in Hc. subst d.
    destruct (IH s Hp) as [rest ->]. exists rest. reflexivity.
Qed.

Lemma filter_prefix {A : Type} (f : A -> bool) (l k : list A) :
  l `prefix_of` k -> List.filter f l `prefix_of` List.filter f k.
Proof.
  intros [m ->]. exists (List.filter f m). apply List.filter_app.
Qed.

(** The test of the providers, [cwd.startsWith(base + "/") || cwd === base],
    lets through only directories at or below the base. *)
Lemma not_escapes_within (base cwd : jsstring) :
  escapes_base base cwd = false -> within_base base cwd.
Proof.
  unfold escapes_base, within_base, path_names, path_segments. intros Hesc.
  apply filter_prefix.
  destruct (startsWith cwd (base ++ js "/")) eqn:Hsw.
  - apply startsWith_app in Hsw as [rest ->].
    change (js "/") with [slash]. rewrite <- app_assoc. cbn [app].
    rewrite split_char_app. exists (split_char slash rest). reflexivity.
  - cbn in Hesc. apply negb_false_iff in Hesc. unfold jseqb in Hesc.
    apply bool_decide_eq_true in Hesc. subst cwd. reflexivity.
Qed.

Lemma spawns_app (a b : list Effect) : spawns (a ++ b) = spawns a ++ spawns b.
Proof. unfold spawns. apply omap_app. Qed.

Lemma effect_calls_app (a b : list Effect) : calls (a ++ b) = calls a ++ calls b.
Proof. unfold calls. apply omap_app. Qed.

Lemma write_images_quiet (e : SysEnv) (imgDir rid : jsstring)
    (imgs : list Protocol.PromptImage) (i : nat) (paths : list jsstring) :
  spawns (snd (fst (write_images e imgDir rid i imgs paths))) = []
  /\ calls (snd (fst (write_images e imgDir rid i imgs paths))) = [].
Proof.
  revert i paths. induction imgs as [|img imgs IH]; intros i paths; cbn [write_images].
  - split; reflexivity.
  - destruct (write_throws e (image_path imgDir rid i img)); [split; reflexivity|].
    specialize (IH (Datatypes.S i) (paths ++ [image_path imgDir rid i img])).
    destruct (write_images e imgDir rid (Datatypes.S i) imgs
                (paths ++ [image_path imgDir rid i img])) as [[ps out] threw].
    exact IH.
Qed.

Lemma unlinks_quiet (l : list jsstring) :
  spawns (List.map Sys (List.map Unlink l)) = []
  /\ calls (List.map Sys (List.map Unlink l)) = [].
Proof. induction l as [|x l IH]; [split; reflexivity|exact IH]. Qed.

Lemma accepted_projectId_nonempty (pid : jsstring) :
  accepted_projectId pid = true -> exists c rest, pid = c :: rest.
Proof.
  unfold accepted_projectId. intros Hacc. apply andb_true_iff in Hacc as [_ Hpat].
  destruct pid as [|c rest]; [discriminate|]. eauto.
Qed.

Section Providers.
Variable number_to_string : JNumber -> jsstring.

Lemma claude_project_scoping (p : ClaudeProvider) (e : SysEnv) (o : RunOptions)
    (c : N) (rest : jsstring) :
  projectId o = Some (c :: rest) ->
  let base := session_base e (claude_sessionDir p) in
  let cwd := project_cwd e (claude_sessionDir p) (c :: rest) in
  let result := claude_spawnProcess number_to_string p e o in
  (forall info, info ∈ spawns (snd (fst result)) ->
     Cli.cwd info = Some cwd /\ escapes_base base cwd = false)
  /\ (escapes_base base cwd = true ->
      snd (fst result) = [Call (onError (JStr (js "Invalid projectId")) (requestId o))]
      /\ snd result = NoProcess).
Proof.
  intros Hpid base cwd result. subst result. unfold claude_spawnProcess.
  rewrite Hpid. fold base. fold cwd.
  destruct (escapes_base base cwd) eqn:Hesc.
  - cbn. split; [intros info Hin; inversion Hin|]. intros _. split; reflexivity.
  - split; [|discriminate].
    destruct (mkdir_throws e cwd); [cbn; intros info Hin; inversion Hin|].
    destruct (spawn_throws e); cbn; intros info Hin.
    + inversion Hin.
    + apply list_elem_of_singleton in Hin. subst info. split; reflexivity.
Qed.

Lemma codex_project_scoping (p : CodexProvider) (e : SysEnv) (o : RunOptions)
    (c : N) (rest : jsstring) :
  projectId o = Some (c :: rest) ->
  let base := session_base e (codex_sessionDir p) in
  let cwd := project_cwd e (codex_sessionDir p) (c :: rest) in
  let result := codex_spawnProcess p e o in
  (forall info, info ∈ spawns (snd (fst result)) ->
     Cli.cwd info = Some cwd /\ escapes_base base cwd = false)
  /\ (escapes_base base cwd = true ->
      (snd result = Threw \/
       calls (snd (fst result)) = [onError (JStr (js "Invalid projectId")) (requestId o)]
       /\ snd result = NoProcess)
      /\ spawns (snd (fst result)) = []).
Proof.
  intros Hpid base cwd result. subst result. unfold codex_spawnProcess.
  rewrite Hpid.
  assert (Hstage : codex_sessionDir (fst (fst (codex_write_images p e o))) = codex_sessionDir p
                   /\ spawns (snd (fst (codex_write_images p e o))) = []
                   /\ calls (snd (fst (codex_write_images p e o))) = []).
  { unfold codex_write_images.
    destruct (images o) as [[|img imgs]|]; [repeat split| |repeat split].
    destruct (mkdir_throws e _); [repeat split|].
    pose proof (write_images_quiet e
      (path_resolve (process_cwd e) [tmpdir e; js "bridge-ws-images"])
      (requestId o) (img :: imgs) 0 []) as Hq.
    destruct (write_images e _ (requestId o) 0 (img :: imgs) []) as [[ps out] threw].
    cbn [fst snd] in *. destruct Hq as [Hq1 Hq2].
    repeat split; cbn; assumption. }
  destruct (codex_write_images p e o) as [[p1 out_images] threw].
  cbn [fst snd] in Hstage. destruct Hstage as (Hdir & Hsp & Hcl).
  rewrite Hdir. fold base. fold cwd.
  destruct threw.
  { cbn [fst snd]. rewrite Hsp. split; [intros info Hin; inversion Hin|].
    intros _. split; [left; reflexivity|reflexivity]. }
  destruct (escapes_base base cwd) eqn:Hesc.
  - cbn [cleanupImages fst snd].
    rewrite !spawns_app, !effect_calls_app, Hsp, Hcl.
    destruct (unlinks_quiet (currentImagePaths p1)) as [-> ->]. cbn.
    split; [intros info Hin; inversion Hin|].
    intros _. split; [right; split; reflexivity|reflexivity].
  - split; [|discriminate].
    destruct (mkdir_throws e cwd).
    { cbn [fst snd]. rewrite spawns_app, Hsp. cbn. intros info Hin; inversion Hin. }
    destruct (spawn_throws e); cbn [cleanupImages fst snd];
      rewrite !spawns_app, Hsp; cbn [app]; intros info Hin.
    + destruct (unlinks_quiet (currentImagePaths p1)) as [Hu _].
      rewrite Hu in Hin. cbn in Hin. inversion Hin.
    + cbn in Hin. apply list_elem_of_singleton in Hin. subst info. split; reflexivity.
Qed.

(** C6, as amended: for every run whose options carry a project id
    accepted by the protocol validator, the Claude and Codex providers spawn
    the child only with the working directory (temp-dir)/(session-subdir)/
    (projectId) and only when that directory is the session base itself or
    lies below it; when it is neither, they spawn nothing and call
    [onError("Invalid projectId", requestId)] - the Codex provider unless
    writing the request's images to their temporary files raised first. *)
Theorem project_cwd_within_base (claude : ClaudeProvider) (codex : CodexProvider)
    (e : SysEnv) (o : RunOptions) (pid : jsstring) :
  projectId o = Some pid ->
  accepted_projectId pid = true ->
  let claude_base := session_base e (claude_sessionDir claude) in
  let claude_cwd := project_cwd e (claude_sessionDir claude) pid in
  let codex_base := session_base e (codex_sessionDir codex) in
  let codex_cwd := project_cwd e (codex_sessionDir codex) pid in
  let claude_run := claude_spawnProcess number_to_string claude e o in
  let codex_run := codex_spawnProcess codex e o in
  (forall info, info ∈ spawns (snd (fst claude_run)) ->
     Cli.cwd info = Some claude_cwd /\ within_base claude_base claude_cwd)
  /\ (forall info, info ∈ spawns (snd (fst codex_run)) ->
        Cli.cwd info = Some codex_cwd /\ within_base codex_base codex_cwd)
  /\ (~ within_base claude_base claude_cwd ->
      snd (fst claude_run) = [Call (onError (JStr (js "Invalid projectId")) (requestId o))]
      /\ snd claude_run = NoProcess)
  /\ (~ within_base codex_base codex_cwd ->
      spawns (snd (fst codex_run)) = []
      /\ (snd codex_run = Threw
          \/ calls (snd (fst codex_run))
             = [onError (JStr (js "Invalid projectId")) (requestId o)]
             /\ snd codex_run = NoProcess)).
Proof.
  intros Hpid Hacc. destruct (accepted_projectId_nonempty pid Hacc) as (c & rest & ->).
  cbn zeta.
  destruct (claude_project_scoping claude e o c rest Hpid) as [Hc1 Hc2].
  destruct (codex_project_scoping codex e o c rest Hpid) as [Hx1 Hx2].
  cbn zeta in *.
  split; [|split; [|split]].
  - intros info Hin. destruct (Hc1 info Hin) as [Hcwd Hesc].
    split; [exact Hcwd|]. apply not_escapes_within, Hesc.
  - intros info Hin. destruct (Hx1 info Hin) as [Hcwd Hesc].
    split; [exact Hcwd|]. apply not_escapes_within, Hesc.
  - intros Hout. apply Hc2.
    destruct (escapes_base (session_base e (claude_sessionDir claude))
                (project_cwd e (claude_sessionDir claude) (c :: rest))) eqn:Hesc;
      [reflexivity|].
    exfalso. apply Hout, not_escapes_within, Hesc.
  - intros Hout.
    assert (Hesc : escapes_base (session_base e (codex_sessionDir codex))
                     (project_cwd e (codex_sessionDir codex) (c :: rest)) = true).
    { destruct (escapes_base (session_base e (codex_sessionDir codex))
                  (project_cwd e (codex_sessionDir codex) (c :: rest))) eqn:Hesc;
        [reflexivity|].
      exfalso. apply Hout, not_escapes_within, Hesc. }
    destruct (Hx2 Hesc) as [Hor Hsp]. split; [exact Hsp|exact Hor].
Qed.

End Providers.

(** ** Resolved paths are normal *)

Lemma split_char_no_sep (sep : N) (s : jsstring) :
  Forall (fun piece => forallb (fun c => negb (c =? sep)%N) piece = true) (split_char sep s).
Proof.
  induction s as [|c s IH]; cbn [split_char].
  - repeat constructor.
  - destruct (c =? sep)%N eqn:Hc.
    + constructor; [reflexivity|exact IH].
    + destruct (split_char sep s) as [|p ps]; [repeat constructor; cbn; rewrite Hc; reflexivity|].
      inversion IH as [|? ? Hp Hps]; subst. constructor; [|exact Hps].
      cbn. rewrite Hc. exact Hp.
Qed.

Lemma split_char_no_sep_id (sep : N) (s : jsstring) :
  forallb (fun c => negb (c =? sep)%N) s = true -> split_char sep s = [s].
Proof.
  induction s as [|c s IH]; [reflexivity|]. cbn [forallb split_char]. intros Hs.
  apply andb_true_iff in Hs as [Hc Hs]. apply negb_true_iff in Hc.
  rewrite Hc, (IH Hs). reflexivity.
Qed.

Lemma split_join (sep : N) (segs : list jsstring) :
  segs <> [] ->
  Forall (fun piece => forallb (fun c => negb (c =? sep)%N) piece = true) segs ->
  split_char sep (join_char sep segs) = segs.
Proof.
  induction segs as [|seg segs IH]; [contradiction|]. intros _ Hall.
  inversion Hall as [|? ? Hseg Hsegs]; subst.
  destruct segs as [|seg' segs].
  - cbn [join_char]. apply split_char_no_sep_id, Hseg.
  - change (join_char sep (seg :: seg' :: segs))
      with (seg ++ sep :: join_char sep (seg' :: segs)).
    rewrite split_char_app, (split_char_no_sep_id sep seg Hseg), IH;
      [reflexivity|discriminate|exact Hsegs].
Qed.

Lemma proper_name_spec (seg : jsstring) :
  proper_name seg = true ->
  jseqb seg [] = false /\ jseqb seg (js ".") = false /\ jseqb seg (js "..") = false
  /\ forallb (fun c => negb (c =? slash)%N) seg = true.
Proof.
  unfold proper_name. intros H.
  apply andb_true_iff in H as [H H4]. apply andb_true_iff in H as [H H3].
  apply andb_true_iff in H as [H1 H2].
  apply negb_true_iff in H1, H2, H3. auto.
Qed.

(** Proper names are kept as they are. *)
Lemma normalize_proper_prefix (names rest stack : list jsstring) :
  Forall (fun seg => proper_name seg = true) names ->
  normalize_segments false stack (names ++ rest)
  = normalize_segments false (rev names ++ stack) rest.
Proof.
  revert stack. induction names as [|seg names IH]; intros stack Hall; [reflexivity|].
  inversion Hall as [|? ? Hseg Hnames]; subst.
  destruct (proper_name_spec seg Hseg) as (H1 & H2 & H3 & _).
  cbn [app normalize_segments rev]. rewrite H1, H2, H3. cbn [orb].
  rewrite (IH _ Hnames), <- app_assoc. reflexivity.
Qed.

(** What is left of a path is made of proper names. *)
Lemma normalize_proper (segs stack : list jsstring) :
  Forall (fun seg => proper_name seg = true) stack ->
  Forall (fun piece => forallb (fun c => negb (c =? slash)%N) piece = true) segs ->
  Forall (fun seg => proper_name seg = true) (normalize_segments false stack segs).
Proof.
  revert stack. induction segs as [|seg segs IH]; intros stack Hstack Hsegs.
  - cbn. apply Forall_rev, Hstack.
  - inversion Hsegs as [|? ? Hseg Hrest]; subst. cbn [normalize_segments].
    destruct (jseqb seg []) eqn:H1; [apply IH; assumption|].
    destruct (jseqb seg (js ".")) eqn:H2; [apply IH; assumption|]. cbn [orb].
    destruct (jseqb seg (js "..")) eqn:H3.
    + destruct stack as [|top stack'].
      * apply IH; [constructor|exact Hrest].
      * inversion Hstack; subst.
        destruct (jseqb top (js "..")); apply IH; assumption.
    + apply IH; [|exact Hrest]. constructor; [|exact Hstack].
      unfold proper_name. rewrite H1, H2, H3, Hseg. reflexivity.
Qed.

(** With an absolute working directory the loop of [path.resolve] always
    ends on an absolute path. *)
Lemma resolve_loop_absolute (paths : list jsstring) (cwd resolvedPath : jsstring) :
  isAbsolute cwd = true -> snd (resolve_loop (paths ++ [cwd]) resolvedPath) = true.
Proof.
  intros Hcwd. revert resolvedPath.
  induction paths as [|path paths IH]; intros resolvedPath; cbn [app resolve_loop].
  - destruct cwd as [|c cwd]; [discriminate|]. rewrite Hcwd. reflexivity.
  - destruct path as [|c path]; [apply IH|].
    destruct (isAbsolute (c :: path)); [reflexivity|apply IH].
Qed.

Lemma path_names_absolute (names : list jsstring) :
  Forall (fun seg => proper_name seg = true) names ->
  path_names (slash :: join_char slash names) = names.
Proof.
  intros Hall. unfold path_names, path_segments.
  cbn [split_char]. rewrite N.eqb_refl.
  assert (Hkeep : forall l : list jsstring,
            Forall (fun seg => proper_name seg = true) l ->
            List.filter (fun seg => negb (jseqb seg [])) l = l).
  { induction l as [|x l IHl]; [reflexivity|]. intros Hl.
    inversion Hl as [|? ? Hx Hl']; subst.
    destruct (proper_name_spec x Hx) as (H1 & _). cbn. rewrite H1. cbn.
    f_equal. apply IHl, Hl'. }
  destruct names as [|seg names]; [reflexivity|].
  rewrite split_join; [|discriminate|].
  - transitivity (List.filter (fun seg0 : jsstring => negb (jseqb seg0 [])) (seg :: names));
      [reflexivity|apply Hkeep, Hall].
  - eapply Forall_impl; [exact Hall|]. intros x Hx. apply proper_name_spec, Hx.
Qed.

(** In a process whose working directory is absolute, [path.resolve] gives
    the root followed by proper names. *)
Lemma path_resolve_normal (cwd : jsstring) (args : list jsstring) :
  isAbsolute cwd = true ->
  let names := normalize_segments false []
                 (split_char slash (fst (resolve_loop (rev args ++ [cwd]) []))) in
  path_resolve cwd args = slash :: join_char slash names
  /\ Forall (fun seg => proper_name seg = true) names
  /\ path_names (path_resolve cwd args) = names.
Proof.
  intros Hcwd names.
  assert (Hnames : Forall (fun seg => proper_name seg = true) names).
  { apply normalize_proper; [constructor|apply split_char_no_sep]. }
  assert (Heq : path_resolve cwd args = slash :: join_char slash names).
  { unfold path_resolve, normalizeString.
    pose proof (resolve_loop_absolute (rev args) cwd [] Hcwd) as Habs.
    subst names. destruct (resolve_loop (rev args ++ [cwd]) []) as [rp abs].
    cbn [fst snd] in *. subst abs. reflexivity. }
  split; [exact Heq|]. split; [exact Hnames|].
  rewrite Heq. apply path_names_absolute, Hnames.
Qed.

Lemma project_id_char_not_slash (c : N) :
  Protocol.project_id_char c = true -> (c =? slash)%N = false.
Proof.
  intros Hc. destruct (N.eqb_spec c slash) as [->|]; [|reflexivity].
  vm_compute in Hc. discriminate.
Qed.

Lemma accepted_projectId_chars (pid : jsstring) :
  accepted_projectId pid = true ->
  forallb (fun c => negb (c =? slash)%N) pid = true /\ isAbsolute pid = false
  /\ jseqb pid [] = false.
Proof.
  unfold accepted_projectId. intros Hacc. apply andb_true_iff in Hacc as [_ Hpat].
  destruct pid as [|c rest]; [discriminate|]. cbn [Protocol.PROJECT_ID_PATTERN] in Hpat.
  split; [|split; [|reflexivity]].
  - rewrite forallb_forall in *. intros x Hx.
    rewrite (project_id_char_not_slash x (Hpat x Hx)). reflexivity.
  - cbn [forallb] in Hpat. apply andb_true_iff in Hpat as [Hc _].
    cbn [isAbsolute]. apply project_id_char_not_slash, Hc.
Qed.

(** X14: where a project id that the validator accepts leads, in a process
    whose working directory is absolute: [.] to the session base itself,
    [..] to the directory above it, and any other id to the directory of
    that name directly in the base. *)
Lemma accepted_projectId_resolution (e : SysEnv) (sessionDir pid : jsstring) :
  isAbsolute (process_cwd e) = true ->
  accepted_projectId pid = true ->
  path_names (project_cwd e sessionDir pid) =
  if jseqb pid (js ".") then path_names (session_base e sessionDir)
  else if jseqb pid (js "..") then removelast (path_names (session_base e sessionDir))
  else path_names (session_base e sessionDir) ++ [pid].
Proof.
  intros Hcwd Hacc.
  destruct (accepted_projectId_chars pid Hacc) as (Hchars & Hrel & Hne).
  destruct (path_resolve_normal (process_cwd e) [tmpdir e; sessionDir] Hcwd)
    as (Hbase & Hproper & Hnames).
  fold (session_base e sessionDir) in Hbase, Hnames.
  set (names := normalize_segments false []
                  (split_char slash
                     (fst (resolve_loop (rev [tmpdir e; sessionDir] ++ [process_cwd e]) []))))
    in *.
  rewrite Hnames.
  destruct (path_resolve_normal (process_cwd e) [session_base e sessionDir; pid] Hcwd)
    as (_ & _ & Hcwdnames).
  fold (project_cwd e sessionDir pid) in Hcwdnames. rewrite Hcwdnames. clear Hcwdnames.
  (* the loop stops at the base *)
  assert (Hloop : fst (resolve_loop (rev [session_base e sessionDir; pid] ++ [process_cwd e]) [])
                  = session_base e sessionDir ++ slash :: (pid ++ [slash])).
  { cbn [rev app resolve_loop]. destruct pid as [|c rest]; [discriminate|].
    rewrite Hrel. rewrite Hbase. reflexivity. }
  rewrite Hloop, split_char_app, split_char_app, (split_char_no_sep_id slash pid Hchars).
  cbn [split_char app].
  (* the base is kept as it is *)
  assert (Hkept : forall rest : list jsstring,
            normalize_segments false [] (split_char slash (session_base e sessionDir) ++ rest)
            = normalize_segments false (rev names) rest).
  { intros rest. rewrite Hbase. cbn [split_char]. rewrite N.eqb_refl.
    destruct names as [|seg names'] eqn:En.
    - reflexivity.
    - rewrite split_join;
        [|discriminate
         |eapply Forall_impl; [exact Hproper|]; intros x Hx; apply proper_name_spec, Hx].
      change (([] :: seg :: names') ++ rest) with ([] :: ((seg :: names') ++ rest)).
      transitivity (normalize_segments false [] ((seg :: names') ++ rest));
        [reflexivity|].
      rewrite (normalize_proper_prefix _ _ _ Hproper), app_nil_r. reflexivity. }
  rewrite Hkept. cbn [normalize_segments]. rewrite Hne.
  change (jseqb [] []) with true. cbn [orb].
  destruct (jseqb pid (js ".")) eqn:Hdot; cbn [orb].
  - apply rev_involutive.
  - destruct (jseqb pid (js "..")) eqn:Hdd.
    + destruct (rev names) as [|top stack'] eqn:Hrev.
      * apply (f_equal (@rev jsstring)) in Hrev. rewrite rev_involutive in Hrev.
        rewrite Hrev. reflexivity.
      * apply (f_equal (@rev jsstring)) in Hrev. rewrite rev_involutive in Hrev.
        cbn [rev] in Hrev.
        assert (Htop : jseqb top (js "..") = false).
        { rewrite Hrev in Hproper. apply Forall_app in Hproper as [_ Htop].
          inversion Htop; subst. apply proper_name_spec. assumption. }
        rewrite Htop, Hrev, removelast_last. reflexivity.
    + cbn [rev]. rewrite rev_involutive. reflexivity.
Qed.

Lemma project_cwd_within_base_witness :
  within_base (session_base example_env (js "bridge-ws-sessions"))
              (project_cwd example_env (js "bridge-ws-sessions") (js "proj")).
Proof.
  pose proof (project_cwd_within_base example_number_to_string example_claude
                example_codex example_env
                (project_options (js "hi") (js "r1") (js "proj")) (js "proj")
                eq_refl eq_refl) as [Hclaude _].
  cbn zeta in Hclaude.
  destruct (spawns (snd (fst (claude_spawnProcess example_number_to_string example_claude
                                example_env
                                (project_options (js "hi") (js "r1") (js "proj"))))))
    as [|info l] eqn:E; [vm_compute in E; discriminate|].
  exact (proj2 (Hclaude info (list_elem_of_here info l))).
Defined.

(** C6 as stated fails on the project id [.]: the validator accepts it, it
    resolves to the session base itself, which does not lie strictly within
    the base, and both providers spawn the child there. *)
Lemma projectId_dot_spawns_in_base :
  Protocol.error_of (Protocol.parseClientMessage
    (jsq "{'type':'prompt','prompt':'hi','requestId':'r1','projectId':'.'}")) = None
  /\ accepted_projectId (js ".") = true
  /\ session_base example_env (js "bridge-ws-sessions") = js "/tmp/bridge-ws-sessions"
  /\ project_cwd example_env (js "bridge-ws-sessions") (js ".") = js "/tmp/bridge-ws-sessions"
  /\ List.map Cli.cwd
       (spawns (snd (fst (claude_spawnProcess example_number_to_string example_claude
                            example_env (project_options (js "hi") (js "r1") (js "."))))))
     = [Some (js "/tmp/bridge-ws-sessions")]
  /\ List.map Cli.cwd
       (spawns (snd (fst (codex_spawnProcess example_codex example_env
                            (project_options (js "hi") (js "r1") (js "."))))))
     = [Some (js "/tmp/bridge-ws-sessions")]
  /\ ~ strictly_within_base (js "/tmp/bridge-ws-sessions") (js "/tmp/bridge-ws-sessions").
Proof.
  repeat split; try (vm_compute; reflexivity).
  intros [_ Hne]. apply Hne. reflexivity.
Qed.

(** The second check is not idle: the validator accepts [..], which
    resolves to the directory above the base, and the providers refuse it. *)
Lemma projectId_dotdot_refused :
  accepted_projectId (js "..") = true
  /\ project_cwd example_env (js "bridge-ws-sessions") (js "..") = js "/tmp"
  /\ snd (fst (claude_spawnProcess example_number_to_string example_claude example_env
                 (project_options (js "hi") (js "r1") (js ".."))))
     = [Call (onError (JStr (js "Invalid projectId")) (js "r1"))]
  /\ snd (fst (codex_spawnProcess example_codex example_env
                 (project_options (js "hi") (js "r1") (js ".."))))
     = [Call (onError (JStr (js "Invalid projectId")) (js "r1"))].
Proof. repeat split; vm_compute; reflexivity. Qed.

(** ** Final events outside the guard

    The line parser of the Claude provider calls [onChunk] only, so the
    final events of its executions are those of the exit, error and timeout
    listeners.  The line parser of the Codex provider calls [onError] itself
    for a [turn.failed] or [error] event, outside [finish]. *)

Lemma delta_chunks_only_chunks (delta : option JSON) (rid : jsstring) :
  List.filter is_terminal (delta_chunks delta rid) = [].
Proof.
  unfold delta_chunks.
  repeat match goal with
         | |- context [if ?b then _ else _] => destruct b
         | |- context [match ?o with Some _ => _ | None => _ end] => destruct o
         end; reflexivity.
Qed.

Lemma block_chunks_only_chunks (blocks : list JSON) (rid : jsstring) :
  List.filter is_terminal (block_chunks blocks rid) = [].
Proof.
  induction blocks as [|block rest IH]; [reflexivity|].
  assert (Hhead : forall b : JSON,
    List.filter is_terminal
      ((if is_text (field b "type") "text" && truthy_opt (field b "text")
        then match field b "text" with
             | Some text => [onChunk text rid false]
             | None => []
             end
        else if is_text (field b "type") "thinking" && truthy_opt (field b "thinking")
        then match field b "thinking" with
             | Some text => [onChunk text rid true]
             | None => []
             end
        else [])
       ++ block_chunks rest rid) = []).
  { intros b. rewrite List.filter_app, IH, app_nil_r.
    repeat match goal with
           | |- context [if ?c then _ else _] => destruct c
           | |- context [match ?o with Some _ => _ | None => _ end] => destruct o
           end; reflexivity. }
  destruct block; [reflexivity|apply Hhead..].
Qed.

Lemma claude_lines_only_chunks (line rid : jsstring) :
  List.filter is_terminal (claude_parseStreamLine line rid) = [].
Proof.
  unfold claude_parseStreamLine.
  destruct (blank line); [reflexivity|].
  destruct (JSON_parse line) as [event|]; [|reflexivity].
  assert (Hbody : forall ev : JSON,
    List.filter is_terminal
      (if is_text (field ev "type") "content_block_delta" then
         delta_chunks (field ev "delta") rid
       else if is_text (field ev "type") "stream_event"
               && truthy_opt (field ev "event") then
         if is_text (field_opt (field ev "event") "type") "content_block_delta"
         then delta_chunks (field_opt (field ev "event") "delta") rid
         else []
       else if is_text (field ev "type") "assistant" then
         match field_opt (field ev "message") "content" with
         | Some (JArr blocks) => block_chunks blocks rid
         | _ => []
         end
       else []) = []).
  { intros ev.
    destruct (is_text (field ev "type") "content_block_delta");
      [apply delta_chunks_only_chunks|].
    destruct (is_text (field ev "type") "stream_event" && truthy_opt (field ev "event")).
    - destruct (is_text (field_opt (field ev "event") "type") "content_block_delta");
        [apply delta_chunks_only_chunks|reflexivity].
    - destruct (is_text (field ev "type") "assistant"); [|reflexivity].
      destruct (field_opt (field ev "message") "content") as [[]|];
        try reflexivity. apply block_chunks_only_chunks. }
  destruct event; [reflexivity|apply Hbody..].
Qed.

(** A Codex child that reports [turn.failed] and then exits with code 1:
    the line parser and the exit listener each call [onError]. *)
Lemma codex_turn_failed_then_exit :
  List.map (fun step => calls (snd step))
    (snd (steps (new example_codex)
            [Run (simple_options (js "hi") (js "r1")) example_env;
             ChildLine 0 (jsq "{'type':'turn.failed','error':{'message':'boom'}}");
             ChildExit 0 (Some 1%Z) None]))
  = [[];
     [onError (JStr (js "boom")) (js "r1")];
     [onError (JStr (js "CLI exited with code 1")) (js "r1")]].
Proof. vm_compute. reflexivity. Qed.

End ProviderProps.

Module OllamaProps.
Import JS Ollama.
Import Cli (RunOptions, HandlerCall, onChunk, onComplete, onError).

(** ** Lines across reads *)

Lemma split_char_cons_ne (sep c : N) (s : jsstring) :
  (c =? sep)%N = false ->
  split_char sep (c :: s) =
  match split_char sep s with
  | piece :: pieces => (c :: piece) :: pieces
  | [] => [[c]]
  end.
Proof. intros Hc. cbn [split_char]. rewrite Hc. reflexivity. Qed.

(** The pieces of [a ++ b]: the complete pieces of [a], then the pieces of
    what [a] left open followed by [b]. *)
Lemma split_char_resume (sep : N) (a b : jsstring) :
  split_char sep (a ++ b) =
  removelast (split_char sep a) ++ split_char sep (default [] (last (split_char sep a)) ++ b).
Proof.
  induction a as [|c a IH]; [reflexivity|].
  cbn [app]. destruct (c =? sep)%N eqn:Hc.
  - cbn [split_char]. rewrite Hc, IH.
    pose proof (ProviderProps.split_char_nonempty sep a) as Hne.
    destruct (split_char sep a) as [|p ps]; [contradiction|].
    reflexivity.
  - rewrite !(split_char_cons_ne sep c) by assumption. rewrite IH.
    pose proof (ProviderProps.split_char_nonempty sep a) as Hne.
    destruct (split_char sep a) as [|p [|p' ps]]; [contradiction| |].
    + cbn [removelast last default from_option id app].
      rewrite (split_char_cons_ne sep c) by assumption. reflexivity.
    + reflexivity.
Qed.

Lemma complete_lines_resume (a b : jsstring) :
  complete_lines (a ++ b) = complete_lines a ++ complete_lines (partial_line a ++ b).
Proof.
  unfold complete_lines, partial_line. rewrite split_char_resume.
  apply removelast_app, ProviderProps.split_char_nonempty.
Qed.

Lemma partial_line_resume (a b : jsstring) :
  partial_line (a ++ b) = partial_line (partial_line a ++ b).
Proof.
  unfold partial_line. rewrite split_char_resume.
  pose proof (ProviderProps.split_char_nonempty 10
                (default [] (last (split_char 10 a)) ++ b)) as Hne.
  destruct (split_char 10 (default [] (last (split_char 10 a)) ++ b)) as [|x l] eqn:E;
    [contradiction|].
  rewrite last_app. cbn [last]. destruct (last (x :: l)) eqn:El; [reflexivity|].
  apply last_None in El. discriminate.
Qed.

(** A partial line holds no line feed: it has no complete line of its own. *)
Lemma complete_lines_partial (a : jsstring) : complete_lines (partial_line a) = [].
Proof.
  unfold complete_lines, partial_line.
  induction a as [|c a IH]; [reflexivity|].
  pose proof (ProviderProps.split_char_nonempty 10 a) as Hne.
  cbn [split_char]. destruct (c =? 10)%N eqn:Hc.
  - destruct (split_char 10 a) as [|p ps]; [contradiction|]. exact IH.
  - destruct (split_char 10 a) as [|p [|p' ps]]; [contradiction| |].
    + cbn [last default from_option id] in *. rewrite (split_char_cons_ne 10 c) by assumption.
      cbn in IH. destruct (split_char 10 p) as [|x [|y l]]; try discriminate; reflexivity.
    + exact IH.
Qed.

(** ** The state of a request across steps *)

Lemma ollama_steps_cons (p : OllamaProvider) (ev : Event) (evs : list Event) :
  steps p (ev :: evs) =
  (fst (steps (fst (step p ev)) evs), snd (step p ev) ++ snd (steps (fst (step p ev)) evs)).
Proof.
  cbn [steps]. destruct (step p ev) as [p1 out]. cbn [fst snd].
  destruct (steps p1 evs); reflexivity.
Qed.

Lemma ollama_calls_app (a b : list Effect) : calls (a ++ b) = calls a ++ calls b.
Proof. unfold calls. apply omap_app. Qed.

Lemma calls_map_Call (out : list HandlerCall) : calls (List.map Call out) = out.
Proof. induction out as [|c out IH]; [reflexivity|]. cbn. f_equal. exact IH. Qed.

Lemma lookup_update (k : nat) (f : Request -> Request) (p : OllamaProvider) (q : Request) :
  requests p !! k = Some q -> requests (update k f p) !! k = Some (f q).
Proof. intros Hq. cbn. rewrite list_lookup_alter_eq, Hq. reflexivity. Qed.

Lemma lookup_settle (k : nat) (p : OllamaProvider) (q : Request) :
  requests p !! k = Some q ->
  requests (settle k p) !! k = Some (set_phase Settled (set_timer false q)).
Proof. intros Hq. cbn. rewrite list_lookup_alter_eq, Hq. reflexivity. Qed.

(** Once its promise chain is over, a request hears no response. *)
Lemma settled_reads (k : nat) (pieces : list jsstring) (p : OllamaProvider) (q : Request) :
  requests p !! k = Some q -> phase q = Settled ->
  steps p (reads k pieces) = (p, []).
Proof.
  intros Hq Hph. unfold reads.
  assert (Hstep : forall resp, step p (Respond k resp) = (p, [])).
  { intros resp. cbn [step]. unfold on_response. rewrite Hq, Hph. reflexivity. }
  induction pieces as [|v pieces IH]; cbn [List.map app].
  - rewrite ollama_steps_cons, Hstep. reflexivity.
  - rewrite ollama_steps_cons, Hstep. cbn [fst snd]. rewrite IH. reflexivity.
Qed.

(** ** The read loop against the stream as a whole *)

Lemma process_lines_spec (lines : list jsstring) (rid : jsstring) :
  spec_lines lines rid =
  match process_lines lines rid with
  | Return out => (out, true)
  | Continue out => (out, false)
  end.
Proof.
  induction lines as [|line rest IH]; [reflexivity|].
  cbn [spec_lines process_lines]. rewrite IH.
  destruct (process_line line rid); [|reflexivity].
  destruct (process_lines rest rid); reflexivity.
Qed.

Lemma spec_lines_app (l1 l2 : list jsstring) (rid : jsstring) :
  spec_lines (l1 ++ l2) rid =
  if snd (spec_lines l1 rid) then (fst (spec_lines l1 rid), true)
  else (fst (spec_lines l1 rid) ++ fst (spec_lines l2 rid), snd (spec_lines l2 rid)).
Proof.
  induction l1 as [|line rest IH]; cbn [app spec_lines].
  - cbn. destruct (spec_lines l2 rid); reflexivity.
  - destruct (process_line line rid) as [out|out]; [|reflexivity].
    rewrite IH. destruct (spec_lines rest rid) as [o1 [|]]; cbn [fst snd]; [reflexivity|].
    destruct (spec_lines l2 rid). cbn. rewrite app_assoc. reflexivity.
Qed.

(** The reads of a body, whatever the pieces it arrives in, say what the
    complete lines of the whole body say in order. *)
Lemma reads_stream (k : nat) (pieces : list jsstring) :
  forall (p : OllamaProvider) (q : Request) (buffer : jsstring),
    requests p !! k = Some q -> phase q = Reading buffer -> aborted q = false ->
    complete_lines buffer = [] ->
    calls (snd (steps p (reads k pieces)))
    = spec_stream (buffer ++ List.concat pieces) (Cli.requestId (options q)).
Proof.
  induction pieces as [|v pieces IH]; intros p q buffer Hq Hph Hab Hbuf.
  - cbn [reads List.map app List.concat]. rewrite ollama_steps_cons. cbn [steps step snd].
    unfold on_response. rewrite Hq, Hph, Hab. cbn [snd].
    rewrite !app_nil_r. unfold spec_stream. rewrite Hbuf. reflexivity.
  - change (reads k (v :: pieces)) with (Respond k (ReadChunk v) :: reads k pieces).
    rewrite ollama_steps_cons. cbn [snd step List.concat].
    unfold spec_stream. rewrite app_assoc, complete_lines_resume, spec_lines_app.
    rewrite (process_lines_spec (complete_lines (buffer ++ v))).
    unfold on_response. rewrite Hq, Hph, Hab.
    destruct (process_lines (complete_lines (buffer ++ v)) (Cli.requestId (options q)))
      as [out|out]; cbn [fst snd].
    + (* go on with the partial line *)
      rewrite ollama_calls_app, calls_map_Call.
      rewrite (IH _ (set_phase (Reading (partial_line (buffer ++ v))) q)
                 (partial_line (buffer ++ v)));
        [|apply lookup_update, Hq|reflexivity|exact Hab|apply complete_lines_partial].
      cbn [options set_phase]. unfold spec_stream.
      destruct (spec_lines (complete_lines (partial_line (buffer ++ v) ++ List.concat pieces))
                  (Cli.requestId (options q))) as [o2 [|]]; cbn [fst snd].
      * reflexivity.
      * rewrite app_assoc. reflexivity.
    + (* the request is over *)
      rewrite (settled_reads k pieces (settle k p) _ (lookup_settle k p q Hq) eq_refl).
      cbn [snd]. rewrite app_nil_r. apply calls_map_Call.
Qed.

(** A request that was killed says nothing more, whatever the response. *)
Lemma aborted_silent (k : nat) (resp : Response) (p : OllamaProvider) (q : Request) :
  requests p !! k = Some q -> aborted q = true -> snd (on_response k resp p) = [].
Proof.
  intros Hq Hab. unfold on_response, rejected, resolved. rewrite Hq, Hab.
  destruct (phase q), resp; try reflexivity.
  destruct (negb (ok status)); [reflexivity|].
  destruct (negb has_body); reflexivity.
Qed.

(** C7, as amended: the complete, non-blank lines of a response stream are
    read in order.  A line that is not JSON (or is the JSON [null]) is
    skipped; a JSON line whose [error] is truthy (a non-empty message) calls
    [onError(error, id)] and ends the reading; otherwise a truthy (non-empty)
    [response] calls [onChunk(response, id)] - an empty one calls nothing -
    and then a true [done] calls [onComplete(id)] and ends the reading.
    Whatever pieces the body arrives in, the calls are those of the complete
    lines of the whole body up to the first line that ends the reading, and
    [onComplete(id)] when the stream ends before any such line.  For a
    request that was aborted, nothing is called. *)
Theorem ollama_stream (p : OllamaProvider) (k : nat) (q : Request) :
  requests p !! k = Some q ->
  let rid := Cli.requestId (options q) in
  (forall line : jsstring,
     blank line = true \/ JSON_parse line = None \/ JSON_parse line = Some JNull ->
     process_line line rid = Continue [])
  /\ (forall (line : jsstring) (event err : JSON),
        blank line = false -> JSON_parse line = Some event ->
        jprop event (js "error") = Some err -> truthy err = true ->
        process_line line rid = Return [onError err rid])
  /\ (forall (line : jsstring) (event : JSON),
        blank line = false -> JSON_parse line = Some event -> event <> JNull ->
        Cli.truthy_opt (jprop event (js "error")) = false ->
        let chunk :=
          match jprop event (js "response") with
          | Some text => if truthy text then [onChunk text rid false] else []
          | None => []
          end in
        process_line line rid =
        if Cli.truthy_opt (jprop event (js "done"))
        then Return (chunk ++ [onComplete rid]) else Continue chunk)
  /\ (phase q = Reading [] -> aborted q = false ->
      forall pieces : list jsstring,
        calls (snd (steps p (reads k pieces))) = spec_stream (List.concat pieces) rid)
  /\ (aborted q = true -> forall resp : Response, snd (on_response k resp p) = []).
Proof.
  intros Hq rid. split; [|split; [|split; [|split]]].
  - intros line Hline. unfold process_line.
    destruct (blank line); [reflexivity|].
    destruct Hline as [H|[->| ->]]; [discriminate|reflexivity..].
  - intros line event err Hb Hp He Ht. unfold process_line.
    rewrite Hb, Hp, He, Ht. destruct event; try reflexivity. discriminate.
  - intros line event Hb Hp Hnull He chunk. subst chunk. unfold process_line.
    rewrite Hb, Hp. destruct event; try contradiction;
      (destruct (jprop _ (js "error")) as [err|]; [cbn in He; rewrite He|]; reflexivity).
  - intros Hph Hab pieces.
    apply (reads_stream k pieces p q [] Hq Hph Hab eq_refl).
  - intros Hab resp. apply (aborted_silent k resp p q Hq Hab).
Qed.

Lemma ollama_stream_witness :
  calls (snd (steps (streaming (js "req-1"))
                (reads 0 (mockOllamaResponse
                            [jsq "{'model':'llama3.2','response':'Hello','done':false}";
                             jsq "{'model':'llama3.2','response':' world','done':false}";
                             jsq "{'model':'llama3.2','response':'','done':true}"]))))
  = [onChunk (JStr (js "Hello")) (js "req-1") false;
     onChunk (JStr (js " world")) (js "req-1") false;
     onComplete (js "req-1")].
Proof.
  assert (Hq : requests (streaming (js "req-1")) !! 0
               = Some {| options := Cli.simple_options (js "hi") (js "req-1");
                         aborted := false; timer := true; phase := Reading [] |})
    by reflexivity.
  rewrite (proj1 (proj2 (proj2 (proj2 (ollama_stream _ 0 _ Hq)))) eq_refl eq_refl).
  vm_compute. reflexivity.
Defined.

(** C7 as stated fails on a line with an empty [response]: it is a JSON
    line [{response: <text>, done: false}], and no [onChunk] is called for
    it. *)
Lemma empty_response_calls_nothing :
  JSON_parse (jsq "{'response':'','done':false}")
    = Some (JObj [(js "response", JStr []); (js "done", JBool false)])
  /\ process_line (jsq "{'response':'','done':false}") (js "req-1") = Continue []
  /\ calls (snd (steps (streaming (js "req-1"))
                   (reads 0 (mockOllamaResponse [jsq "{'response':'','done':false}"]))))
     = [onComplete (js "req-1")]
  /\ calls (snd (steps (streaming (js "req-1"))
                   (reads 0 (mockOllamaResponse [jsq "{'response':'','done':false}"]))))
     <> [onChunk (JStr []) (js "req-1") false; onComplete (js "req-1")].
Proof.
  split; [|split; [|split]]; try (vm_compute; reflexivity).
  vm_compute. discriminate.
Qed.

(** C8, as amended: when the POST is answered with an error status, a
    request that was not aborted calls [onError] with
    [Ollama returned HTTP <code>: <first 200 characters of the body>] (the
    body taken as empty when it cannot be read) and the request id, and
    calls nothing else.  What is reported when the connection is refused is
    left out of the statement. *)
Theorem ollama_http_errors (p : OllamaProvider) (k : nat) (q : Request)
    (status : N) (has_body : bool) (text : option jsstring) :
  requests p !! k = Some q -> phase q = AwaitFetch -> aborted q = false ->
  ok status = false ->
  calls (snd (steps p [Respond k (FetchResponded status has_body);
                       Respond k (TextSettled text)]))
  = [onError (JStr (js "Ollama returned HTTP " ++ dec_of_N status ++ js ": "
                    ++ take 200 (default [] text)))
       (Cli.requestId (options q))].
Proof.
  intros Hq Hph Hab Hok.
  assert (H1 : step p (Respond k (FetchResponded status has_body))
               = (update k (set_phase (AwaitText status)) p, [])).
  { cbn [step]. unfold on_response. rewrite Hq, Hph, Hok. reflexivity. }
  rewrite ollama_steps_cons, H1. cbn [fst snd app].
  rewrite ollama_steps_cons. cbn [step snd steps fst].
  unfold on_response, rejected.
  rewrite (lookup_update k _ p q Hq). cbn [phase set_phase aborted options].
  rewrite Hab. reflexivity.
Qed.

Lemma ollama_http_errors_witness :
  calls (snd (steps (fetching (js "req-8"))
                [Respond 0 (FetchResponded 500 true);
                 Respond 0 (TextSettled (Some (js "internal error")))]))
  = [onError (JStr (js "Ollama returned HTTP 500: internal error")) (js "req-8")].
Proof.
  assert (Hq : requests (fetching (js "req-8")) !! 0
               = Some {| options := Cli.simple_options (js "hi") (js "req-8");
                         aborted := false; timer := true; phase := AwaitFetch |})
    by reflexivity.
  exact (ollama_http_errors _ 0 _ 500%N true (Some (js "internal error"))
           Hq eq_refl eq_refl eq_refl).
Defined.

(** C8 as stated fails on the message: an HTTP 500 with the body
    [internal error] is reported as [Ollama returned HTTP 500: internal
    error], not as [HTTP 500: internal error]. *)
Lemma http_error_message_prefixed :
  calls (snd (steps (fetching (js "req-8"))
                [Respond 0 (FetchResponded 500 true);
                 Respond 0 (TextSettled (Some (js "internal error")))]))
  = [onError (JStr (js "Ollama returned HTTP 500: internal error")) (js "req-8")]
  /\ calls (snd (steps (fetching (js "req-8"))
                   [Respond 0 (FetchResponded 500 true);
                    Respond 0 (TextSettled (Some (js "internal error")))]))
     <> [onError (JStr (js "HTTP " ++ dec_of_N 500 ++ js ": "
                       ++ take 200 (js "internal error"))) (js "req-8")].
Proof. split; [vm_compute; reflexivity|vm_compute; discriminate]. Qed.

Lemma ollama_kill_disposed (p : OllamaProvider) : disposed (fst (kill p)) = disposed p.
Proof. unfold kill. destruct (abortController p); reflexivity. Qed.

(** [disposed] is a latch here too. *)
Lemma ollama_step_disposed (p : OllamaProvider) (ev : Event) :
  disposed p = true -> disposed (fst (step p ev)) = true.
Proof.
  intros Hd. destruct ev as [o| | |k resp|k]; cbn [step].
  - unfold run. rewrite Hd. exact Hd.
  - rewrite ollama_kill_disposed. exact Hd.
  - unfold dispose. rewrite ollama_kill_disposed. reflexivity.
  - unfold on_response, rejected, resolved.
    destruct (requests p !! k) as [q|]; [|exact Hd].
    destruct (phase q), resp; try exact Hd;
      repeat match goal with
             | |- context [if ?b then _ else _] => destruct b
             | |- context [match process_lines ?l ?r with _ => _ end] =>
                 destruct (process_lines l r)
             end; exact Hd.
  - unfold on_timeout. destruct (requests p !! k) as [q|]; [|exact Hd].
    destruct (timer q); [|exact Hd].
    pose proof (ollama_kill_disposed (update k (set_timer false) p)) as Hk.
    destruct (kill (update k (set_timer false) p)) as [p1 out]. cbn [fst] in *.
    rewrite Hk. exact Hd.
Qed.

Lemma ollama_steps_disposed (evs : list Event) (p : OllamaProvider) :
  disposed p = true -> disposed (fst (steps p evs)) = true.
Proof.
  revert p. induction evs as [|ev evs IH]; intros p Hd; [exact Hd|].
  rewrite ollama_steps_cons. cbn [fst]. apply IH, ollama_step_disposed, Hd.
Qed.

End OllamaProps.

Module RunnerProps.
Import JS.

(** C9: once [dispose()] has been called on a runner - subprocess-backed or
    HTTP - and whatever happens to it afterwards, every [run(options,
    handlers)] calls [handlers.onError("Runner has been disposed",
    options.requestId)] and does nothing else: no other handler, no child
    process, no HTTP call, no exception, and the runner is left as it was. *)
Theorem run_after_dispose :
  (forall (S Env : Type) (provider : Cli.CliProvider S Env) (r : Cli.Runner S)
          (evs : list (@Cli.Event Env)) (o : Cli.RunOptions) (e : Env),
     let r1 := fst (Cli.steps (fst (Cli.dispose r)) evs) in
     Cli.run o e r1
     = (r1, [Cli.Call (Cli.onError (JStr (js "Runner has been disposed"))
                         (Cli.requestId o))]))
  /\ (forall (p : Ollama.OllamaProvider) (evs : list Ollama.Event) (o : Cli.RunOptions),
        let p1 := fst (Ollama.steps (fst (Ollama.dispose p)) evs) in
        Ollama.run o p1
        = (p1, [Ollama.Call (Cli.onError (JStr (js "Runner has been disposed"))
                               (Cli.requestId o))])).
Proof.
  split.
  - intros S Env provider r evs o e r1. apply CliProps.cli_run_disposed.
    apply CliProps.cli_steps_disposed. unfold Cli.dispose.
    rewrite CliProps.cli_kill_disposed. reflexivity.
  - intros p evs o p1. unfold Ollama.run.
    assert (Hd : Ollama.disposed p1 = true).
    { apply OllamaProps.ollama_steps_disposed. unfold Ollama.dispose.
      rewrite OllamaProps.ollama_kill_disposed. reflexivity. }
    rewrite Hd. reflexivity.
Qed.

End RunnerProps.

Module ServerProps.
Import JS Server.
Import Cli (RunOptions, HandlerCall, onChunk, onComplete, onError).

Section Server.
Variable factory : Provider -> nat -> RunnerRef.

Lemma sendMessage_quiet (c : Connection) (m : AgentMessage) :
  List.filter touches_runner (sendMessage c m) = []
  /\ (forall q, created_for q (sendMessage c m) = [])
  /\ (forall q, ran_for q (sendMessage c m) = []).
Proof. unfold sendMessage. destruct (open c); repeat split. Qed.

Lemma slot_set_slot (q p : Provider) (r : RunnerRef) (s : ConnectionState) :
  slot q (set_slot p r s) = if decide (p = q) then Some r else slot q s.
Proof. destruct p, q; reflexivity. Qed.

Lemma server_steps_cons (c : Connection) (ev : Event) (evs : list Event) :
  steps factory c (ev :: evs) =
  (fst (steps factory (fst (step factory c ev)) evs),
   snd (step factory c ev) ++ snd (steps factory (fst (step factory c ev)) evs)).
Proof.
  cbn [steps]. destruct (step factory c ev) as [c1 out]. cbn [fst snd].
  destruct (steps factory c1 evs); reflexivity.
Qed.

Lemma created_for_app (q : Provider) (a b : list Effect) :
  created_for q (a ++ b) = created_for q a ++ created_for q b.
Proof. unfold created_for. apply omap_app. Qed.

Lemma ran_for_app (q : Provider) (a b : list Effect) :
  ran_for q (a ++ b) = ran_for q a ++ ran_for q b.
Proof. unfold ran_for. apply omap_app. Qed.

Lemma handlePrompt_slot_inv (q : Provider) (m : Protocol.PromptMessage)
    (c : Connection) (trace : list Effect) :
  slot_inv q c trace ->
  slot_inv q (fst (handlePrompt factory m c)) (trace ++ snd (handlePrompt factory m c)).
Proof.
  unfold slot_inv, handlePrompt. intros Hinv.
  destruct (requests (state c) !! Protocol.requestId m) as [active|].
  { cbn [fst snd]. rewrite created_for_app, ran_for_app.
    destruct (sendMessage_quiet c
      (ErrorMessage (JStr (js "Request " ++ Protocol.requestId m
                           ++ js " is already in progress"))
         (Some (Protocol.requestId m)))) as (_ & Hc & Hr).
    rewrite Hc, Hr, !app_nil_r. exact Hinv. }
  set (p := provider_slot (Protocol.provider m)).
  assert (Hrun : forall r, ran_for q [RequestsSet (Protocol.requestId m) r;
                                      RunnerRun p r (run_options m)]
                           = if decide (p = q) then [r] else []).
  { intros r. cbn. destruct (decide (p = q)); reflexivity. }
  assert (Hcreate : forall r, created_for q [CreateRunner p r]
                              = if decide (p = q) then [r] else []).
  { intros r. cbn. destruct (decide (p = q)); reflexivity. }
  destruct (slot p (state c)) as [r0|] eqn:Hslot; cbn [fst snd state set_state set_requests].
  - (* the cached runner *)
    assert (Hs : forall s, slot q (set_requests s (state c)) = slot q (state c))
      by (intros s; destruct q; reflexivity).
    rewrite Hs, created_for_app, ran_for_app. cbn [app]. rewrite Hrun.
    change (created_for q [RequestsSet (Protocol.requestId m) r0;
                           RunnerRun p r0 (run_options m)]) with (@nil RunnerRef).
    rewrite app_nil_r.
    destruct (decide (p = q)) as [<-|Hne].
    + rewrite Hslot in *. destruct Hinv as [Hc Hr].
      split; [exact Hc|]. intros r' Hin.
      apply elem_of_app in Hin as [Hin|Hin]; [apply Hr, Hin|].
      apply list_elem_of_singleton in Hin. exact Hin.
    + rewrite app_nil_r. exact Hinv.
  - (* a runner is created *)
    assert (Hs : forall s, slot q (set_requests s (set_slot p (factory p (created c)) (state c)))
                           = slot q (set_slot p (factory p (created c)) (state c)))
      by (intros s; destruct q, p; reflexivity).
    rewrite Hs, slot_set_slot, !created_for_app, !ran_for_app.
    rewrite Hrun, Hcreate.
    change (created_for q [RequestsSet (Protocol.requestId m) (factory p (created c));
                           RunnerRun p (factory p (created c)) (run_options m)])
      with (@nil RunnerRef).
    change (ran_for q [CreateRunner p (factory p (created c))]) with (@nil RunnerRef).
    rewrite app_nil_r. cbn [app].
    destruct (decide (p = q)) as [<-|Hne].
    + rewrite Hslot in Hinv. destruct Hinv as [-> ->]. cbn [app].
      split; [reflexivity|]. intros r' Hin.
      apply list_elem_of_singleton in Hin. exact Hin.
    + rewrite !app_nil_r. exact Hinv.
Qed.

Lemma step_slot_inv (q : Provider) (ev : Event) (c : Connection) (trace : list Effect) :
  slot_inv q c trace ->
  slot_inv q (fst (step factory c ev)) (trace ++ snd (step factory c ev)).
Proof.
  intros Hinv.
  assert (Hquiet : forall (c' : Connection) (out : list Effect),
            slot q (state c') = slot q (state c) ->
            created_for q out = [] -> ran_for q out = [] ->
            slot_inv q c' (trace ++ out)).
  { intros c' out Hs Hc Hr. unfold slot_inv in *.
    rewrite Hs, created_for_app, ran_for_app, Hc, Hr, !app_nil_r. exact Hinv. }
  destruct ev as [raw|call|b|]; cbn [step].
  - unfold handleMessage.
    destruct (Protocol.parseClientMessage raw) as [[m|id]|error].
    + apply handlePrompt_slot_inv, Hinv.
    + unfold handleCancel. destruct (requests (state c) !! id) as [active|]; cbn [fst snd].
      * apply Hquiet; [destruct q; reflexivity|..];
          cbn [app created_for ran_for omap]; apply sendMessage_quiet.
      * apply Hquiet; [reflexivity|apply sendMessage_quiet..].
    + apply Hquiet; [reflexivity|apply sendMessage_quiet..].
  - destruct call as [content rid thinking|rid|msg rid]; cbn [handler fst snd].
    + apply Hquiet; [reflexivity|apply sendMessage_quiet..].
    + apply Hquiet; [destruct q; reflexivity|..];
        cbn [created_for ran_for omap]; apply sendMessage_quiet.
    + apply Hquiet; [destruct q; reflexivity|..];
        cbn [created_for ran_for omap]; apply sendMessage_quiet.
  - apply Hquiet; reflexivity.
  - apply Hquiet; [destruct q; reflexivity|reflexivity..].
Qed.

Lemma steps_slot_inv (q : Provider) (evs : list Event) (c : Connection)
    (trace : list Effect) :
  slot_inv q c trace ->
  slot_inv q (fst (steps factory c evs)) (trace ++ snd (steps factory c evs)).
Proof.
  revert c trace. induction evs as [|ev evs IH]; intros c trace Hinv.
  - cbn. rewrite app_nil_r. exact Hinv.
  - rewrite server_steps_cons. cbn [fst snd]. rewrite app_assoc.
    apply IH, step_slot_inv, Hinv.
Qed.

(** Over the life of a connection, at most one runner is created for a
    provider, and every run for the provider is a run of that runner. *)
Lemma runner_reuse (q : Provider) (evs : list Event) :
  length (created_for q (snd (steps factory connected evs))) <= 1
  /\ forall r, r ∈ ran_for q (snd (steps factory connected evs)) ->
               created_for q (snd (steps factory connected evs)) = [r].
Proof.
  pose proof (steps_slot_inv q evs connected []) as Hinv.
  cbn [app] in Hinv. unfold slot_inv in Hinv at 2.
  specialize (Hinv ltac:(destruct q; split; reflexivity)).
  unfold slot_inv in Hinv.
  destruct (slot q (state (fst (steps factory connected evs)))) as [r0|].
  - destruct Hinv as [Hc Hr]. rewrite Hc. split; [cbn; lia|].
    intros r Hin. rewrite (Hr r Hin). reflexivity.
  - destruct Hinv as [Hc Hr]. rewrite Hc, Hr. split; [cbn; lia|].
    intros r Hin. inversion Hin.
Qed.

(** C2: a prompt frame on a connection.  When the request map already
    holds the frame's requestId, the server answers
    [error "Request <id> is already in progress"] with that requestId (a
    write that is dropped when the socket is not open) and neither creates,
    runs nor kills a runner.  Otherwise it takes the cached runner of the
    frame's provider - [codexRunner] for [codex], [ollamaRunner] for
    [ollama], [claudeRunner] for anything else - creating and caching it
    first when there is none and leaving the runners of the other providers
    alone, then inserts the requestId into the request map - adding an
    entry, never replacing one - and only then calls [run] on that runner.
    Over the life of a connection at most one runner is created for each
    provider and every run for the provider is a run of that runner. *)
Theorem prompt_dispatch (m : Protocol.PromptMessage) (c : Connection) :
  let id := Protocol.requestId m in
  let p := if bool_decide (Protocol.provider m = js "codex") then Codex
           else if bool_decide (Protocol.provider m = js "ollama") then Ollama
           else Claude in
  let cached := fun (q : Provider) (s : ConnectionState) =>
                  match q with
                  | Claude => claudeRunner s
                  | Codex => codexRunner s
                  | Ollama => ollamaRunner s
                  end in
  let c' := fst (handlePrompt factory m c) in
  let out := snd (handlePrompt factory m c) in
  (forall active : ActiveRequest,
     requests (state c) !! id = Some active ->
     c' = c
     /\ out = sendMessage c
                (ErrorMessage (JStr (js "Request " ++ id ++ js " is already in progress"))
                   (Some id))
     /\ (open c = true ->
         out = [WsSend (ErrorMessage
                          (JStr (js "Request " ++ id ++ js " is already in progress"))
                          (Some id))])
     /\ List.filter touches_runner out = [])
  /\ (requests (state c) !! id = None ->
      exists r : RunnerRef,
        out = match cached p (state c) with
              | Some _ => []
              | None => [CreateRunner p r]
              end ++ [RequestsSet id r; RunnerRun p r (run_options m)]
        /\ r = default (factory p (created c)) (cached p (state c))
        /\ cached p (state c') = Some r
        /\ (forall q : Provider, q <> p -> cached q (state c') = cached q (state c))
        /\ requests (state c') = <[id := {| runner := r |}]> (requests (state c))
        /\ size (requests (state c')) = Datatypes.S (size (requests (state c))))
  /\ (forall (q : Provider) (evs : list Event),
        length (created_for q (snd (steps factory connected evs))) <= 1
        /\ forall r : RunnerRef,
             r ∈ ran_for q (snd (steps factory connected evs)) ->
             created_for q (snd (steps factory connected evs)) = [r]).
Proof.
  cbn zeta. split; [|split].
  - intros active Hdup. unfold handlePrompt. rewrite Hdup. cbn [fst snd].
    split; [reflexivity|]. split; [reflexivity|]. split.
    + intros Hopen. unfold sendMessage. rewrite Hopen. reflexivity.
    + apply sendMessage_quiet.
  - intros Hfresh. unfold handlePrompt. rewrite Hfresh.
    change (provider_slot (Protocol.provider m))
      with (if bool_decide (Protocol.provider m = js "codex") then Codex
            else if bool_decide (Protocol.provider m = js "ollama") then Ollama
            else Claude).
    set (p := if bool_decide (Protocol.provider m = js "codex") then Codex
              else if bool_decide (Protocol.provider m = js "ollama") then Ollama
              else Claude).
    change (match p with
            | Claude => claudeRunner (state c)
            | Codex => codexRunner (state c)
            | Ollama => ollamaRunner (state c)
            end) with (slot p (state c)).
    destruct (slot p (state c)) as [r0|] eqn:Hslot;
      cbn [fst snd state set_state set_requests default from_option id].
    + exists r0. split; [reflexivity|]. split; [reflexivity|]. split; [|split; [|split]].
      * destruct p; exact Hslot.
      * intros q _. destruct q; reflexivity.
      * reflexivity.
      * apply map_size_insert_None, Hfresh.
    + exists (factory p (created c)).
      split; [reflexivity|]. split; [reflexivity|]. split; [|split; [|split]].
      * destruct p; reflexivity.
      * intros q Hq. destruct q, p; try reflexivity; contradiction.
      * destruct p; reflexivity.
      * destruct p; apply map_size_insert_None, Hfresh.
  - intros q evs. apply runner_reuse.
Qed.

(** C3: a cancel frame on a connection.  When the request map does not hold
    its requestId, the server answers [error "No active request with id:
    <id>"] with that requestId and calls no runner.  When it does, the server
    calls [kill()] once on the request's runner and calls no other runner
    method, removes the id from the map, and answers [error "Request
    cancelled"] with the requestId; a later prompt with the same id is then
    run instead of being refused. *)
Theorem cancel_dispatch (id : jsstring) (c : Connection) :
  let c' := fst (handleCancel id c) in
  let out := snd (handleCancel id c) in
  (requests (state c) !! id = None ->
     c' = c
     /\ out = sendMessage c
                (ErrorMessage (JStr (js "No active request with id: " ++ id)) (Some id))
     /\ (open c = true ->
         out = [WsSend (ErrorMessage (JStr (js "No active request with id: " ++ id))
                          (Some id))])
     /\ List.filter touches_runner out = [])
  /\ (forall active : ActiveRequest,
        requests (state c) !! id = Some active ->
        out = [RunnerKill (runner active); RequestsDelete id]
              ++ sendMessage c (ErrorMessage (JStr (js "Request cancelled")) (Some id))
        /\ (open c = true ->
            out = [RunnerKill (runner active); RequestsDelete id;
                   WsSend (ErrorMessage (JStr (js "Request cancelled")) (Some id))])
        /\ List.filter touches_runner out = [RunnerKill (runner active)]
        /\ requests (state c') = delete id (requests (state c))
        /\ requests (state c') !! id = None
        /\ forall m : Protocol.PromptMessage,
             Protocol.requestId m = id ->
             exists r : RunnerRef,
               RunnerRun (provider_slot (Protocol.provider m)) r (run_options m)
               ∈ snd (handlePrompt factory m c')).
Proof.
  cbn zeta. split.
  - intros Habsent. unfold handleCancel. rewrite Habsent. cbn [fst snd].
    split; [reflexivity|]. split; [reflexivity|]. split.
    + intros Hopen. unfold sendMessage. rewrite Hopen. reflexivity.
    + apply sendMessage_quiet.
  - intros active Hactive. unfold handleCancel. rewrite Hactive.
    cbn [fst snd state set_state set_requests].
    split; [reflexivity|]. split; [|split; [|split; [|split]]].
    + intros Hopen. unfold sendMessage. cbn [open set_state]. rewrite Hopen. reflexivity.
    + cbn [app List.filter touches_runner].
      f_equal. apply sendMessage_quiet.
    + reflexivity.
    + apply lookup_delete_eq.
    + intros m <-. unfold handlePrompt.
      cbn [state set_state set_requests requests].
      rewrite lookup_delete_eq.
      destruct (slot (provider_slot (Protocol.provider m))
                  (set_requests (delete (Protocol.requestId m) (requests (state c)))
                     (state c))) as [r0|];
        cbn [fst snd].
      * exists r0. cbn [app]. apply list_elem_of_further, list_elem_of_here.
      * eexists. cbn [app]. do 2 apply list_elem_of_further. apply list_elem_of_here.
Qed.

End Server.

Lemma prompt_dispatch_witness :
  snd (handlePrompt fresh_runners (simple_prompt (js "second") (js "r1"))
         (fst (handlePrompt fresh_runners (simple_prompt (js "first") (js "r1")) connected)))
  = [WsSend (ErrorMessage (JStr (js "Request r1 is already in progress")) (Some (js "r1")))]
  /\ snd (handlePrompt fresh_runners (simple_prompt (js "first") (js "r1")) connected)
     = [CreateRunner Claude 0; RequestsSet (js "r1") 0;
        RunnerRun Claude 0 (run_options (simple_prompt (js "first") (js "r1")))]
  /\ codexRunner
       (state (fst (handlePrompt fresh_runners
                      {| Protocol.prompt := js "hi"; Protocol.model := None;
                         Protocol.systemPrompt := None; Protocol.projectId := None;
                         Protocol.requestId := js "r2"; Protocol.provider := js "codex";
                         Protocol.thinkingTokens := None; Protocol.images := None |}
                      (fst (handlePrompt fresh_runners
                              (simple_prompt (js "first") (js "r1")) connected)))))
     = Some 1
  /\ ollamaRunner
       (state (fst (handlePrompt fresh_runners
                      {| Protocol.prompt := js "hi"; Protocol.model := None;
                         Protocol.systemPrompt := None; Protocol.projectId := None;
                         Protocol.requestId := js "r3"; Protocol.provider := js "ollama";
                         Protocol.thinkingTokens := None; Protocol.images := None |}
                      (fst (handlePrompt fresh_runners
                              (simple_prompt (js "first") (js "r1")) connected)))))
     = Some 1.
Proof.
  split; [|split; [|split]].
  - assert (Hdup : requests (state (fst (handlePrompt fresh_runners
                                          (simple_prompt (js "first") (js "r1")) connected)))
                   !! js "r1" = Some {| runner := 0 |}).
    { cbn. apply lookup_insert_eq. }
    exact (proj1 (proj2 (proj2 (proj1 (prompt_dispatch fresh_runners
             (simple_prompt (js "second") (js "r1")) _) _ Hdup))) eq_refl).
  - assert (Hfresh : requests (state connected) !! js "r1" = None).
    { apply lookup_empty. }
    destruct (proj1 (proj2 (prompt_dispatch fresh_runners
                (simple_prompt (js "first") (js "r1")) connected)) Hfresh)
      as (r & Hout & Hr & _).
    rewrite Hout, Hr. reflexivity.
  - assert (Hfresh : requests (state (fst (handlePrompt fresh_runners
                                          (simple_prompt (js "first") (js "r1")) connected)))
                     !! js "r2" = None).
    { vm_compute. reflexivity. }
    destruct (proj1 (proj2 (prompt_dispatch fresh_runners
                {| Protocol.prompt := js "hi"; Protocol.model := None;
                   Protocol.systemPrompt := None; Protocol.projectId := None;
                   Protocol.requestId := js "r2"; Protocol.provider := js "codex";
                   Protocol.thinkingTokens := None; Protocol.images := None |} _)) Hfresh)
      as (r & _ & Hr & Hcached & _).
    cbn zeta in Hr, Hcached.
    rewrite Hr in Hcached. exact Hcached.
  - assert (Hfresh : requests (state (fst (handlePrompt fresh_runners
                                          (simple_prompt (js "first") (js "r1")) connected)))
                     !! js "r3" = None).
    { vm_compute. reflexivity. }
    destruct (proj1 (proj2 (prompt_dispatch fresh_runners
                {| Protocol.prompt := js "hi"; Protocol.model := None;
                   Protocol.systemPrompt := None; Protocol.projectId := None;
                   Protocol.requestId := js "r3"; Protocol.provider := js "ollama";
                   Protocol.thinkingTokens := None; Protocol.images := None |} _)) Hfresh)
      as (r & _ & Hr & Hcached & _).
    cbn zeta in Hr, Hcached.
    rewrite Hr in Hcached. exact Hcached.
Defined.

Lemma cancel_dispatch_witness :
  snd (handleCancel (js "nope") connected)
  = [WsSend (ErrorMessage (JStr (js "No active request with id: nope")) (Some (js "nope")))]
  /\ snd (handleCancel (js "r1")
            (fst (handlePrompt fresh_runners (simple_prompt (js "hi") (js "r1")) connected)))
     = [RunnerKill 0; RequestsDelete (js "r1");
        WsSend (ErrorMessage (JStr (js "Request cancelled")) (Some (js "r1")))].
Proof.
  split.
  - assert (Habsent : requests (state connected) !! js "nope" = None).
    { apply lookup_empty. }
    exact (proj1 (proj2 (proj2 (proj1 (cancel_dispatch fresh_runners (js "nope") connected)
                                  Habsent))) eq_refl).
  - assert (Hactive : requests (state (fst (handlePrompt fresh_runners
                                             (simple_prompt (js "hi") (js "r1")) connected)))
                      !! js "r1" = Some {| runner := 0 |}).
    { cbn. apply lookup_insert_eq. }
    exact (proj1 (proj2 (proj2 (cancel_dispatch fresh_runners (js "r1") _) _ Hactive))
             eq_refl).
Defined.

End ServerProps.

(* ===================================================================== *)
(** * Further properties of the protocol codec                            *)
(* ===================================================================== *)

Module ValidatorProps.
Import JS Protocol.

(** What [parseImages] lets through: as many images as it was given, each
    of an allowed type and within the size limit. *)
Lemma parseImages_accepted (raw : list JSON) (parsed : list PromptImage) :
  parseImages raw = inr parsed ->
  length parsed = length raw
  /\ Forall (fun img => allowed_image_type (media_type img) = true
                        /\ (jslength (data img) <= MAX_IMAGE_BASE64_BYTES)%N) parsed.
Proof.
  revert parsed. induction raw as [|img rest IH]; intros parsed Hp; cbn [parseImages] in Hp.
  - inversion Hp. split; [reflexivity|constructor].
  - destruct (is_object_like img); cbn [negb] in Hp; [|discriminate].
    destruct (as_string (jprop img (js "media_type"))) as [mt|]; [|discriminate].
    destruct (as_string (jprop img (js "data"))) as [d|]; [|discriminate].
    destruct (allowed_image_type mt) eqn:Hmt; cbn [negb] in Hp; [|discriminate].
    destruct (MAX_IMAGE_BASE64_BYTES <? jslength d)%N eqn:Hd; [discriminate|].
    destruct (parseImages rest) as [e|imgs]; [discriminate|].
    inversion Hp; subst. destruct (IH imgs eq_refl) as [Hlen Hall].
    split; [cbn [length]; rewrite Hlen; reflexivity|].
    constructor; [|exact Hall]. cbn [media_type data]. split; [exact Hmt|].
    apply N.ltb_ge, Hd.
Qed.

(** X1: a prompt frame that [parseClientMessage] accepts respects every
    limit of the protocol: the prompt and the request id are not empty, the
    prompt takes at most 512 KiB and the system prompt at most 64 KiB as
    UTF-8, the project id has at most 128 characters of the allowed class,
    the thinking budget is not negative, and the images, when there are any,
    are one to four, each of an allowed type and of at most 10 MiB of
    base64 text. *)
Theorem accepted_prompt_within_limits (raw : jsstring) (m : PromptMessage) :
  parseClientMessage raw = Ok (Prompt m) ->
  prompt m <> []
  /\ (utf8_byteLength (prompt m) <= MAX_PROMPT_BYTES)%N
  /\ requestId m <> []
  /\ (forall sp, systemPrompt m = Some sp ->
        (utf8_byteLength sp <= MAX_SYSTEM_PROMPT_BYTES)%N)
  /\ (forall pid, projectId m = Some pid ->
        (jslength pid <= MAX_PROJECT_ID_LENGTH)%N /\ PROJECT_ID_PATTERN pid = true)
  /\ (forall n, thinkingTokens m = Some n -> num_ge0 n = true)
  /\ (forall imgs, images m = Some imgs ->
        imgs <> [] /\ (N.of_nat (length imgs) <= MAX_IMAGES)%N
        /\ Forall (fun img => allowed_image_type (media_type img) = true
                              /\ (jslength (data img) <= MAX_IMAGE_BASE64_BYTES)%N) imgs).
Proof.
  unfold parseClientMessage.
  destruct (JSON_parse raw) as [[| | | | |obj]|]; try discriminate.
  destruct (as_string (jlookup (js "type") obj)) as [type|]; [|discriminate].
  destruct (jseqb type (js "prompt"));
    [|destruct (jseqb type (js "cancel")); [|discriminate];
      unfold parseCancel; destruct (as_string (jlookup (js "requestId") obj)) as [rid|];
      [destruct (jslength rid =? 0)%N|]; discriminate].
  unfold parsePrompt.
  destruct (as_string (jlookup (js "prompt") obj)) as [p|]; [|discriminate].
  destruct (jslength p =? 0)%N eqn:Hp0; [discriminate|].
  destruct (MAX_PROMPT_BYTES <? utf8_byteLength p)%N eqn:Hpsize; [discriminate|].
  destruct (as_string (jlookup (js "requestId") obj)) as [rid|]; [|discriminate].
  destruct (jslength rid =? 0)%N eqn:Hr0; [discriminate|].
  destruct (as_string (jlookup (js "systemPrompt") obj)) as [sp|] eqn:Hsp.
  2: destruct (as_string (jlookup (js "projectId") obj)) as [pid|] eqn:Hpid.
  1: destruct (MAX_SYSTEM_PROMPT_BYTES <? utf8_byteLength sp)%N eqn:Hspsize; [discriminate|];
     destruct (as_string (jlookup (js "projectId") obj)) as [pid|] eqn:Hpid.
  all: try (destruct (MAX_PROJECT_ID_LENGTH <? jslength pid)%N eqn:Hplen; [discriminate|];
            destruct (PROJECT_ID_PATTERN pid) eqn:Hppat; cbn [negb]; [|discriminate]).
  all: destruct (as_string (jlookup (js "provider") obj)) as [pr|];
       try (destruct (negb (jseqb pr (js "claude")) && negb (jseqb pr (js "codex"))
                      && negb (jseqb pr (js "ollama"))); [discriminate|]).
  all: destruct (jlookup (js "images") obj) as [[| | | |[|i0 imgs]|]|];
       try (destruct (MAX_IMAGES <? N.of_nat (length (i0 :: imgs)))%N eqn:Hcount;
            [discriminate|];
            destruct (parseImages (i0 :: imgs)) as [e|parsed] eqn:Hparsed; [discriminate|]).
  all: intros Hok; inversion Hok; subst m; clear Hok;
       cbn [prompt requestId systemPrompt projectId thinkingTokens images].
  all: refine (conj _ (conj _ (conj _ (conj _ (conj _ (conj _ _)))))).
  all: try (intros ->; solve [vm_compute in Hp0; discriminate|vm_compute in Hr0; discriminate]).
  all: try (apply N.ltb_ge; assumption).
  all: try (intros ? [= <-]; apply N.ltb_ge; assumption).
  all: try (intros ? [= <-]; split; [apply N.ltb_ge|]; assumption).
  all: try solve [intros ? [=]].
  all: try (intros tokens Htokens;
            destruct (jlookup (js "thinkingTokens") obj) as [[]|];
            try discriminate;
            match type of Htokens with
            | (if ?b then _ else _) = _ => destruct b eqn:Hge; [|discriminate]
            end; inversion Htokens; subst; assumption).
  all: intros ? [= <-]; apply parseImages_accepted in Hparsed as [Hlen Hall];
       split; [intros ->; discriminate|split; [|exact Hall]];
       rewrite Hlen; apply N.ltb_ge; assumption.
Qed.

Lemma accepted_prompt_within_limits_witness :
  (utf8_byteLength (js "hi") <= MAX_PROMPT_BYTES)%N.
Proof.
  assert (Hparse :
    parseClientMessage
      (jsq "{'type':'prompt','prompt':'hi','requestId':'r1','systemPrompt':'be brief','projectId':'demo','thinkingTokens':1024,'images':[{'media_type':'image/png','data':'AAAA'}]}")
    = Ok (Prompt {| prompt := js "hi"; model := None; systemPrompt := Some (js "be brief");
                    projectId := Some (js "demo"); requestId := js "r1";
                    provider := js "claude";
                    thinkingTokens := Some {| num_neg := false; num_mant := 1024;
                                              num_exp10 := 0 |};
                    images := Some [{| media_type := js "image/png";
                                       data := js "AAAA" |}] |}))
    by reflexivity.
  exact (proj1 (proj2 (accepted_prompt_within_limits _ _ Hparse))).
Defined.

(** The keys that [parseClientMessage] reads. *)
Lemma unread_key (key k : jsstring) (keys : list jsstring) :
  key ∉ keys -> k ∈ keys -> jseqb k key = false.
Proof.
  intros Hout Hin. unfold jseqb. apply bool_decide_eq_false_2.
  intros ->. contradiction.
Qed.

(** X2: a member that the protocol does not name never changes what
    [parseClientMessage] answers: two frames that differ only by members of
    such a key get the same result. *)
Theorem unknown_fields_ignored (raw raw' key : jsstring) (obj : list (jsstring * JSON)) :
  JSON_parse raw = Some (JObj obj) ->
  JSON_parse raw' = Some (JObj (without_field key obj)) ->
  key ∉ [js "type"; js "prompt"; js "requestId"; js "model"; js "systemPrompt";
         js "projectId"; js "provider"; js "thinkingTokens"; js "images"] ->
  parseClientMessage raw' = parseClientMessage raw.
Proof.
  intros Hraw Hraw' Hkey.
  pose proof (unread_key key) as Hk. specialize (fun k => Hk k _ Hkey).
  unfold parseClientMessage. rewrite Hraw, Hraw'.
  unfold parsePrompt, parseCancel. rewrite !ProtocolProps.jlookup_without_field.
  rewrite (Hk (js "type")) by (repeat constructor).
  rewrite (Hk (js "prompt")) by (repeat constructor).
  rewrite (Hk (js "requestId")) by (repeat constructor).
  rewrite (Hk (js "model")) by (repeat constructor).
  rewrite (Hk (js "systemPrompt")) by (repeat constructor).
  rewrite (Hk (js "projectId")) by (repeat constructor).
  rewrite (Hk (js "provider")) by (repeat constructor).
  rewrite (Hk (js "thinkingTokens")) by (repeat constructor).
  rewrite (Hk (js "images")) by (repeat constructor).
  reflexivity.
Qed.

Lemma unknown_fields_ignored_witness :
  parseClientMessage (jsq "{'type':'cancel','requestId':'r1'}")
  = parseClientMessage (jsq "{'type':'cancel','note':'x','requestId':'r1','note':2}").
Proof.
  apply (unknown_fields_ignored
           (jsq "{'type':'cancel','note':'x','requestId':'r1','note':2}")
           (jsq "{'type':'cancel','requestId':'r1'}")
           (js "note")
           [(js "type", JStr (js "cancel")); (js "note", JStr (js "x"));
            (js "requestId", JStr (js "r1"));
            (js "note", JNum {| num_neg := false; num_mant := 2; num_exp10 := 0 |})]).
  - reflexivity.
  - reflexivity.
  - apply (bool_decide_unpack _). reflexivity.
Defined.

End ValidatorProps.

(* ===================================================================== *)
(** * Further properties of the subprocess runners                        *)
(* ===================================================================== *)

Module RunsProps.
Import JS Cli CliRuns.

Section BaseCliProvider.
Context {S Env : Type} `{CliProvider S Env}.

Lemma kills_app (a b : list Effect) : kills (a ++ b) = kills a ++ kills b.
Proof. unfold kills. apply omap_app. Qed.

Lemma kills_Call (l : list HandlerCall) : kills (List.map Call l) = [].
Proof. induction l as [|x l IH]; [reflexivity|exact IH]. Qed.

Lemma kills_Sys (l : list SysEffect) : kills (List.map Sys l) = [].
Proof. induction l as [|x l IH]; [reflexivity|exact IH]. Qed.

(** What [finish] leaves alone. *)
Lemma finish_keeps (pid : nat) (cb : HandlerCall) (r : Runner S) :
  process (fst (finish pid cb r)) = process r
  /\ killed (fst (finish pid cb r)) = killed r
  /\ disposed (fst (finish pid cb r)) = disposed r
  /\ length (execs (fst (finish pid cb r))) = length (execs r)
  /\ kills (snd (finish pid cb r)) = []
  /\ (forall p, option_map options (execs (fst (finish pid cb r)) !! p)
                = option_map options (execs r !! p)).
Proof.
  unfold finish. destruct (execs r !! pid) as [ex|] eqn:Hex; [|repeat split].
  destruct (handlersDone ex); [repeat split|]. cbn.
  repeat split; [apply length_insert|].
  intros p. destruct (decide (pid = p)) as [<-|Hne].
  - rewrite list_lookup_insert_eq by (apply lookup_lt_Some in Hex; exact Hex).
    rewrite Hex. reflexivity.
  - rewrite list_lookup_insert_ne by assumption. reflexivity.
Qed.

(** X3: [kill()] leaves the runner idle, with no child and no timer, and
    calling it again, or [dispose()] again, does nothing: no child is
    signalled by the second call. *)
Theorem kill_idempotent (r : Runner S) :
  isRunning (fst (kill r)) = false
  /\ timeout (fst (kill r)) = None
  /\ kill (fst (kill r)) = (fst (kill r), [])
  /\ dispose (fst (dispose r)) = (fst (dispose r), []).
Proof.
  unfold dispose, kill, isRunning, clearTimeout. destruct r as [p t d k ex s].
  cbn. destruct p; cbn; repeat split.
Qed.

Lemma runs_steps_cons (r : Runner S) (ev : Event) (evs : list Event) :
  steps r (ev :: evs) =
  (fst (steps (fst (step r ev)) evs),
   (ev, snd (step r ev)) :: snd (steps (fst (step r ev)) evs)).
Proof.
  cbn [steps]. destruct (step r ev) as [r1 out]. cbn [fst snd].
  destruct (steps r1 evs); reflexivity.
Qed.

Lemma signal_inv_kill (r : Runner S) (K : list nat) :
  signal_inv r K -> signal_inv (fst (kill r)) (K ++ kills (snd (kill r))).
Proof.
  intros (Hnd & Hold & Hlive). unfold kill, clearTimeout.
  destruct (process (set_timeout None r)) as [p|] eqn:Hp; cbn [fst snd kills omap].
  - cbn [process set_timeout] in Hp. destruct (Hlive p Hp) as [Hlt Hnew].
    split; [|split].
    + apply NoDup_app. split; [exact Hnd|]. split; [|apply NoDup_singleton].
      intros q Hq Hq'. apply list_elem_of_singleton in Hq'. subst q. contradiction.
    + intros q Hq. apply elem_of_app in Hq as [Hq|Hq]; [apply Hold, Hq|].
      apply list_elem_of_singleton in Hq. subst q. exact Hlt.
    + intros q Hq. discriminate.
  - rewrite app_nil_r. split; [exact Hnd|]. split; [exact Hold|exact Hlive].
Qed.

Lemma signal_inv_finish (pid : nat) (cb : HandlerCall) (r : Runner S) (K : list nat) :
  signal_inv r K -> signal_inv (fst (finish pid cb r)) (K ++ kills (snd (finish pid cb r))).
Proof.
  intros (Hnd & Hold & Hlive).
  destruct (finish_keeps pid cb r) as (Hp & _ & _ & Hlen & Hk & _).
  rewrite Hk, app_nil_r. unfold signal_inv. rewrite Hp, Hlen.
  split; [exact Hnd|]. split; [exact Hold|exact Hlive].
Qed.

(** A runner that forgets its child keeps the invariant. *)
Lemma signal_inv_forget (r : Runner S) (s : S) (K : list nat) :
  signal_inv r K -> signal_inv (set_sub s (set_process None r)) K.
Proof.
  intros (Hnd & Hold & _). split; [exact Hnd|]. split; [exact Hold|].
  intros p Hp. discriminate.
Qed.

Section Signals.
(** The subclass signals no child itself. *)
Hypothesis spawn_signals_nothing :
  forall (s : S) (e : Env) (o : RunOptions), kills (snd (fst (spawnProcess s e o))) = [].

Lemma signal_inv_step (r : Runner S) (ev : Event) (K : list nat) :
  signal_inv r K -> signal_inv (fst (step r ev)) (K ++ kills (snd (step r ev))).
Proof.
  intros Hinv. destruct ev as [o e| | |p code sig|p msg|p line|p]; cbn [step].
  - unfold run. destruct (disposed r); [cbn; rewrite app_nil_r; exact Hinv|].
    pose proof (signal_inv_kill r K Hinv) as Hk.
    destruct (kill r) as [r1 out1]. cbn [fst snd] in Hk.
    pose proof (spawn_signals_nothing (sub (set_killed false r1)) e o) as Hs.
    destruct (spawnProcess (sub (set_killed false r1)) e o) as [[s out] status].
    cbn [fst snd] in Hs. destruct Hk as (Hnd & Hold & Hlive).
    destruct status; cbn [fst snd]; rewrite ?kills_app, Hs, ?app_nil_r; cbn [kills omap];
      rewrite ?app_nil_r.
    + split; [exact Hnd|]. cbn [execs process set_sub set_execs set_process set_timeout
                                set_killed].
      split.
      * intros q Hq. rewrite length_app. cbn. specialize (Hold q Hq). lia.
      * intros q [= <-]. rewrite length_app. cbn. split; [lia|].
        intros Hin. specialize (Hold _ Hin). lia.
    + split; [exact Hnd|]. split; [exact Hold|exact Hlive].
    + split; [exact Hnd|]. split; [exact Hold|exact Hlive].
  - apply signal_inv_kill, Hinv.
  - unfold dispose. apply (signal_inv_kill (set_disposed true r)). exact Hinv.
  - unfold on_exit. destruct (execs r !! p) as [ex|];
      [|cbn; rewrite app_nil_r; exact Hinv].
    destruct (onProcessExit (sub (set_process None r)) (options ex)) as [s out].
    pose proof (signal_inv_forget r s K Hinv) as Hf.
    destruct (killed (set_sub s (set_process None r))).
    { cbn [fst snd]. rewrite kills_Sys, app_nil_r. exact Hf. }
    match goal with |- context [finish p ?cb ?r0] =>
      pose proof (signal_inv_finish p cb r0 K Hf) as Hx;
      destruct (finish p cb r0) as [r2 out2] end.
    cbn [fst snd] in *. rewrite kills_app, kills_Sys. exact Hx.
  - unfold on_error. destruct (execs r !! p) as [ex|];
      [|cbn; rewrite app_nil_r; exact Hinv].
    destruct (onProcessExit (sub (set_process None r)) (options ex)) as [s out].
    pose proof (signal_inv_forget r s K Hinv) as Hf.
    match goal with |- context [finish p ?cb ?r0] =>
      pose proof (signal_inv_finish p cb r0 K Hf) as Hx;
      destruct (finish p cb r0) as [r2 out2] end.
    cbn [fst snd] in *. rewrite kills_app, kills_Sys. exact Hx.
  - unfold on_line. destruct (execs r !! p) as [ex|];
      [|cbn; rewrite app_nil_r; exact Hinv].
    destruct (parseStreamLine (sub r) line (requestId (options ex))) as [s cs].
    cbn [fst snd]. rewrite kills_Call, app_nil_r. exact Hinv.
  - destruct (bool_decide (timeout r = Some p)); [|cbn; rewrite app_nil_r; exact Hinv].
    unfold on_timeout. destruct (execs r !! p) as [ex|];
      [|cbn; rewrite app_nil_r; exact Hinv].
    pose proof (signal_inv_kill r K Hinv) as Hk.
    destruct (kill r) as [r1 out1]. cbn [fst snd] in Hk.
    match goal with |- context [finish p ?cb ?r0] =>
      pose proof (signal_inv_finish p cb r0 _ Hk) as Hx;
      destruct (finish p cb r0) as [r2 out2] end.
    cbn [fst snd] in *. rewrite kills_app, app_assoc. exact Hx.
Qed.

Lemma signal_inv_steps (evs : list Event) (r : Runner S) (K : list nat) :
  signal_inv r K ->
  signal_inv (fst (steps r evs)) (K ++ kills_of (snd (steps r evs))).
Proof.
  revert r K. induction evs as [|ev evs IH]; intros r K Hinv.
  - cbn. rewrite app_nil_r. exact Hinv.
  - rewrite runs_steps_cons. cbn [fst snd kills_of flat_map].
    rewrite app_assoc. apply IH, signal_inv_step, Hinv.
Qed.

(** X4: whatever is asked of a runner and whatever its children do, no
    child is sent a signal twice, every child that is sent one was spawned
    by this runner, and the child the runner holds has not been sent one. *)
Theorem child_signalled_once (s : S) (evs : list Event) :
  let r := fst (steps (new s) evs) in
  let signalled := kills_of (snd (steps (new s) evs)) in
  NoDup signalled
  /\ (forall q, q ∈ signalled -> q < length (execs r))
  /\ (forall p, process r = Some p -> p < length (execs r) /\ p ∉ signalled).
Proof.
  apply (signal_inv_steps evs (new s) []).
  split; [constructor|]. split; [intros q Hq; inversion Hq|intros p Hp; discriminate].
Qed.

End Signals.

(** ** The [killed] flag *)

Lemma kill_raises_killed (r : Runner S) :
  (isRunning r = true \/ killed r = true) -> killed (fst (kill r)) = true.
Proof.
  unfold kill, isRunning, clearTimeout. cbn [process set_timeout].
  destruct (process r); cbn; intros [Hr|Hk]; try reflexivity; try exact Hk; discriminate.
Qed.

(** Nothing but a [run] lowers the flag. *)
Lemma step_keeps_killed (r : Runner S) (ev : Event) :
  is_run ev = false -> killed r = true -> killed (fst (step r ev)) = true.
Proof.
  intros Hev Hk. destruct ev as [o e| | |p code sig|p msg|p line|p]; cbn [step];
    try discriminate.
  - apply kill_raises_killed. right. exact Hk.
  - unfold dispose. apply kill_raises_killed. right. exact Hk.
  - unfold on_exit. destruct (execs r !! p) as [ex|]; [|exact Hk].
    destruct (onProcessExit (sub (set_process None r)) (options ex)) as [s out].
    cbn [killed set_sub set_process]. rewrite Hk. exact Hk.
  - unfold on_error. destruct (execs r !! p) as [ex|]; [|exact Hk].
    destruct (onProcessExit (sub (set_process None r)) (options ex)) as [s out].
    match goal with |- context [finish p ?cb ?r0] =>
      destruct (finish_keeps p cb r0) as (_ & Hf & _);
      destruct (finish p cb r0) as [r2 out2] end.
    cbn [fst] in *. rewrite Hf. exact Hk.
  - unfold on_line. destruct (execs r !! p) as [ex|]; [|exact Hk].
    destruct (parseStreamLine (sub r) line (requestId (options ex))) as [s cs].
    exact Hk.
  - destruct (bool_decide (timeout r = Some p)); [|exact Hk].
    unfold on_timeout. destruct (execs r !! p) as [ex|]; [|exact Hk].
    pose proof (kill_raises_killed r (or_intror Hk)) as Hk1.
    destruct (kill r) as [r1 out1]. cbn [fst] in Hk1.
    match goal with |- context [finish p ?cb ?r0] =>
      destruct (finish_keeps p cb r0) as (_ & Hf & _);
      destruct (finish p cb r0) as [r2 out2] end.
    cbn [fst] in *. rewrite Hf. exact Hk1.
Qed.

(** With the flag up, the exit of a child calls no handler. *)
Lemma killed_exit_silent (r : Runner S) (ev : Event) :
  is_exit ev = true -> killed r = true -> calls (snd (step r ev)) = [].
Proof.
  intros Hev Hk. destruct ev as [o e| | |p code sig|p msg|p line|p]; try discriminate.
  cbn [step]. unfold on_exit. destruct (execs r !! p) as [ex|]; [|reflexivity].
  destruct (onProcessExit (sub (set_process None r)) (options ex)) as [s out].
  cbn [killed set_sub set_process]. rewrite Hk. apply CliProps.calls_Sys.
Qed.

Lemma killed_exits_silent (evs : list Event) (r : Runner S) :
  killed r = true ->
  Forall (fun ev => is_run ev = false) evs ->
  Forall (fun entry => is_exit (fst entry) = true -> calls (snd entry) = [])
    (snd (steps r evs)).
Proof.
  revert r. induction evs as [|ev evs IH]; intros r Hk Hevs; [constructor|].
  inversion Hevs as [|? ? Hev Hrest]; subst.
  rewrite runs_steps_cons. cbn [snd]. constructor.
  - cbn [fst snd]. intros Hexit. apply killed_exit_silent; assumption.
  - apply IH; [apply step_keeps_killed; assumption|exact Hrest].
Qed.

(** A disposed runner stays killed whatever happens: [run] returns before
    it lowers the flag. *)
Lemma disposed_keeps_killed (r : Runner S) (ev : Event) :
  disposed r = true -> killed r = true ->
  disposed (fst (step r ev)) = true /\ killed (fst (step r ev)) = true.
Proof.
  intros Hd Hk. split; [apply CliProps.cli_step_disposed, Hd|].
  destruct (is_run ev) eqn:Hev; [|apply step_keeps_killed; assumption].
  destruct ev; try discriminate. cbn [step]. unfold run. rewrite Hd. exact Hk.
Qed.

Lemma disposed_exits_silent (evs : list Event) (r : Runner S) :
  disposed r = true -> killed r = true ->
  Forall (fun entry => is_exit (fst entry) = true -> calls (snd entry) = [])
    (snd (steps r evs)).
Proof.
  revert r. induction evs as [|ev evs IH]; intros r Hd Hk; [constructor|].
  rewrite runs_steps_cons. cbn [snd]. constructor.
  - cbn [fst snd]. intros Hexit. apply killed_exit_silent; assumption.
  - destruct (disposed_keeps_killed r ev Hd Hk) as [Hd' Hk']. apply IH; assumption.
Qed.

(** X5: after [kill()] on a runner that holds a child, the exit of a child
    calls no handler for as long as [run] is not called again; after
    [dispose()] on such a runner, the exit of a child never calls a handler
    again, whatever is asked of the runner. *)
Theorem kill_suppresses_exit (r : Runner S) (evs : list Event) :
  isRunning r = true ->
  (Forall (fun ev => is_run ev = false) evs ->
   Forall (fun entry => is_exit (fst entry) = true -> calls (snd entry) = [])
     (snd (steps (fst (kill r)) evs)))
  /\ Forall (fun entry => is_exit (fst entry) = true -> calls (snd entry) = [])
       (snd (steps (fst (dispose r)) evs)).
Proof.
  intros Hrun. split.
  - intros Hevs. apply killed_exits_silent; [|exact Hevs].
    apply kill_raises_killed. left. exact Hrun.
  - apply disposed_exits_silent.
    + unfold dispose. rewrite CliProps.cli_kill_disposed. reflexivity.
    + unfold dispose. apply kill_raises_killed. left. exact Hrun.
Qed.

(** X6: when the timer of a run fires while the runner still holds the
    child of that run and no final event was delivered, the child is
    signalled and [onError("Process timed out", requestId)] is called, in
    this order and nothing else; the runner is then idle, the exit of the
    child calls no handler, and the timer does not fire a second time. *)
Theorem timeout_reports_once (r : Runner S) (pid : nat) (ex : Exec)
    (exitCode : option Z) (signal : option jsstring) :
  execs r !! pid = Some ex ->
  handlersDone ex = false ->
  timeout r = Some pid ->
  process r = Some pid ->
  let r1 := fst (step r (TimerFire pid)) in
  snd (step r (TimerFire pid))
  = [ChildKill pid; Call (onError (JStr (js "Process timed out")) (requestId (options ex)))]
  /\ isRunning r1 = false
  /\ timeout r1 = None
  /\ calls (snd (step r1 (ChildExit pid exitCode signal))) = []
  /\ snd (step r1 (TimerFire pid)) = [].
Proof.
  intros Hex Hdone Ht Hp.
  assert (Hstep : step r (TimerFire pid)
    = (clearTimeout
         (set_execs (<[pid := {| options := options ex; handlersDone := true |}]> (execs r))
            (set_process None (set_killed true (set_timeout None r)))),
       [ChildKill pid;
        Call (onError (JStr (js "Process timed out")) (requestId (options ex)))])).
  { cbn [step]. rewrite Ht, bool_decide_eq_true_2 by reflexivity.
    unfold on_timeout. rewrite Hex. unfold kill, clearTimeout.
    cbn [process set_timeout]. rewrite Hp. unfold finish.
    cbn [execs set_process set_killed set_timeout]. rewrite Hex, Hdone. reflexivity. }
  rewrite Hstep. cbn [fst snd].
  split; [reflexivity|]. split; [reflexivity|]. split; [reflexivity|]. split.
  - apply killed_exit_silent; reflexivity.
  - reflexivity.
Qed.

(** ** Final events of an execution, its output lines included *)

Lemma cli_calls_map_Call (cs : list HandlerCall) : calls (List.map Call cs) = cs.
Proof. induction cs as [|c cs IH]; [reflexivity|]. cbn. f_equal. exact IH. Qed.

Lemma final_calls_of_cons (pid : nat) (ev : @Event Env) (out : list Effect)
    (trace : list (@Event Env * list Effect)) :
  final_calls_of pid ((ev, out) :: trace)
  = (if concerns pid ev then List.filter is_terminal (calls out) else [])
    ++ final_calls_of pid trace.
Proof.
  unfold final_calls_of, calls_of. cbn [flat_map fst snd].
  rewrite List.filter_app. destruct (concerns pid ev); reflexivity.
Qed.

Section ChunksOnly.
(** The line parser of the subclass calls [onChunk] only. *)
Hypothesis parser_chunks_only :
  forall (s : S) (line rid : jsstring),
    List.filter is_terminal (snd (parseStreamLine s line rid)) = [].

Lemma line_calls_not_final (r : Runner S) (p : nat) (line : jsstring) :
  List.filter is_terminal (calls (snd (step r (ChildLine p line)))) = [].
Proof.
  cbn [step]. unfold on_line. destruct (execs r !! p) as [ex|]; [|reflexivity].
  pose proof (parser_chunks_only (sub r) line (requestId (options ex))) as Hp.
  destruct (parseStreamLine (sub r) line (requestId (options ex))) as [s cs].
  cbn [snd] in *. rewrite cli_calls_map_Call. exact Hp.
Qed.

Lemma final_calls_through_finish (pid : nat) (evs : list Event) (r : Runner S) :
  final_calls_of pid (snd (steps r evs)) = terminal_calls_of pid (snd (steps r evs)).
Proof.
  revert r. induction evs as [|ev evs IH]; intros r; [reflexivity|].
  rewrite runs_steps_cons. cbn [snd]. rewrite final_calls_of_cons.
  cbn [terminal_calls_of]. rewrite IH. f_equal.
  destruct ev as [o e| | |p code sig|p msg|p line|p]; cbn [concerns finishes_for];
    try reflexivity.
  destruct (bool_decide (p = pid)); [|reflexivity].
  apply line_calls_not_final.
Qed.

(** X7: with a subclass whose line parser calls [onChunk] only, one
    execution delivers at most one final event ([onComplete] or [onError])
    over all its events - the lines of its output, its exit, its error and
    its timeout - in any order and however often they occur. *)
Theorem one_final_event (pid : nat) (evs : list Event) (r : Runner S) :
  length (final_calls_of pid (snd (steps r evs))) <= 1.
Proof.
  rewrite final_calls_through_finish. apply CliProps.finish_one_shot.
Qed.

End ChunksOnly.

(** ** The request id of the calls *)

(** The options of a run never change. *)
Lemma step_keeps_options (r : Runner S) (ev : Event) (pid : nat) (o : RunOptions) :
  option_map options (execs r !! pid) = Some o ->
  option_map options (execs (fst (step r ev)) !! pid) = Some o.
Proof.
  intros Ho. destruct ev as [o' e| | |p code sig|p msg|p line|p]; cbn [step].
  - unfold run. destruct (disposed r); [exact Ho|].
    pose proof (CliProps.cli_kill_execs r) as Hk.
    destruct (kill r) as [r1 out1]. cbn [fst] in Hk.
    destruct (spawnProcess (sub (set_killed false r1)) e o') as [[s out] status].
    destruct status; cbn [fst execs set_sub set_killed set_execs set_process set_timeout];
      rewrite Hk; try exact Ho.
    destruct (execs r !! pid) as [ex|] eqn:Hex; [|discriminate].
    rewrite (lookup_app_l_Some _ _ _ _ Hex). exact Ho.
  - rewrite CliProps.cli_kill_execs. exact Ho.
  - unfold dispose. rewrite CliProps.cli_kill_execs. exact Ho.
  - unfold on_exit. destruct (execs r !! p) as [ex|]; [|exact Ho].
    destruct (onProcessExit (sub (set_process None r)) (options ex)) as [s out].
    destruct (killed (set_sub s (set_process None r))); [exact Ho|].
    match goal with |- context [finish p ?cb ?r0] =>
      destruct (finish_keeps p cb r0) as (_ & _ & _ & _ & _ & Hf);
      destruct (finish p cb r0) as [r2 out2] end.
    cbn [fst] in *. rewrite Hf. exact Ho.
  - unfold on_error. destruct (execs r !! p) as [ex|]; [|exact Ho].
    destruct (onProcessExit (sub (set_process None r)) (options ex)) as [s out].
    match goal with |- context [finish p ?cb ?r0] =>
      destruct (finish_keeps p cb r0) as (_ & _ & _ & _ & _ & Hf);
      destruct (finish p cb r0) as [r2 out2] end.
    cbn [fst] in *. rewrite Hf. exact Ho.
  - unfold on_line. destruct (execs r !! p) as [ex|]; [|exact Ho].
    destruct (parseStreamLine (sub r) line (requestId (options ex))) as [s cs].
    exact Ho.
  - destruct (bool_decide (timeout r = Some p)); [|exact Ho].
    unfold on_timeout. destruct (execs r !! p) as [ex|]; [|exact Ho].
    pose proof (CliProps.cli_kill_execs r) as Hk.
    destruct (kill r) as [r1 out1]. cbn [fst] in Hk.
    match goal with |- context [finish p ?cb ?r0] =>
      destruct (finish_keeps p cb r0) as (_ & _ & _ & _ & _ & Hf);
      destruct (finish p cb r0) as [r2 out2] end.
    cbn [fst] in *. rewrite Hf, Hk. exact Ho.
Qed.

Lemma finish_call_id (pid : nat) (cb : HandlerCall) (r : Runner S) (c : HandlerCall) :
  c ∈ calls (snd (finish pid cb r)) -> c = cb.
Proof.
  rewrite CliProps.finish_calls. destruct (execs r !! pid) as [ex|]; [|intros Hc; inversion Hc].
  destruct (handlersDone ex); intros Hc; [inversion Hc|].
  apply list_elem_of_singleton in Hc. exact Hc.
Qed.

Section Tagged.
(** The line parser of the subclass passes on the request id it is given. *)
Hypothesis parser_tags :
  forall (s : S) (line rid : jsstring) (c : HandlerCall),
    c ∈ snd (parseStreamLine s line rid) -> call_id c = rid.

Lemma step_call_id (r : Runner S) (ev : Event) (pid : nat) (o : RunOptions)
    (c : HandlerCall) :
  option_map options (execs r !! pid) = Some o ->
  concerns pid ev = true ->
  c ∈ calls (snd (step r ev)) ->
  call_id c = requestId o.
Proof.
  intros Ho Hev Hc.
  destruct (execs r !! pid) as [ex|] eqn:Hex; [|discriminate].
  cbn in Ho. injection Ho as <-.
  destruct ev as [o' e| | |p code sig|p msg|p line|p]; cbn [concerns] in Hev;
    try discriminate; apply bool_decide_eq_true in Hev; subst p; cbn [step] in Hc.
  - unfold on_exit in Hc. rewrite Hex in Hc.
    destruct (onProcessExit (sub (set_process None r)) (options ex)) as [s out].
    destruct (killed (set_sub s (set_process None r))).
    { cbn [snd] in Hc. rewrite CliProps.calls_Sys in Hc. inversion Hc. }
    match type of Hc with context [finish pid ?cb ?r0] =>
      pose proof (finish_call_id pid cb r0 c) as Hf;
      destruct (finish pid cb r0) as [r2 out2] end.
    cbn [snd] in *. rewrite CliProps.cli_calls_app, CliProps.calls_Sys in Hc.
    rewrite (Hf Hc). destruct (bool_decide (code = Some 0%Z)); reflexivity.
  - unfold on_error in Hc. rewrite Hex in Hc.
    destruct (onProcessExit (sub (set_process None r)) (options ex)) as [s out].
    match type of Hc with context [finish pid ?cb ?r0] =>
      pose proof (finish_call_id pid cb r0 c) as Hf;
      destruct (finish pid cb r0) as [r2 out2] end.
    cbn [snd] in *. rewrite CliProps.cli_calls_app, CliProps.calls_Sys in Hc.
    rewrite (Hf Hc). reflexivity.
  - unfold on_line in Hc. rewrite Hex in Hc.
    pose proof (parser_tags (sub r) line (requestId (options ex)) c) as Hp.
    destruct (parseStreamLine (sub r) line (requestId (options ex))) as [s cs].
    cbn [snd] in *. rewrite cli_calls_map_Call in Hc. apply Hp, Hc.
  - destruct (bool_decide (timeout r = Some pid)); [|inversion Hc].
    unfold on_timeout in Hc. rewrite Hex in Hc.
    pose proof (CliProps.cli_kill_calls r) as Hk.
    destruct (kill r) as [r1 out1]. cbn [snd] in Hk.
    match type of Hc with context [finish pid ?cb ?r0] =>
      pose proof (finish_call_id pid cb r0 c) as Hf;
      destruct (finish pid cb r0) as [r2 out2] end.
    cbn [snd] in *. rewrite CliProps.cli_calls_app, Hk in Hc.
    rewrite (Hf Hc). reflexivity.
Qed.

(** X8: every handler call made on behalf of an execution - by a line of
    its output, its exit, its error or its timeout - carries the request id
    that was given to the [run] that started it, whatever other runs the
    runner has started since. *)
Theorem calls_carry_request_id (pid : nat) (ex : Exec) (evs : list Event) (r : Runner S)
    (c : HandlerCall) :
  execs r !! pid = Some ex ->
  c ∈ calls_of pid (snd (steps r evs)) ->
  call_id c = requestId (options ex).
Proof.
  intros Hex. assert (Ho : option_map options (execs r !! pid) = Some (options ex))
    by (rewrite Hex; reflexivity).
  clear Hex. revert r Ho. induction evs as [|ev evs IH]; intros r Ho Hc.
  - inversion Hc.
  - rewrite runs_steps_cons in Hc. unfold calls_of in Hc.
    cbn [snd flat_map fst] in Hc. apply elem_of_app in Hc as [Hc|Hc].
    + destruct (concerns pid ev) eqn:Hev; [|inversion Hc].
      apply (step_call_id r ev pid _ c Ho Hev Hc).
    + apply (IH (fst (step r ev))); [apply step_keeps_options, Ho|exact Hc].
Qed.

End Tagged.

End BaseCliProvider.

(** ** The three subclasses *)

Lemma test_spawn_signals_nothing (s : TestProvider) (e : unit) (o : RunOptions) :
  kills (snd (fst (spawnProcess s e o))) = [].
Proof. cbn. destruct (failSpawn s); reflexivity. Qed.

Lemma delta_chunks_tagged (delta : option JSON) (rid : jsstring) :
  Forall (fun c => call_id c = rid) (delta_chunks delta rid).
Proof.
  unfold delta_chunks.
  repeat match goal with
         | |- context [if ?b then _ else _] => destruct b
         | |- context [match ?o with Some _ => _ | None => _ end] => destruct o
         end; repeat constructor.
Qed.

Lemma block_chunks_tagged (blocks : list JSON) (rid : jsstring) :
  Forall (fun c => call_id c = rid) (block_chunks blocks rid).
Proof.
  induction blocks as [|block rest IH]; [constructor|].
  assert (Hhead : forall b : JSON,
    Forall (fun c => call_id c = rid)
      ((if is_text (field b "type") "text" && truthy_opt (field b "text")
        then match field b "text" with
             | Some text => [onChunk text rid false]
             | None => []
             end
        else if is_text (field b "type") "thinking" && truthy_opt (field b "thinking")
        then match field b "thinking" with
             | Some text => [onChunk text rid true]
             | None => []
             end
        else [])
       ++ block_chunks rest rid)).
  { intros b. apply Forall_app. split; [|exact IH].
    repeat match goal with
           | |- context [if ?c then _ else _] => destruct c
           | |- context [match ?o with Some _ => _ | None => _ end] => destruct o
           end; repeat constructor. }
  destruct block; [constructor|apply Hhead..].
Qed.

(** The line parsers of the Claude and Codex providers pass on the request
    id they are given. *)
Lemma claude_parser_tags (line rid : jsstring) :
  Forall (fun c => call_id c = rid) (claude_parseStreamLine line rid).
Proof.
  unfold claude_parseStreamLine.
  destruct (blank line); [constructor|].
  destruct (JSON_parse line) as [event|]; [|constructor].
  assert (Hbody : forall ev : JSON,
    Forall (fun c => call_id c = rid)
      (if is_text (field ev "type") "content_block_delta" then
         delta_chunks (field ev "delta") rid
       else if is_text (field ev "type") "stream_event"
               && truthy_opt (field ev "event") then
         if is_text (field_opt (field ev "event") "type") "content_block_delta"
         then delta_chunks (field_opt (field ev "event") "delta") rid
         else []
       else if is_text (field ev "type") "assistant" then
         match field_opt (field ev "message") "content" with
         | Some (JArr blocks) => block_chunks blocks rid
         | _ => []
         end
       else [])).
  { intros ev.
    destruct (is_text (field ev "type") "content_block_delta");
      [apply delta_chunks_tagged|].
    destruct (is_text (field ev "type") "stream_event" && truthy_opt (field ev "event")).
    - destruct (is_text (field_opt (field ev "event") "type") "content_block_delta");
        [apply delta_chunks_tagged|constructor].
    - destruct (is_text (field ev "type") "assistant"); [|constructor].
      destruct (field_opt (field ev "message") "content") as [[]|];
        try constructor. apply block_chunks_tagged. }
  destruct event; [constructor|apply Hbody..].
Qed.

Lemma codex_parser_tags (p : CodexProvider) (line rid : jsstring) :
  Forall (fun c => call_id c = rid) (snd (codex_parseStreamLine p line rid)).
Proof.
  unfold codex_parseStreamLine.
  destruct (blank line); [constructor|].
  destruct (JSON_parse line) as [event|]; [|constructor].
  assert (Hbody : forall ev : JSON,
    Forall (fun c => call_id c = rid)
      (snd (let type := field ev "type" in
            let item := field ev "item" in
            if is_text type "thread.started" && truthy_opt (field ev "thread_id") then
              (set_threadId (field ev "thread_id") p, [])
            else if is_text type "item.completed"
                    && is_text (field_opt item "type") "agent_message"
                    && truthy_opt (field_opt item "text") then
              (p, match field_opt item "text" with
                  | Some text => [onChunk text rid false]
                  | None => []
                  end)
            else if is_text type "item.completed"
                    && is_text (field_opt item "type") "reasoning"
                    && truthy_opt (field_opt item "text") then
              (p, match field_opt item "text" with
                  | Some text => [onChunk text rid true]
                  | None => []
                  end)
            else if is_text type "turn.failed" then
              let msg := or_else (or_else (field_opt (field ev "error") "message")
                                          (field ev "message"))
                                 (Some (JStr (js "Codex turn failed"))) in
              (p, [onError (default JNull msg) rid])
            else if is_text type "error" then
              let msg := or_else (or_else (field ev "message")
                                          (field_opt (field ev "error") "message"))
                                 (Some (JStr (js "Codex error"))) in
              (p, [onError (default JNull msg) rid])
            else (p, [])))).
  { intros ev. cbn zeta.
    repeat match goal with
           | |- context [if ?c then _ else _] => destruct c
           end; cbn [snd];
    repeat match goal with
           | |- context [match ?o with Some _ => _ | None => _ end] => destruct o
           end; repeat constructor. }
  destruct event; [constructor|apply Hbody..].
Qed.

Lemma child_signalled_once_witness :
  NoDup (kills_of (snd (steps test_runner
                          [Run (simple_options (js "first") (js "r1")) tt;
                           Run (simple_options (js "second") (js "r2")) tt;
                           Kill; Kill; Dispose]))).
Proof.
  exact (proj1 (child_signalled_once test_spawn_signals_nothing
                  {| spawnCalled := false; failSpawn := false |}
                  [Run (simple_options (js "first") (js "r1")) tt;
                   Run (simple_options (js "second") (js "r2")) tt;
                   Kill; Kill; Dispose])).
Defined.

Lemma kill_suppresses_exit_witness :
  Forall (fun entry => is_exit (fst entry) = true -> calls (snd entry) = [])
    (snd (steps (fst (kill (fst (run (simple_options (js "hi") (js "r1")) tt test_runner))))
            [ChildLine 0 (js "CHUNK:hello"); ChildExit 0 (Some 0%Z) None])).
Proof.
  assert (Hrun : isRunning (fst (run (simple_options (js "hi") (js "r1")) tt test_runner))
                 = true) by reflexivity.
  apply (proj1 (kill_suppresses_exit
                  (fst (run (simple_options (js "hi") (js "r1")) tt test_runner))
                  [ChildLine 0 (js "CHUNK:hello"); ChildExit 0 (Some 0%Z) None]
                  Hrun)).
  repeat constructor.
Defined.

Lemma timeout_reports_once_witness :
  snd (step (fst (run (simple_options (js "hi") (js "r1")) tt test_runner)) (TimerFire 0))
  = [ChildKill 0; Call (onError (JStr (js "Process timed out")) (js "r1"))].
Proof.
  assert (Hex : execs (fst (run (simple_options (js "hi") (js "r1")) tt test_runner)) !! 0
                = Some {| options := simple_options (js "hi") (js "r1");
                          handlersDone := false |}) by reflexivity.
  assert (Ht : timeout (fst (run (simple_options (js "hi") (js "r1")) tt test_runner))
               = Some 0) by reflexivity.
  assert (Hp : process (fst (run (simple_options (js "hi") (js "r1")) tt test_runner))
               = Some 0) by reflexivity.
  exact (proj1 (timeout_reports_once _ 0 _ (Some 0%Z) None Hex eq_refl Ht Hp)).
Defined.

Lemma one_final_event_witness :
  length (final_calls_of 0
            (snd (@steps _ _ (ClaudeProvider_cli example_number_to_string)
                    (new example_claude)
                    [Run (simple_options (js "hi") (js "r1")) example_env;
                     ChildLine 0 (jsq "{'type':'result','is_error':true}");
                     ChildError 0 (js "EPIPE");
                     ChildExit 0 (Some 1%Z) None]))) <= 1.
Proof.
  apply (@one_final_event _ _ (ClaudeProvider_cli example_number_to_string)).
  intros s line rid. apply ProviderProps.claude_lines_only_chunks.
Defined.

Lemma calls_carry_request_id_witness :
  call_id (onError (JStr (js "boom")) (js "r1")) = js "r1".
Proof.
  apply (@calls_carry_request_id _ _ CodexProvider_cli
           (fun s line rid c Hc =>
              proj1 (Forall_forall _ _) (codex_parser_tags s line rid) c Hc)
           0 {| options := simple_options (js "hi") (js "r1"); handlersDone := false |}
           [Run (simple_options (js "again") (js "r2")) example_env;
            ChildLine 0 (jsq "{'type':'turn.failed','error':{'message':'boom'}}")]
           (fst (run (simple_options (js "hi") (js "r1")) example_env (new example_codex)))).
  - reflexivity.
  - vm_compute. apply list_elem_of_here.
Defined.

End RunsProps.

(* ===================================================================== *)
(** * Exit reconciliation of one execution                                *)
(* ===================================================================== *)

Module ReconciliationProps.
Import JS Cli CliRuns.

Section BaseCliProvider.
Context {S Env : Type} `{CliProvider S Env}.


End BaseCliProvider.



End ReconciliationProps.

(* ===================================================================== *)
(** * Further properties of the Claude and Codex providers                *)
(* ===================================================================== *)

Module SpawnProps.
Import JS Cli CliRuns.

(** What the allowlist lets through: the variables of the list that are
    set, and not empty, in the environment of the server. *)
Lemma allowed_env_spec (keys : list jsstring) (e : SysEnv) (k v : jsstring) :
  (k, v) ∈ allowed_env keys e ->
  k ∈ keys /\ jlookup_str k (process_env e) = Some v /\ v <> [].
Proof.
  unfold allowed_env. intros Hin. apply list_elem_of_omap in Hin as (key & Hkey & Hsome).
  destruct (jlookup_str key (process_env e)) as [[|c w]|] eqn:Hl; try discriminate.
  injection Hsome as <- <-. split; [exact Hkey|]. split; [exact Hl|discriminate].
Qed.

(** The image stage of the Codex provider spawns nothing and calls no
    handler. *)
Lemma codex_write_images_quiet (p : CodexProvider) (e : SysEnv) (o : RunOptions) :
  codexPath (fst (fst (codex_write_images p e o))) = codexPath p
  /\ codex_sessionDir (fst (fst (codex_write_images p e o))) = codex_sessionDir p
  /\ spawns (snd (fst (codex_write_images p e o))) = []
  /\ calls (snd (fst (codex_write_images p e o))) = [].
Proof.
  unfold codex_write_images.
  destruct (images o) as [[|img imgs]|]; [repeat split| |repeat split].
  destruct (mkdir_throws e _); [repeat split|].
  pose proof (ProviderProps.write_images_quiet e
    (path_resolve (process_cwd e) [tmpdir e; js "bridge-ws-images"])
    (requestId o) (img :: imgs) 0 []) as Hq.
  destruct (write_images e _ (requestId o) 0 (img :: imgs) []) as [[ps out] threw].
  cbn [fst snd] in *. destruct Hq as [Hq1 Hq2].
  repeat split; cbn; assumption.
Qed.

Section Providers.
Variable number_to_string : JNumber -> jsstring.

(** X9: the contract of [spawnProcess] with [BaseCliProvider.run], for the
    Claude and the Codex provider: when it returns the child it has spawned
    exactly one process and called no handler; when it returns [null] it has
    spawned none and called [onError] exactly once, with the request id of
    the run, and nothing else; when it raises it has spawned none and called
    no handler. *)
Theorem spawnProcess_contract (claude : ClaudeProvider) (codex : CodexProvider)
    (e : SysEnv) (o : RunOptions) :
  let contract (result : list Effect * SpawnStatus) :=
    match snd result with
    | Spawned => length (spawns (fst result)) = 1 /\ calls (fst result) = []
    | NoProcess =>
        spawns (fst result) = []
        /\ exists message, calls (fst result) = [onError message (requestId o)]
    | Threw => spawns (fst result) = [] /\ calls (fst result) = []
    end in
  contract (snd (fst (claude_spawnProcess number_to_string claude e o)),
            snd (claude_spawnProcess number_to_string claude e o))
  /\ contract (snd (fst (codex_spawnProcess codex e o)),
               snd (codex_spawnProcess codex e o)).
Proof.
  cbn zeta. split.
  - unfold claude_spawnProcess.
    destruct (projectId o) as [[|c pid]|].
    2: destruct (escapes_base _ _); [cbn; split; [reflexivity|eauto]|];
       destruct (mkdir_throws e _); [cbn; split; reflexivity|].
    all: destruct (spawn_throws e); cbn; split; try reflexivity; eauto.
  - unfold codex_spawnProcess.
    destruct (codex_write_images_quiet codex e o) as (_ & _ & Hsp & Hcl).
    destruct (codex_write_images codex e o) as [[p1 out_images] threw].
    cbn [fst snd] in Hsp, Hcl.
    destruct threw; [cbn; split; assumption|].
    destruct (ProviderProps.unlinks_quiet (currentImagePaths p1)) as [Hu1 Hu2].
    destruct (projectId o) as [[|c pid]|].
    2: destruct (escapes_base _ _);
       [cbn [cleanupImages fst snd];
        rewrite !ProviderProps.spawns_app, !ProviderProps.effect_calls_app, Hsp, Hcl, Hu1, Hu2;
        cbn; split; [reflexivity|eauto]|];
       destruct (mkdir_throws e _);
       [cbn [fst snd];
        rewrite !ProviderProps.spawns_app, !ProviderProps.effect_calls_app, Hsp, Hcl;
        cbn; split; reflexivity|].
    all: destruct (spawn_throws e); cbn [cleanupImages fst snd];
         rewrite !ProviderProps.spawns_app, !ProviderProps.effect_calls_app, ?Hsp, ?Hcl,
           ?Hu1, ?Hu2;
         cbn; split; try reflexivity; eauto.
Qed.

(** What the two providers spawn. *)
Lemma claude_spawn_shape (p : ClaudeProvider) (e : SysEnv) (o : RunOptions)
    (info : SpawnInfo) :
  info ∈ spawns (snd (fst (claude_spawnProcess number_to_string p e o))) ->
  command info = claudePath p
  /\ args info = claude_args p o
  /\ env info = match thinkingTokens o with
                | Some n => [(js "MAX_THINKING_TOKENS", number_to_string n)]
                | None => []
                end ++ allowed_env CLAUDE_ENV_KEYS e
  /\ stdin info = (if child_has_stdin e then Some (claude_stdin o) else None).
Proof.
  unfold claude_spawnProcess.
  destruct (projectId o) as [[|c pid]|].
  2: destruct (escapes_base _ _); [cbn [fst snd spawns omap]; intros Hin; inversion Hin|];
     destruct (mkdir_throws e _); [cbn [fst snd spawns omap]; intros Hin; inversion Hin|].
  all: destruct (spawn_throws e); cbn [fst snd app spawns omap]; intros Hin;
       [inversion Hin|];
       apply list_elem_of_singleton in Hin; subst info; repeat split.
Qed.

Lemma codex_spawn_shape (p : CodexProvider) (e : SysEnv) (o : RunOptions)
    (info : SpawnInfo) :
  info ∈ spawns (snd (fst (codex_spawnProcess p e o))) ->
  command info = codexPath p
  /\ env info = allowed_env CODEX_ENV_KEYS e.
Proof.
  unfold codex_spawnProcess.
  destruct (codex_write_images_quiet p e o) as (Hpath & _ & Hsp & _).
  destruct (codex_write_images p e o) as [[p1 out_images] threw].
  cbn [fst snd] in Hpath, Hsp.
  destruct threw; [cbn [fst snd]; rewrite Hsp; intros Hin; inversion Hin|].
  destruct (ProviderProps.unlinks_quiet (currentImagePaths p1)) as [Hu1 _].
  destruct (projectId o) as [[|c pid]|].
  2: destruct (escapes_base _ _);
     [cbn [cleanupImages fst snd]; rewrite !ProviderProps.spawns_app, Hsp, Hu1;
      cbn [app spawns omap]; intros Hin; inversion Hin|];
     destruct (mkdir_throws e _);
     [cbn [fst snd]; rewrite !ProviderProps.spawns_app, Hsp; cbn [app spawns omap];
      intros Hin; inversion Hin|].
  all: destruct (spawn_throws e); cbn [cleanupImages fst snd];
       rewrite !ProviderProps.spawns_app, ?Hsp, ?Hu1; cbn [app spawns omap]; intros Hin;
       [inversion Hin|];
       apply list_elem_of_singleton in Hin; subst info; split; [exact Hpath|reflexivity].
Qed.

(** X10: the environment of a child holds nothing but the allowlisted
    variables of the server's own environment that are set and not empty,
    each with the server's value - and, for the Claude CLI,
    [MAX_THINKING_TOKENS] when the request carries a thinking budget.  In
    particular no other variable of the server reaches a child. *)
Theorem child_env_allowlisted (claude : ClaudeProvider) (codex : CodexProvider)
    (e : SysEnv) (o : RunOptions) :
  (forall info k v,
      info ∈ spawns (snd (fst (claude_spawnProcess number_to_string claude e o))) ->
      (k, v) ∈ env info ->
      (k = js "MAX_THINKING_TOKENS"
       /\ exists n, thinkingTokens o = Some n /\ v = number_to_string n)
      \/ (k ∈ CLAUDE_ENV_KEYS /\ jlookup_str k (process_env e) = Some v /\ v <> []))
  /\ (forall info k v,
        info ∈ spawns (snd (fst (codex_spawnProcess codex e o))) ->
        (k, v) ∈ env info ->
        k ∈ CODEX_ENV_KEYS /\ jlookup_str k (process_env e) = Some v /\ v <> []).
Proof.
  split; intros info k v Hinfo Hkv.
  - destruct (claude_spawn_shape claude e o info Hinfo) as (_ & _ & Henv & _).
    rewrite Henv in Hkv. apply elem_of_app in Hkv as [Hkv|Hkv].
    + left. destruct (thinkingTokens o) as [n|]; [|inversion Hkv].
      apply list_elem_of_singleton in Hkv. injection Hkv as -> ->.
      split; [reflexivity|]. exists n. split; reflexivity.
    + right. apply allowed_env_spec, Hkv.
  - destruct (codex_spawn_shape codex e o info Hinfo) as (_ & Henv).
    rewrite Henv in Hkv. apply allowed_env_spec, Hkv.
Qed.

End Providers.

End SpawnProps.

(* ===================================================================== *)
(** * What the line parsers call                                          *)
(* ===================================================================== *)

Module ParserProps.
Import JS Cli ProviderFiles.

Lemma jseqb_refl (s : jsstring) : jseqb s s = true.
Proof. unfold jseqb. apply bool_decide_eq_true_2. reflexivity. Qed.

(** A chunk behind a truthiness test. *)
Lemma guarded_chunk (P : HandlerCall -> Prop) (b : bool) (v : option JSON)
    (rid : jsstring) (thinking : bool) (rest : list HandlerCall) :
  (forall text, truthy text = true -> P (onChunk text rid thinking)) ->
  Forall P rest ->
  Forall P (if b && truthy_opt v
            then match v with
                 | Some text => [onChunk text rid thinking]
                 | None => []
                 end
            else rest).
Proof.
  intros Hchunk Hrest. destruct b; [|exact Hrest]. destruct v as [text|]; [|exact Hrest].
  cbn. destruct (truthy text) eqn:Ht; [|exact Hrest].
  constructor; [apply Hchunk, Ht|constructor].
Qed.

Lemma chunk_for (rid : jsstring) (thinking : bool) (text : JSON) :
  truthy text = true -> is_chunk_for rid (onChunk text rid thinking) = true.
Proof. intros Ht. cbn. rewrite Ht, jseqb_refl. reflexivity. Qed.

Lemma delta_chunks_chunks (delta : option JSON) (rid : jsstring) :
  Forall (fun c => is_chunk_for rid c = true) (delta_chunks delta rid).
Proof.
  unfold delta_chunks.
  apply guarded_chunk; [apply chunk_for|].
  apply guarded_chunk; [apply chunk_for|constructor].
Qed.

Lemma block_chunks_chunks (blocks : list JSON) (rid : jsstring) :
  Forall (fun c => is_chunk_for rid c = true) (block_chunks blocks rid).
Proof.
  induction blocks as [|block rest IH]; [constructor|].
  assert (Hhead : forall b : JSON,
    Forall (fun c => is_chunk_for rid c = true)
      ((if is_text (field b "type") "text" && truthy_opt (field b "text")
        then match field b "text" with
             | Some text => [onChunk text rid false]
             | None => []
             end
        else if is_text (field b "type") "thinking" && truthy_opt (field b "thinking")
        then match field b "thinking" with
             | Some text => [onChunk text rid true]
             | None => []
             end
        else [])
       ++ block_chunks rest rid)).
  { intros b. apply Forall_app. split; [|exact IH].
    apply guarded_chunk; [apply chunk_for|].
    apply guarded_chunk; [apply chunk_for|constructor]. }
  destruct block; [constructor|apply Hhead..].
Qed.

Lemma claude_parser_chunks (line rid : jsstring) :
  Forall (fun c => is_chunk_for rid c = true) (claude_parseStreamLine line rid).
Proof.
  unfold claude_parseStreamLine.
  destruct (blank line); [constructor|].
  destruct (JSON_parse line) as [event|]; [|constructor].
  assert (Hbody : forall ev : JSON,
    Forall (fun c => is_chunk_for rid c = true)
      (if is_text (field ev "type") "content_block_delta" then
         delta_chunks (field ev "delta") rid
       else if is_text (field ev "type") "stream_event"
               && truthy_opt (field ev "event") then
         if is_text (field_opt (field ev "event") "type") "content_block_delta"
         then delta_chunks (field_opt (field ev "event") "delta") rid
         else []
       else if is_text (field ev "type") "assistant" then
         match field_opt (field ev "message") "content" with
         | Some (JArr blocks) => block_chunks blocks rid
         | _ => []
         end
       else [])).
  { intros ev.
    destruct (is_text (field ev "type") "content_block_delta");
      [apply delta_chunks_chunks|].
    destruct (is_text (field ev "type") "stream_event" && truthy_opt (field ev "event")).
    - destruct (is_text (field_opt (field ev "event") "type") "content_block_delta");
        [apply delta_chunks_chunks|constructor].
    - destruct (is_text (field ev "type") "assistant"); [|constructor].
      destruct (field_opt (field ev "message") "content") as [[]|];
        try constructor. apply block_chunks_chunks. }
  destruct event; [constructor|apply Hbody..].
Qed.

(** The message of a Codex failure is never empty: the last resort is a
    fixed text. *)
Lemma or_else_truthy (a b : option JSON) (fallback : jsstring) :
  fallback <> [] ->
  truthy (default JNull (or_else (or_else a b) (Some (JStr fallback)))) = true.
Proof.
  intros Hne. unfold or_else.
  destruct (truthy_opt a) eqn:Ha.
  - rewrite Ha. destruct a as [v|]; [exact Ha|discriminate].
  - destruct (truthy_opt b) eqn:Hb.
    + destruct b as [v|]; [exact Hb|discriminate].
    + cbn. destruct fallback; [contradiction|reflexivity].
Qed.

Lemma codex_parser_calls (p : CodexProvider) (line rid : jsstring) :
  Forall (fun c => is_chunk_for rid c || is_error_for rid c = true)
    (snd (codex_parseStreamLine p line rid)).
Proof.
  unfold codex_parseStreamLine.
  destruct (blank line); [constructor|].
  destruct (JSON_parse line) as [event|]; [|constructor].
  assert (Hchunk : forall text thinking, truthy text = true ->
            is_chunk_for rid (onChunk text rid thinking)
            || is_error_for rid (onChunk text rid thinking) = true).
  { intros text thinking Ht. rewrite chunk_for by exact Ht. reflexivity. }
  assert (Herror : forall a b fallback, fallback <> [] ->
            is_chunk_for rid
              (onError (default JNull (or_else (or_else a b) (Some (JStr fallback)))) rid)
            || is_error_for rid
                 (onError (default JNull (or_else (or_else a b) (Some (JStr fallback)))) rid)
            = true).
  { intros a b fallback Hne. cbn [is_chunk_for is_error_for orb].
    rewrite or_else_truthy by exact Hne. rewrite jseqb_refl. reflexivity. }
  assert (Hbody : forall ev : JSON,
    Forall (fun c => is_chunk_for rid c || is_error_for rid c = true)
      (snd (let type := field ev "type" in
            let item := field ev "item" in
            if is_text type "thread.started" && truthy_opt (field ev "thread_id") then
              (set_threadId (field ev "thread_id") p, [])
            else if is_text type "item.completed"
                    && is_text (field_opt item "type") "agent_message"
                    && truthy_opt (field_opt item "text") then
              (p, match field_opt item "text" with
                  | Some text => [onChunk text rid false]
                  | None => []
                  end)
            else if is_text type "item.completed"
                    && is_text (field_opt item "type") "reasoning"
                    && truthy_opt (field_opt item "text") then
              (p, match field_opt item "text" with
                  | Some text => [onChunk text rid true]
                  | None => []
                  end)
            else if is_text type "turn.failed" then
              let msg := or_else (or_else (field_opt (field ev "error") "message")
                                          (field ev "message"))
                                 (Some (JStr (js "Codex turn failed"))) in
              (p, [onError (default JNull msg) rid])
            else if is_text type "error" then
              let msg := or_else (or_else (field ev "message")
                                          (field_opt (field ev "error") "message"))
                                 (Some (JStr (js "Codex error"))) in
              (p, [onError (default JNull msg) rid])
            else (p, [])))).
  { intros ev. cbn zeta.
    destruct (is_text (field ev "type") "thread.started" && truthy_opt (field ev "thread_id"));
      [constructor|].
    destruct (is_text (field ev "type") "item.completed"
              && is_text (field_opt (field ev "item") "type") "agent_message").
    { destruct (field_opt (field ev "item") "text") as [text|]; cbn [truthy_opt andb snd].
      - destruct (truthy text) eqn:Ht; cbn [snd].
        + constructor; [apply Hchunk, Ht|constructor].
        + destruct (is_text (field ev "type") "item.completed"
                    && is_text (field_opt (field ev "item") "type") "reasoning");
            cbn [andb].
          * repeat match goal with
                   | |- context [if ?c then _ else _] => destruct c
                   end; cbn [snd]; repeat constructor; apply Herror; discriminate.
          * repeat match goal with
                   | |- context [if ?c then _ else _] => destruct c
                   end; cbn [snd]; repeat constructor; apply Herror; discriminate.
      - rewrite !andb_false_r.
        repeat match goal with
               | |- context [if ?c then _ else _] => destruct c
               end; cbn [snd]; repeat constructor; apply Herror; discriminate. }
    cbn [andb].
    destruct (is_text (field ev "type") "item.completed"
              && is_text (field_opt (field ev "item") "type") "reasoning").
    { destruct (field_opt (field ev "item") "text") as [text|]; cbn [truthy_opt andb snd].
      - destruct (truthy text) eqn:Ht; cbn [snd].
        + constructor; [apply Hchunk, Ht|constructor].
        + repeat match goal with
                 | |- context [if ?c then _ else _] => destruct c
                 end; cbn [snd]; repeat constructor; apply Herror; discriminate.
      - repeat match goal with
               | |- context [if ?c then _ else _] => destruct c
               end; cbn [snd]; repeat constructor; apply Herror; discriminate. }
    cbn [andb].
    repeat match goal with
           | |- context [if ?c then _ else _] => destruct c
           end; cbn [snd]; repeat constructor; apply Herror; discriminate. }
  destruct event; [constructor|apply Hbody..].
Qed.

(** X11: what a line of a child's output can make the providers call.  The
    Claude line parser calls nothing but [onChunk], the Codex line parser
    nothing but [onChunk] and [onError]; every chunk has content, every
    error a message, and every call the request id of the run.  Neither
    parser ever calls [onComplete]: completion is told by the exit of the
    child alone. *)
Theorem line_parsers_call (codex : CodexProvider) (line rid : jsstring) (c : HandlerCall) :
  (c ∈ claude_parseStreamLine line rid -> is_chunk_for rid c = true)
  /\ (c ∈ snd (codex_parseStreamLine codex line rid) ->
      is_chunk_for rid c = true \/ is_error_for rid c = true)
  /\ (forall id, onComplete id ∉ claude_parseStreamLine line rid)
  /\ (forall id, onComplete id ∉ snd (codex_parseStreamLine codex line rid)).
Proof.
  pose proof (proj1 (Forall_forall _ _) (claude_parser_chunks line rid)) as Hclaude.
  pose proof (proj1 (Forall_forall _ _) (codex_parser_calls codex line rid)) as Hcodex.
  split; [apply Hclaude|]. split.
  - intros Hc. apply orb_true_iff, Hcodex, Hc.
  - split; intros id Hc.
    + apply Hclaude in Hc. discriminate.
    + apply Hcodex in Hc. discriminate.
Qed.

End ParserProps.

(* ===================================================================== *)
(** * The temporary image files of the Codex provider                     *)
(* ===================================================================== *)

Module FilesProps.
Import JS Cli ProviderFiles.

Lemma forallb_Forall_iff {A : Type} (f : A -> bool) (l : list A) :
  forallb f l = true <-> Forall (fun x => f x = true) l.
Proof.
  induction l as [|x l IH]; cbn; [split; [constructor|reflexivity]|].
  rewrite andb_true_iff, IH. split.
  - intros [Hx Hl]. constructor; assumption.
  - intros Hall. inversion Hall; subst. split; assumption.
Qed.

Lemma dec_of_uint_no_slash (d : Decimal.uint) :
  Forall (fun c => no_slash c = true) (js (NilEmpty.string_of_uint d)).
Proof.
  induction d; cbn; [constructor|..]; constructor; try reflexivity; assumption.
Qed.

Lemma dec_of_N_no_slash (n : N) : Forall (fun c => no_slash c = true) (dec_of_N n).
Proof. apply dec_of_uint_no_slash. Qed.

Lemma is_alnum_no_slash (c : N) : is_alnum c = true -> no_slash c = true.
Proof.
  unfold no_slash. intros Hc. destruct (N.eqb_spec c slash) as [->|]; [|reflexivity].
  vm_compute in Hc. discriminate.
Qed.

(** [safeId] keeps to the class [[a-zA-Z0-9_-]] and to 64 characters. *)
Lemma safeId_chars (rid : jsstring) :
  Forall (fun c => is_alnum c || (c =? 0x5F)%N || (c =? 0x2D)%N = true) (safeId rid)
  /\ length (safeId rid) <= 64.
Proof.
  unfold safeId. split; [|rewrite length_take; lia].
  apply Forall_take. apply List.Forall_map.
  apply Forall_forall. intros c _.
  destruct (is_alnum c || (c =? 0x5F)%N || (c =? 0x2D)%N) eqn:Hc; [exact Hc|reflexivity].
Qed.

Lemma safeId_no_slash (rid : jsstring) : Forall (fun c => no_slash c = true) (safeId rid).
Proof.
  eapply Forall_impl; [apply safeId_chars|]. intros c Hc. cbn beta in Hc.
  unfold no_slash. destruct (N.eqb_spec c slash) as [->|]; [|reflexivity].
  vm_compute in Hc. discriminate.
Qed.

(** The extension of an image file: one to ten letters or digits. *)
Lemma image_ext_chars (media_type : jsstring) :
  Forall (fun c => is_alnum c = true) (image_ext media_type)
  /\ image_ext media_type <> []
  /\ length (image_ext media_type) <= 10.
Proof.
  unfold image_ext.
  set (rawExt := match split_char slash media_type with
                 | _ :: (c :: sub) :: _ => c :: sub
                 | _ => js "png"
                 end).
  assert (Hall : Forall (fun c => is_alnum c = true) (take 10 (List.filter is_alnum rawExt))).
  { apply Forall_take. apply Forall_forall. intros c Hc.
    apply list_elem_of_In, List.filter_In in Hc. apply Hc. }
  assert (Hlen : length (take 10 (List.filter is_alnum rawExt)) <= 10)
    by (rewrite length_take; lia).
  destruct (take 10 (List.filter is_alnum rawExt)) as [|c ext].
  - split; [repeat constructor|]. split; [discriminate|cbn; lia].
  - split; [exact Hall|]. split; [discriminate|exact Hlen].
Qed.

Lemma image_name_proper (rid : jsstring) (i : nat) (img : Protocol.PromptImage) :
  proper_name (image_name rid i img) = true.
Proof.
  assert (Hdash : 0x2D%N ∈ image_name rid i img).
  { unfold image_name. apply elem_of_app. right. constructor. }
  unfold proper_name. rewrite !andb_true_iff. repeat split.
  - apply negb_true_iff, bool_decide_eq_false_2. intros Heq. rewrite Heq in Hdash.
    inversion Hdash.
  - apply negb_true_iff, bool_decide_eq_false_2. intros Heq. rewrite Heq in Hdash.
    apply list_elem_of_singleton in Hdash. discriminate.
  - apply negb_true_iff, bool_decide_eq_false_2. intros Heq. rewrite Heq in Hdash.
    cbn in Hdash. rewrite !elem_of_cons in Hdash.
    destruct Hdash as [Hd|[Hd|Hd]]; [discriminate|discriminate|inversion Hd].
  - apply (forallb_Forall_iff no_slash). unfold image_name.
    repeat (apply Forall_app; split).
    + apply safeId_no_slash.
    + repeat constructor.
    + apply dec_of_N_no_slash.
    + repeat constructor.
    + eapply Forall_impl; [apply image_ext_chars|]. apply is_alnum_no_slash.
Qed.

(** Joining a name to a directory in normal form. *)
Lemma last_no_slash (name : jsstring) :
  name <> [] -> forallb no_slash name = true ->
  match last name with
  | Some c => (c =? slash)%N
  | None => false
  end = false.
Proof.
  intros Hne Hall. apply forallb_Forall_iff in Hall.
  destruct (last name) as [c|] eqn:Hl; [|reflexivity].
  apply last_Some in Hl as [l' ->]. apply Forall_app in Hall as [_ Hc].
  inversion Hc as [|? ? Hc' _]; subst. unfold no_slash in Hc'.
  apply negb_true_iff in Hc'. exact Hc'.
Qed.

Lemma join_char_nonempty (sep : N) (x : jsstring) (l : list jsstring) :
  x <> [] -> join_char sep (x :: l) <> [].
Proof.
  intros Hx. destruct l as [|y l]; cbn [join_char]; [exact Hx|].
  destruct x; [contradiction|discriminate].
Qed.

Lemma path_join_name (names : list jsstring) (name : jsstring) :
  Forall (fun seg => proper_name seg = true) names ->
  proper_name name = true ->
  path_join [slash :: join_char slash names; name]
  = slash :: join_char slash (names ++ [name]).
Proof.
  intros Hnames Hname.
  destruct (ProviderProps.proper_name_spec name Hname) as (Hn1 & Hn2 & Hn3 & Hn4).
  assert (Hne : name <> []).
  { intros ->. unfold jseqb in Hn1. rewrite bool_decide_eq_true_2 in Hn1 by reflexivity.
    discriminate. }
  unfold path_join. cbn [List.filter].
  change (jseqb (slash :: join_char slash names) []) with false. rewrite Hn1. cbn [negb].
  cbn [join_char].
  assert (Hsegs : normalize_segments false []
                    (split_char slash ((slash :: join_char slash names) ++ slash :: name))
                  = names ++ [name]).
  { rewrite ProviderProps.split_char_app,
      (ProviderProps.split_char_no_sep_id slash name Hn4).
    cbn [split_char]. rewrite N.eqb_refl.
    destruct names as [|seg names'].
    - cbn [join_char split_char app normalize_segments].
      change (jseqb [] []) with true. cbn [orb]. rewrite Hn1, Hn2, Hn3. reflexivity.
    - rewrite ProviderProps.split_join;
        [|discriminate
         |eapply Forall_impl; [exact Hnames|]; intros x Hx;
          apply ProviderProps.proper_name_spec, Hx].
      change (([] :: seg :: names') ++ [name]) with ([] :: ((seg :: names') ++ [name])).
      transitivity (normalize_segments false [] ((seg :: names') ++ [name]));
        [reflexivity|].
      rewrite (ProviderProps.normalize_proper_prefix _ _ _ Hnames), app_nil_r.
      cbn [normalize_segments]. rewrite Hn1, Hn2, Hn3. cbn [orb].
      transitivity (rev (rev (seg :: names')) ++ [name]); [reflexivity|].
      rewrite rev_involutive. reflexivity. }
  unfold path_normalize.
  change ((slash :: join_char slash names) ++ slash :: name)
    with (slash :: (join_char slash names ++ slash :: name)) in *.
  cbv zeta. change (isAbsolute (slash :: join_char slash names ++ slash :: name)) with true.
  cbn [negb]. unfold normalizeString. rewrite Hsegs.
  assert (Hlast : match last (slash :: join_char slash names ++ slash :: name) with
                  | Some c => (c =? slash)%N
                  | None => false
                  end = false).
  { replace (slash :: join_char slash names ++ slash :: name)
      with ((slash :: join_char slash names ++ [slash]) ++ name)
      by (cbn [app]; rewrite <- app_assoc; reflexivity).
    rewrite last_app. pose proof (last_no_slash name Hne Hn4) as Hl.
    destruct (last name) as [c|] eqn:Hlast; [exact Hl|].
    apply last_None in Hlast. contradiction. }
  rewrite Hlast.
  destruct (join_char slash (names ++ [name])) as [|c rest] eqn:Hj; [|reflexivity].
  exfalso. destruct names as [|seg names'].
  - cbn in Hj. contradiction.
  - inversion Hnames as [|? ? Hseg _]; subst.
    destruct (ProviderProps.proper_name_spec seg Hseg) as (Hs1 & _).
    revert Hj. apply (join_char_nonempty slash seg (names' ++ [name])).
    intros ->. unfold jseqb in Hs1. rewrite bool_decide_eq_true_2 in Hs1 by reflexivity.
    discriminate.
Qed.

(** ** What is written and what is removed *)

Lemma written_app (a b : list Effect) : written (a ++ b) = written a ++ written b.
Proof. unfold written. apply omap_app. Qed.

Lemma unlinked_app (a b : list Effect) : unlinked (a ++ b) = unlinked a ++ unlinked b.
Proof. unfold unlinked. apply omap_app. Qed.

Lemma unlinked_unlinks (l : list jsstring) :
  unlinked (List.map Sys (List.map Unlink l)) = l /\ written (List.map Sys (List.map Unlink l)) = [].
Proof.
  induction l as [|x l [IH1 IH2]]; [split; reflexivity|].
  split; [cbn; f_equal; exact IH1|exact IH2].
Qed.

Lemma write_images_written (e : SysEnv) (imgDir rid : jsstring)
    (imgs : list Protocol.PromptImage) (i : nat) (paths : list jsstring) :
  let result := write_images e imgDir rid i imgs paths in
  Forall (fun path => exists j img, path = image_path imgDir rid j img)
    (written (snd (fst result)))
  /\ unlinked (snd (fst result)) = []
  /\ (snd result = false -> fst (fst result) = paths ++ written (snd (fst result))).
Proof.
  revert i paths. induction imgs as [|img imgs IH]; intros i paths; cbn [write_images].
  - cbn. split; [constructor|]. split; [reflexivity|]. intros _. rewrite app_nil_r. reflexivity.
  - destruct (write_throws e (image_path imgDir rid i img)).
    + cbn. split; [repeat constructor; eauto|]. split; [reflexivity|discriminate].
    + specialize (IH (Datatypes.S i) (paths ++ [image_path imgDir rid i img])).
      destruct (write_images e imgDir rid (Datatypes.S i) imgs
                  (paths ++ [image_path imgDir rid i img])) as [[ps out] threw].
      cbn [fst snd written omap] in *. destruct IH as (IH1 & IH2 & IH3).
      split; [constructor; [eauto|exact IH1]|]. split; [exact IH2|].
      intros Hth. rewrite (IH3 Hth), <- app_assoc. reflexivity.
Qed.

Lemma codex_write_images_written (p : CodexProvider) (e : SysEnv) (o : RunOptions) :
  let result := codex_write_images p e o in
  Forall (fun path => exists j img, path = image_path (image_dir e) (requestId o) j img)
    (written (snd (fst result)))
  /\ unlinked (snd (fst result)) = []
  /\ (snd result = false -> currentImagePaths (fst (fst result)) = written (snd (fst result))).
Proof.
  unfold codex_write_images.
  destruct (images o) as [[|img imgs]|];
    [cbn; split; [constructor|split; reflexivity]|
    |cbn; split; [constructor|split; reflexivity]].
  fold (image_dir e).
  destruct (mkdir_throws e (image_dir e)).
  { cbn. split; [constructor|]. split; [reflexivity|discriminate]. }
  pose proof (write_images_written e (image_dir e) (requestId o) (img :: imgs) 0 []) as Hw.
  destruct (write_images e (image_dir e) (requestId o) 0 (img :: imgs) [])
    as [[ps out] threw].
  cbn [fst snd written omap currentImagePaths set_currentImagePaths] in *.
  destruct Hw as (H1 & H2 & H3). split; [exact H1|]. split; [exact H2|exact H3].
Qed.

(** What [spawnProcess] of the Codex provider writes, records and removes. *)
Lemma codex_spawn_files (p : CodexProvider) (e : SysEnv) (o : RunOptions) :
  let result := codex_spawnProcess p e o in
  Forall (fun path => exists j img, path = image_path (image_dir e) (requestId o) j img)
    (written (snd (fst result)))
  /\ match snd result with
     | Spawned =>
         currentImagePaths (fst (fst result)) = written (snd (fst result))
         /\ unlinked (snd (fst result)) = []
     | NoProcess =>
         currentImagePaths (fst (fst result)) = []
         /\ unlinked (snd (fst result)) = written (snd (fst result))
     | Threw => True
     end.
Proof.
  unfold codex_spawnProcess.
  pose proof (codex_write_images_written p e o) as Hw.
  destruct (codex_write_images p e o) as [[p1 out_images] threw].
  cbn [fst snd] in Hw. destruct Hw as (Hin & Hun & Hrec).
  destruct threw; [cbn [fst snd]; split; [exact Hin|exact I]|].
  specialize (Hrec eq_refl).
  destruct (unlinked_unlinks (currentImagePaths p1)) as [Hu1 Hu2].
  destruct (projectId o) as [[|c pid]|].
  2: destruct (escapes_base _ _);
     [cbn [cleanupImages fst snd];
      rewrite !written_app, !unlinked_app, Hu1, Hu2, Hun, Hrec; cbn;
      rewrite !app_nil_r; split; [exact Hin|split; reflexivity]|];
     destruct (mkdir_throws e _);
     [cbn [fst snd]; rewrite !written_app; cbn; rewrite !app_nil_r;
      split; [exact Hin|exact I]|].
  all: destruct (spawn_throws e); cbn [cleanupImages fst snd];
       rewrite !written_app, !unlinked_app, ?Hu1, ?Hu2, ?Hun; cbn;
       rewrite ?app_nil_r; (split; [exact Hin|]); split; try reflexivity; exact Hrec.
Qed.

(** X12: every file the Codex provider writes for the images of a request
    lies directly in the directory [bridge-ws-images] of the temporary
    directory, whatever the request id and the media types say: its name is
    made of at most 64 characters of the request id outside of which every
    character other than letters, digits, [_] and [-] was replaced, the
    index of the image and an extension of letters and digits. *)
Theorem image_files_in_image_dir (p : CodexProvider) (e : SysEnv) (o : RunOptions)
    (path : jsstring) :
  isAbsolute (process_cwd e) = true ->
  path ∈ written (snd (fst (codex_spawnProcess p e o))) ->
  exists (i : nat) (img : Protocol.PromptImage),
    path_names path = path_names (image_dir e) ++ [image_name (requestId o) i img]
    /\ proper_name (image_name (requestId o) i img) = true.
Proof.
  intros Hcwd Hin.
  destruct (codex_spawn_files p e o) as [Hall _]. cbn zeta in Hall.
  apply (proj1 (Forall_forall _ _) Hall) in Hin as (i & img & ->).
  exists i, img. split; [|apply image_name_proper].
  destruct (ProviderProps.path_resolve_normal (process_cwd e)
              [tmpdir e; js "bridge-ws-images"] Hcwd) as (Hdir & Hproper & Hnames).
  fold (image_dir e) in Hdir, Hnames.
  assert (Hpath : image_path (image_dir e) (requestId o) i img
                  = path_join [image_dir e; image_name (requestId o) i img])
    by reflexivity.
  rewrite Hpath, Hnames, Hdir.
  etransitivity;
    [apply (f_equal path_names),
       (path_join_name _ _ Hproper (image_name_proper (requestId o) i img))|].
  apply ProviderProps.path_names_absolute.
  apply Forall_app. split; [exact Hproper|].
  constructor; [apply image_name_proper|constructor].
Qed.

Lemma image_files_in_image_dir_witness :
  exists (i : nat) (img : Protocol.PromptImage),
    path_names (js "/tmp/bridge-ws-images/______etc_passwd-0.png")
    = path_names (image_dir example_env) ++ [image_name (js "../../etc/passwd") i img]
    /\ proper_name (image_name (js "../../etc/passwd") i img) = true.
Proof.
  apply (image_files_in_image_dir example_codex example_env
           {| prompt := js "hi"; model := None; systemPrompt := None; projectId := None;
              requestId := js "../../etc/passwd"; thinkingTokens := None;
              images := Some [{| Protocol.media_type := js "image/png";
                                 Protocol.data := js "AAAA" |}] |}
           (js "/tmp/bridge-ws-images/______etc_passwd-0.png")).
  - reflexivity.
  - vm_compute. apply list_elem_of_here.
Defined.

(** The line parser of the Codex provider leaves the recorded files alone. *)
Lemma codex_line_keeps_paths (p : CodexProvider) (line rid : jsstring) :
  currentImagePaths (fst (codex_parseStreamLine p line rid)) = currentImagePaths p.
Proof.
  unfold codex_parseStreamLine.
  repeat match goal with
         | |- context [if ?b then _ else _] => destruct b
         | |- context [match JSON_parse ?l with _ => _ end] => destruct (JSON_parse l) as [[]|]
         end; reflexivity.
Qed.

Lemma unlinked_calls (cs : list HandlerCall) : unlinked (List.map Call cs) = [].
Proof. induction cs as [|c cs IH]; [reflexivity|exact IH]. Qed.

Lemma kill_keeps_files {S Env : Type} `{CliProvider S Env} (r : Runner S) :
  sub (fst (kill r)) = sub r /\ execs (fst (kill r)) = execs r
  /\ unlinked (snd (kill r)) = [].
Proof.
  unfold kill, clearTimeout. destruct r as [pr tm ds kl exs sb].
  cbn [process set_timeout]. destruct pr; repeat split.
Qed.

Lemma finish_keeps_files {S Env : Type} `{CliProvider S Env}
    (pid : nat) (cb : HandlerCall) (r : Runner S) :
  sub (fst (finish pid cb r)) = sub r
  /\ length (execs (fst (finish pid cb r))) = length (execs r)
  /\ unlinked (snd (finish pid cb r)) = [].
Proof.
  unfold finish. destruct (execs r !! pid) as [ex|]; [|repeat split].
  destruct (handlersDone ex); [repeat split|].
  cbn [fst snd sub clearTimeout set_timeout set_execs execs].
  rewrite length_insert. repeat split.
Qed.

(** Nothing but a run, an exit or an error touches the files of the Codex
    provider or the list it keeps of them. *)
Lemma step_keeps_files (r : Runner CodexProvider) (ev : Event) :
  keeps_files ev = true ->
  currentImagePaths (sub (fst (step r ev))) = currentImagePaths (sub r)
  /\ length (execs (fst (step r ev))) = length (execs r)
  /\ unlinked (snd (step r ev)) = [].
Proof.
  destruct ev as [o e| | |p code sig|p msg|p line|p]; cbn [keeps_files step];
    try discriminate; intros _.
  - destruct (kill_keeps_files r) as (Hs & He & Hu). rewrite Hs, He, Hu. repeat split.
  - unfold dispose. destruct (kill_keeps_files (set_disposed true r)) as (Hs & He & Hu).
    rewrite Hs, He, Hu. repeat split.
  - unfold on_line. destruct (execs r !! p) as [ex|]; [|repeat split].
    change (@parseStreamLine _ _ CodexProvider_cli) with codex_parseStreamLine.
    pose proof (codex_line_keeps_paths (sub r) line (requestId (options ex))) as Hl.
    destruct (codex_parseStreamLine (sub r) line (requestId (options ex))) as [s cs].
    cbn [fst snd sub set_sub execs] in *. rewrite Hl, unlinked_calls. repeat split.
  - destruct (bool_decide (timeout r = Some p)); [|repeat split].
    unfold on_timeout. destruct (execs r !! p) as [ex|]; [|repeat split].
    destruct (kill_keeps_files r) as (Hs & He & Hu).
    destruct (kill r) as [r1 out1]. cbn [fst snd] in Hs, He, Hu.
    match goal with |- context [finish p ?cb r1] =>
      destruct (finish_keeps_files p cb r1) as (Hs' & He' & Hu');
      destruct (finish p cb r1) as [r2 out2] end.
    cbn [fst snd] in *. rewrite Hs', He', Hs, He, unlinked_app, Hu, Hu'. repeat split.
Qed.

Lemma steps_keep_files (evs : list Event) (r : Runner CodexProvider) :
  forallb keeps_files evs = true ->
  currentImagePaths (sub (fst (steps r evs))) = currentImagePaths (sub r)
  /\ length (execs (fst (steps r evs))) = length (execs r)
  /\ unlinked_of (snd (steps r evs)) = [].
Proof.
  revert r. induction evs as [|ev evs IH]; intros r Hall; [repeat split|].
  cbn [forallb] in Hall. apply andb_true_iff in Hall as [Hev Hall].
  rewrite CliProps.cli_steps_cons. cbn [fst snd unlinked_of flat_map].
  destruct (step_keeps_files r ev Hev) as (Hs & He & Hu).
  destruct (IH (fst (step r ev)) Hall) as (Hs' & He' & Hu').
  rewrite Hs', He', Hs, He, Hu. cbn [app]. repeat split. exact Hu'.
Qed.

(** What the exit and the error listener of a child remove: the files the
    Codex provider has on its list. *)
Lemma codex_end_unlinks (r : Runner CodexProvider) (pid : nat) :
  pid < length (execs r) ->
  (forall exitCode signal,
     unlinked (snd (on_exit pid exitCode signal r)) = currentImagePaths (sub r)
     /\ currentImagePaths (sub (fst (on_exit pid exitCode signal r))) = [])
  /\ (forall message,
        unlinked (snd (on_error pid message r)) = currentImagePaths (sub r)
        /\ currentImagePaths (sub (fst (on_error pid message r))) = []).
Proof.
  intros Hpid. apply lookup_lt_is_Some_2 in Hpid as [ex Hex]. split.
  - intros exitCode signal. unfold on_exit. rewrite Hex.
    cbn [onProcessExit CodexProvider_cli cleanupImages sub set_process killed set_sub].
    destruct (killed r).
    + cbn [fst snd sub set_sub]. rewrite (proj1 (unlinked_unlinks _)). split; reflexivity.
    + match goal with |- context [finish pid ?cb ?r1] =>
        destruct (finish_keeps_files pid cb r1) as (Hs & _ & Hu);
        destruct (finish pid cb r1) as [r2 out2] end.
      cbn [fst snd] in *. rewrite unlinked_app, Hu, app_nil_r, Hs.
      rewrite (proj1 (unlinked_unlinks _)). split; reflexivity.
  - intros message. unfold on_error. rewrite Hex.
    cbn [onProcessExit CodexProvider_cli cleanupImages sub set_process killed set_sub].
    match goal with |- context [finish pid ?cb ?r1] =>
      destruct (finish_keeps_files pid cb r1) as (Hs & _ & Hu);
      destruct (finish pid cb r1) as [r2 out2] end.
    cbn [fst snd] in *. rewrite unlinked_app, Hu, app_nil_r, Hs.
    rewrite (proj1 (unlinked_unlinks _)). split; reflexivity.
Qed.

(** X13: when the temporary image files of a Codex request are removed.  A
    [run] that neither raises nor spawns a child (a refused projectId, a
    failed spawn) has removed every file it wrote.  A [run] that spawns a
    child removes none, and neither does anything that happens next short of
    another [run] - output lines, the timer, [kill()], [dispose()]; the next
    exit or error of a child of the runner - this run's or an earlier one's -
    then removes exactly the files this run wrote, in the order they were
    written, and the list of files is empty afterwards.  The provider keeps
    one list of files for the runner, which the next [run] resets: nothing
    is stated about a run that is followed by another before a child
    ends. *)
Theorem codex_images_removed (r : Runner CodexProvider) (e : SysEnv) (o : RunOptions)
    (evs : list Event) :
  disposed r = false ->
  Raised ∉ snd (run o e r) ->
  forallb keeps_files evs = true ->
  let r1 := fst (run o e r) in
  let r2 := fst (steps r1 evs) in
  if isRunning r1 then
    unlinked (snd (run o e r)) = []
    /\ unlinked_of (snd (steps r1 evs)) = []
    /\ (forall (pid : nat) (exitCode : option Z) (signal : option jsstring),
          pid < length (execs r1) ->
          unlinked (snd (on_exit pid exitCode signal r2)) = written (snd (run o e r))
          /\ currentImagePaths (sub (fst (on_exit pid exitCode signal r2))) = [])
    /\ (forall (pid : nat) (message : jsstring),
          pid < length (execs r1) ->
          unlinked (snd (on_error pid message r2)) = written (snd (run o e r))
          /\ currentImagePaths (sub (fst (on_error pid message r2))) = [])
  else unlinked (snd (run o e r)) = written (snd (run o e r)).
Proof.
  intros Hd Hraised Hall r1 r2.
  assert (Hrun : if isRunning r1
                 then unlinked (snd (run o e r)) = []
                      /\ currentImagePaths (sub r1) = written (snd (run o e r))
                 else unlinked (snd (run o e r)) = written (snd (run o e r))).
  { subst r1 r2. clear Hall evs. revert Hraised. unfold run. rewrite Hd.
    assert (Hk : written (snd (kill r)) = [] /\ unlinked (snd (kill r)) = []
                 /\ process (fst (kill r)) = None).
    { clear Hd. unfold kill, clearTimeout. destruct r as [pr tm ds kl exs sb].
      cbn [process set_timeout]. destruct pr; cbn; repeat split. }
    destruct (kill r) as [r0 out_kill]. cbn [fst snd] in Hk.
    destruct Hk as (Hkw & Hku & Hkp).
    cbn [sub set_killed].
    change (@spawnProcess _ _ CodexProvider_cli) with codex_spawnProcess.
    pose proof (codex_spawn_files (sub r0) e o) as Hf. cbn zeta in Hf.
    destruct (codex_spawnProcess (sub r0) e o) as [[p1 out] status].
    cbn [fst snd] in Hf. destruct Hf as [_ Hf].
    destruct status; cbn [fst snd]; intros Hraised.
    - destruct Hf as [Hrec Hun].
      cbn [isRunning process set_process set_execs set_timeout sub set_sub].
      rewrite !unlinked_app, !written_app, Hkw, Hku, Hun. cbn [app].
      split; [reflexivity|exact Hrec].
    - destruct Hf as [_ Hun]. unfold isRunning. cbn [process set_sub set_killed].
      rewrite Hkp. rewrite !unlinked_app, !written_app, Hkw, Hku. cbn [app]. exact Hun.
    - exfalso. apply Hraised. rewrite !elem_of_app. right. right. constructor. }
  destruct (isRunning r1); [|exact Hrun].
  destruct Hrun as [Hun Hrec].
  destruct (steps_keep_files evs r1 Hall) as (Hs & He & Hu). fold r2 in Hs, He.
  split; [exact Hun|]. split; [exact Hu|]. split.
  - intros pid exitCode signal Hpid. rewrite <- He in Hpid.
    destruct (codex_end_unlinks r2 pid Hpid) as [Hexit _].
    rewrite <- Hrec, <- Hs. apply Hexit.
  - intros pid message Hpid. rewrite <- He in Hpid.
    destruct (codex_end_unlinks r2 pid Hpid) as [_ Herror].
    rewrite <- Hrec, <- Hs. apply Herror.
Qed.

Lemma not_raised (out : list Effect) :
  forallb (fun e => match e with Raised => false | _ => true end) out = true ->
  Raised ∉ out.
Proof.
  intros Hall Hin. rewrite forallb_forall in Hall.
  apply list_elem_of_In in Hin. apply Hall in Hin. discriminate.
Qed.

Lemma codex_images_removed_witness :
  unlinked (snd (on_exit 0 (Some 0%Z) None
                   (fst (steps
                           (fst (run {| prompt := js "hi"; model := None;
                                        systemPrompt := None; projectId := None;
                                        requestId := js "r1"; thinkingTokens := None;
                                        images := Some [{| Protocol.media_type := js "image/png";
                                                           Protocol.data := js "AAAA" |}] |}
                                   example_env (new example_codex)))
                           [ChildLine 0 (jsq "{'type':'thread.started','thread_id':'t1'}");
                            Kill]))))
  = [js "/tmp/bridge-ws-images/r1-0.png"].
Proof.
  assert (Hd : disposed (new example_codex) = false) by reflexivity.
  assert (Hr : Raised ∉ snd (run {| prompt := js "hi"; model := None; systemPrompt := None;
                                   projectId := None; requestId := js "r1";
                                   thinkingTokens := None;
                                   images := Some [{| Protocol.media_type := js "image/png";
                                                      Protocol.data := js "AAAA" |}] |}
                              example_env (new example_codex))).
  { apply not_raised. vm_compute. reflexivity. }
  assert (Hall : forallb keeps_files
                   [@ChildLine SysEnv 0 (jsq "{'type':'thread.started','thread_id':'t1'}");
                    Kill] = true) by reflexivity.
  assert (Hpid : 0 < 1) by lia.
  exact (proj1 (proj1 (proj2 (proj2 (codex_images_removed (new example_codex) example_env _
                         _ Hd Hr Hall))) 0 (Some 0%Z) None Hpid)).
Defined.

(** The list of files is the runner's, not the run's: when a second [run]
    starts before the child of the first has ended, the exit of the first
    child removes the file of the second request, and the file of the first
    is removed by nothing. *)
Lemma codex_rerun_forgets_images :
  List.map (fun entry => (written (snd entry), unlinked (snd entry)))
    (snd (steps (new example_codex)
            [Run {| prompt := js "a"; model := None; systemPrompt := None;
                    projectId := None; requestId := js "r1"; thinkingTokens := None;
                    images := Some [{| Protocol.media_type := js "image/png";
                                       Protocol.data := js "AAAA" |}] |} example_env;
             Run {| prompt := js "b"; model := None; systemPrompt := None;
                    projectId := None; requestId := js "r2"; thinkingTokens := None;
                    images := Some [{| Protocol.media_type := js "image/png";
                                       Protocol.data := js "BBBB" |}] |} example_env;
             ChildExit 0 None (Some (js "SIGTERM"));
             ChildExit 1 (Some 0%Z) None]))
  = [([js "/tmp/bridge-ws-images/r1-0.png"], []);
     ([js "/tmp/bridge-ws-images/r2-0.png"], []);
     ([], [js "/tmp/bridge-ws-images/r2-0.png"]);
     ([], [])].
Proof. vm_compute. reflexivity. Qed.

Lemma accepted_projectId_resolution_witness :
  path_names (project_cwd example_env (js "bridge-ws-sessions") (js "demo"))
  = path_names (session_base example_env (js "bridge-ws-sessions")) ++ [js "demo"].
Proof.
  apply (ProviderProps.accepted_projectId_resolution example_env
           (js "bridge-ws-sessions") (js "demo")); reflexivity.
Defined.

End FilesProps.

(* ===================================================================== *)
(** * Further properties of the HTTP streaming runner                     *)
(* ===================================================================== *)

Module OllamaRunsProps.
Import JS Ollama OllamaRuns.
Import Cli (RunOptions, HandlerCall, onChunk, onComplete, onError).

Lemma trace_cons (p : OllamaProvider) (ev : Event) (evs : list Event) :
  trace p (ev :: evs) =
  (fst (trace (fst (step p ev)) evs),
   (ev, snd (step p ev)) :: snd (trace (fst (step p ev)) evs)).
Proof.
  cbn [trace]. destruct (step p ev) as [p1 out]. cbn [fst snd].
  destruct (trace p1 evs); reflexivity.
Qed.

(** ** What a step leaves of a request *)

Lemma persists_refl (q : Request) : persists q q.
Proof. repeat split; auto. Qed.

Lemma lookup_update_ne (j k : nat) (f : Request -> Request) (p : OllamaProvider) :
  j <> k -> requests (update j f p) !! k = requests p !! k.
Proof. intros Hne. cbn. apply list_lookup_alter_ne. exact Hne. Qed.

Lemma lookup_settle_ne (j k : nat) (p : OllamaProvider) :
  j <> k -> requests (settle j p) !! k = requests p !! k.
Proof. intros Hne. cbn. apply list_lookup_alter_ne. exact Hne. Qed.

Lemma update_persists (j k : nat) (f : Request -> Request) (p : OllamaProvider)
    (q : Request) :
  requests p !! k = Some q ->
  (j = k -> persists q (f q)) ->
  exists q', requests (update j f p) !! k = Some q' /\ persists q q'.
Proof.
  intros Hq Hf. destruct (decide (j = k)) as [->|Hne].
  - exists (f q). split; [apply OllamaProps.lookup_update, Hq|apply Hf; reflexivity].
  - exists q. rewrite lookup_update_ne by exact Hne. split; [exact Hq|apply persists_refl].
Qed.

Lemma settle_persists (j k : nat) (p : OllamaProvider) (q : Request) :
  requests p !! k = Some q ->
  exists q', requests (settle j p) !! k = Some q' /\ persists q q'.
Proof.
  intros Hq. destruct (decide (j = k)) as [->|Hne].
  - eexists. split; [apply OllamaProps.lookup_settle, Hq|]. repeat split; auto.
  - exists q. rewrite lookup_settle_ne by exact Hne. split; [exact Hq|apply persists_refl].
Qed.

Lemma kill_persists (k : nat) (p : OllamaProvider) (q : Request) :
  requests p !! k = Some q ->
  exists q', requests (fst (kill p)) !! k = Some q' /\ persists q q'.
Proof.
  intros Hq. unfold kill. destruct (abortController p) as [j|];
    [|exists q; split; [exact Hq|apply persists_refl]].
  cbn [fst]. apply (update_persists j k (set_aborted true) p q Hq).
  intros _. repeat split; auto.
Qed.

Lemma persists_trans (q1 q2 q3 : Request) :
  persists q1 q2 -> persists q2 q3 -> persists q1 q3.
Proof.
  intros (A1 & S1 & O1) (A2 & S2 & O2). repeat split; auto. congruence.
Qed.

Lemma fst_rejected (k : nat) (q : Request) (thrown : option jsstring) (p : OllamaProvider) :
  fst (rejected k q thrown p) = settle k p.
Proof. unfold rejected. destruct (aborted q); reflexivity. Qed.

(** Whatever happens to a runner, a request stays what it was: aborted,
    settled, with its options. *)
Lemma step_persists (ev : Event) (k : nat) (p : OllamaProvider) (q : Request) :
  requests p !! k = Some q ->
  exists q', requests (fst (step p ev)) !! k = Some q' /\ persists q q'.
Proof.
  intros Hq. destruct ev as [o| | |j resp|j]; cbn [step].
  - unfold run. destruct (disposed p); [exists q; split; [exact Hq|apply persists_refl]|].
    destruct (kill_persists k p q Hq) as (q' & Hq' & Hp).
    destruct (kill p) as [p1 out1]. cbn [fst] in Hq'. cbn [fst requests set_requests
                                                             set_abortController].
    exists q'. split; [|exact Hp]. apply lookup_app_l_Some, Hq'.
  - apply kill_persists, Hq.
  - unfold dispose. apply (kill_persists k (set_disposed true p) q Hq).
  - unfold on_response.
    destruct (requests p !! j) as [qj|] eqn:Hj;
      [|exists q; split; [exact Hq|apply persists_refl]].
    assert (Hsame : j = k -> qj = q) by (intros ->; congruence).
    destruct (phase qj) eqn:Hph, resp;
      try (exists q; split; [exact Hq|apply persists_refl]);
      unfold resolved; rewrite ?fst_rejected;
      repeat match goal with
             | |- context [if ?b then _ else _] => destruct b
             | |- context [match process_lines ?l ?r with _ => _ end] =>
                 destruct (process_lines l r)
             end;
      cbn [fst]; rewrite ?fst_rejected;
      try apply settle_persists; try exact Hq;
      apply update_persists; try exact Hq;
      intros Hjk; rewrite <- (Hsame Hjk); repeat split; auto;
      rewrite Hph; discriminate.
  - unfold on_timeout. destruct (requests p !! j) as [qj|] eqn:Hj;
      [|exists q; split; [exact Hq|apply persists_refl]].
    destruct (timer qj); [|exists q; split; [exact Hq|apply persists_refl]].
    destruct (update_persists j k (set_timer false) p q Hq) as (q1 & Hq1 & Hp1);
      [intros _; repeat split; auto|].
    destruct (kill_persists k _ q1 Hq1) as (q2 & Hq2 & Hp2).
    destruct (kill (update j (set_timer false) p)) as [p2 out2]. cbn [fst] in *.
    exists q2. split; [exact Hq2|apply (persists_trans _ _ _ Hp1 Hp2)].
Qed.

Lemma step_keeps_aborted (ev : Event) (k : nat) (p : OllamaProvider) :
  is_aborted k p -> is_aborted k (fst (step p ev)).
Proof.
  intros (q & Hq & Hab). destruct (step_persists ev k p q Hq) as (q' & Hq' & Hp).
  exists q'. split; [exact Hq'|apply Hp, Hab].
Qed.

Lemma step_keeps_settled (ev : Event) (k : nat) (p : OllamaProvider) :
  is_settled k p -> is_settled k (fst (step p ev)).
Proof.
  intros (q & Hq & Hs). destruct (step_persists ev k p q Hq) as (q' & Hq' & Hp).
  exists q'. split; [exact Hq'|apply Hp, Hs].
Qed.

(** ** After [kill()] *)

Lemma aborted_chain_silent (k : nat) (evs : list Event) (p : OllamaProvider) :
  is_aborted k p -> chain_calls k (snd (trace p evs)) = [].
Proof.
  revert p. induction evs as [|ev evs IH]; intros p Hab; [reflexivity|].
  rewrite trace_cons. unfold chain_calls. cbn [snd flat_map fst].
  fold (chain_calls k (snd (trace (fst (step p ev)) evs))).
  rewrite (IH _ (step_keeps_aborted ev k p Hab)), app_nil_r.
  destruct ev as [o| | |j resp|j]; cbn [of_chain]; try reflexivity.
  destruct (bool_decide (j = k)) eqn:Hjk; [|reflexivity].
  apply bool_decide_eq_true in Hjk. subst j. destruct Hab as (q & Hq & Hab).
  cbn [step]. rewrite (OllamaProps.aborted_silent k resp p q Hq Hab). reflexivity.
Qed.

Lemma kill_aborts (k : nat) (p : OllamaProvider) (q : Request) :
  requests p !! k = Some q -> abortController p = Some k ->
  is_aborted k (fst (kill p)) /\ snd (kill p) = [Abort k]
  /\ abortController (fst (kill p)) = None.
Proof.
  intros Hq Hc. unfold kill. rewrite Hc. cbn [fst snd]. split; [|split; reflexivity].
  exists (set_aborted true q). split; [|reflexivity].
  apply (OllamaProps.lookup_update k (set_aborted true) p q Hq).
Qed.

(** X15: once the request that is in flight has been aborted - by [kill()],
    by [dispose()], or by the [run] of the next request - its promise chain
    never calls a handler again, whatever the server answers and whatever
    else happens to the runner. *)
Theorem kill_silences_chain (p : OllamaProvider) (k : nat) (q : Request)
    (o : RunOptions) (evs : list Event) :
  requests p !! k = Some q ->
  abortController p = Some k ->
  chain_calls k (snd (trace (fst (kill p)) evs)) = []
  /\ chain_calls k (snd (trace (fst (dispose p)) evs)) = []
  /\ (disposed p = false -> chain_calls k (snd (trace (fst (run o p)) evs)) = []).
Proof.
  intros Hq Hc. split; [|split].
  - apply aborted_chain_silent. apply (kill_aborts k p q Hq Hc).
  - apply aborted_chain_silent. unfold dispose.
    apply (kill_aborts k (set_disposed true p) q Hq Hc).
  - intros Hd. apply aborted_chain_silent. unfold run. rewrite Hd.
    destruct (kill_aborts k p q Hq Hc) as ((q' & Hq' & Hab) & _).
    destruct (kill p) as [p1 out1]. cbn [fst] in *.
    exists q'. split; [|exact Hab].
    cbn [requests set_requests set_abortController]. apply lookup_app_l_Some, Hq'.
Qed.

(** X16: when the timer of the request in flight fires, the request is
    aborted and [onError("Request timed out", requestId)] is called, in this
    order and nothing else; afterwards the runner holds no request, the
    promise chain of the request never calls a handler, and the timer does
    not fire a second time. *)
Theorem timeout_aborts_and_reports (p : OllamaProvider) (k : nat) (q : Request)
    (evs : list Event) :
  requests p !! k = Some q ->
  timer q = true ->
  abortController p = Some k ->
  let p1 := fst (step p (TimerFire k)) in
  snd (step p (TimerFire k))
  = [Abort k; Call (onError (JStr (js "Request timed out")) (Cli.requestId (options q)))]
  /\ abortController p1 = None
  /\ chain_calls k (snd (trace p1 evs)) = []
  /\ snd (step p1 (TimerFire k)) = [].
Proof.
  intros Hq Ht Hc.
  assert (Hq1 : requests (update k (set_timer false) p) !! k = Some (set_timer false q))
    by (apply OllamaProps.lookup_update, Hq).
  destruct (kill_aborts k (update k (set_timer false) p) _ Hq1 Hc) as (Hab & Hout & Hnone).
  assert (Hstep : step p (TimerFire k)
                  = (fst (kill (update k (set_timer false) p)),
                     [Abort k;
                      Call (onError (JStr (js "Request timed out"))
                              (Cli.requestId (options q)))])).
  { cbn [step]. unfold on_timeout. rewrite Hq, Ht.
    destruct (kill (update k (set_timer false) p)) as [p2 out2].
    cbn [fst snd] in *. rewrite Hout. reflexivity. }
  cbn zeta. rewrite Hstep. cbn [fst snd].
  split; [reflexivity|]. split; [exact Hnone|]. split.
  - apply aborted_chain_silent, Hab.
  - assert (Hq2 : requests (fst (kill (update k (set_timer false) p))) !! k
                  = Some (set_aborted true (set_timer false q))).
    { unfold kill. cbn [abortController update set_requests]. rewrite Hc. cbn [fst].
      apply (OllamaProps.lookup_update k (set_aborted true) _ _ Hq1). }
    cbn [step]. unfold on_timeout. rewrite Hq2. reflexivity.
Qed.

(** ** One final event *)

Lemma process_line_shape (line rid : jsstring) :
  match process_line line rid with
  | Continue out => List.filter Cli.is_terminal out = []
  | Return out =>
      exists chunks c, out = chunks ++ [c] /\ List.filter Cli.is_terminal chunks = []
  end.
Proof.
  unfold process_line. destruct (blank line); [reflexivity|].
  destruct (JSON_parse line) as [event|]; [|reflexivity].
  assert (Hbody : forall ev : JSON,
    match
      match jprop ev (js "error") with
      | Some err =>
          if truthy err then Return [onError err rid]
          else if Cli.truthy_opt (jprop ev (js "done"))
               then Return (match jprop ev (js "response") with
                            | Some text => if truthy text then [onChunk text rid false] else []
                            | None => []
                            end ++ [onComplete rid])
               else Continue (match jprop ev (js "response") with
                              | Some text =>
                                  if truthy text then [onChunk text rid false] else []
                              | None => []
                              end)
      | None =>
          if Cli.truthy_opt (jprop ev (js "done"))
          then Return (match jprop ev (js "response") with
                       | Some text => if truthy text then [onChunk text rid false] else []
                       | None => []
                       end ++ [onComplete rid])
          else Continue (match jprop ev (js "response") with
                         | Some text => if truthy text then [onChunk text rid false] else []
                         | None => []
                         end)
      end
    with
    | Continue out => List.filter Cli.is_terminal out = []
    | Return out =>
        exists chunks c, out = chunks ++ [c] /\ List.filter Cli.is_terminal chunks = []
    end).
  { intros ev.
    assert (Hchunk : List.filter Cli.is_terminal
                       (match jprop ev (js "response") with
                        | Some text => if truthy text then [onChunk text rid false] else []
                        | None => []
                        end) = []).
    { destruct (jprop ev (js "response")) as [text|]; [|reflexivity].
      destruct (truthy text); reflexivity. }
    destruct (jprop ev (js "error")) as [err|].
    - destruct (truthy err); [exists [], (onError err rid); split; reflexivity|].
      destruct (Cli.truthy_opt (jprop ev (js "done"))); [|exact Hchunk].
      eexists _, _. split; [reflexivity|exact Hchunk].
    - destruct (Cli.truthy_opt (jprop ev (js "done"))); [|exact Hchunk].
      eexists _, _. split; [reflexivity|exact Hchunk]. }
  destruct event; [reflexivity|apply Hbody..].
Qed.

Lemma process_lines_shape (lines : list jsstring) (rid : jsstring) :
  match process_lines lines rid with
  | Continue out => List.filter Cli.is_terminal out = []
  | Return out =>
      exists chunks c, out = chunks ++ [c] /\ List.filter Cli.is_terminal chunks = []
  end.
Proof.
  induction lines as [|line rest IH]; [reflexivity|]. cbn [process_lines].
  pose proof (process_line_shape line rid) as Hl.
  destruct (process_line line rid) as [out|out]; [|exact Hl].
  destruct (process_lines rest rid) as [out'|out'].
  - rewrite List.filter_app, Hl, IH. reflexivity.
  - destruct IH as (chunks & c & -> & Hc). exists (out ++ chunks), c.
    split; [apply app_assoc|]. rewrite List.filter_app, Hl, Hc. reflexivity.
Qed.

Lemma settled_chain_silent (k : nat) (evs : list Event) (p : OllamaProvider) :
  is_settled k p -> chain_calls k (snd (trace p evs)) = [].
Proof.
  revert p. induction evs as [|ev evs IH]; intros p Hs; [reflexivity|].
  rewrite trace_cons. unfold chain_calls. cbn [snd flat_map fst].
  fold (chain_calls k (snd (trace (fst (step p ev)) evs))).
  rewrite (IH _ (step_keeps_settled ev k p Hs)), app_nil_r.
  destruct ev as [o| | |j resp|j]; cbn [of_chain]; try reflexivity.
  destruct (bool_decide (j = k)) eqn:Hjk; [|reflexivity].
  apply bool_decide_eq_true in Hjk. subst j. destruct Hs as (q & Hq & Hs).
  cbn [step]. unfold on_response. rewrite Hq, Hs. reflexivity.
Qed.

Lemma settle_settles (k : nat) (p : OllamaProvider) (q : Request) :
  requests p !! k = Some q -> is_settled k (settle k p).
Proof.
  intros Hq. eexists. split; [apply OllamaProps.lookup_settle, Hq|reflexivity].
Qed.

(** One answer to the promise chain of a request: chunks only, or chunks
    and then one call after which the chain is over. *)
Lemma response_shape (k : nat) (resp : Response) (p : OllamaProvider) :
  let out := calls (snd (on_response k resp p)) in
  List.filter Cli.is_terminal out = []
  \/ exists chunks c, out = chunks ++ [c] /\ List.filter Cli.is_terminal chunks = []
                      /\ is_settled k (fst (on_response k resp p)).
Proof.
  cbn zeta. unfold on_response.
  destruct (requests p !! k) as [q|] eqn:Hq; [|left; reflexivity].
  assert (Hrej : forall thrown,
    List.filter Cli.is_terminal (calls (snd (rejected k q thrown p))) = []
    \/ exists chunks c, calls (snd (rejected k q thrown p)) = chunks ++ [c]
                        /\ List.filter Cli.is_terminal chunks = []
                        /\ is_settled k (fst (rejected k q thrown p))).
  { intros thrown. unfold rejected. destruct (aborted q); [left; reflexivity|].
    right. eexists [], _. split; [reflexivity|]. split; [reflexivity|].
    apply (settle_settles k p q Hq). }
  destruct (phase q), resp; try (left; reflexivity); try apply Hrej.
  - destruct (aborted q); [left; reflexivity|apply Hrej].
  - destruct (negb (ok status)); [left; reflexivity|].
    destruct (negb has_body); [apply Hrej|left; reflexivity].
  - destruct (aborted q); [left; reflexivity|].
    pose proof (process_lines_shape (complete_lines (buffer ++ value))
                  (Cli.requestId (options q))) as Hs.
    destruct (process_lines (complete_lines (buffer ++ value)) (Cli.requestId (options q)))
      as [out|out]; cbn [fst snd]; rewrite OllamaProps.calls_map_Call.
    + left. exact Hs.
    + right. destruct Hs as (chunks & c & -> & Hc). exists chunks, c.
      split; [reflexivity|]. split; [exact Hc|apply (settle_settles k p q Hq)].
  - destruct (aborted q); [left; reflexivity|].
    right. eexists [], _. split; [reflexivity|]. split; [reflexivity|].
    apply (settle_settles k p q Hq).
Qed.

(** X17: whatever the server answers and whatever else happens to the
    runner, the promise chain of one request calls [onChunk] any number of
    times and then makes at most one more call: there is at most one final
    event ([onComplete] or [onError]) and nothing, not even a chunk, comes
    after it. *)
Theorem chain_ends_once (k : nat) (evs : list Event) (p : OllamaProvider) :
  exists chunks final,
    chain_calls k (snd (trace p evs)) = chunks ++ final
    /\ List.filter Cli.is_terminal chunks = []
    /\ length final <= 1.
Proof.
  revert p. induction evs as [|ev evs IH]; intros p.
  - exists [], []. repeat split. cbn. lia.
  - rewrite trace_cons. unfold chain_calls. cbn [snd flat_map fst].
    fold (chain_calls k (snd (trace (fst (step p ev)) evs))).
    destruct (of_chain k ev) eqn:Hev; [|apply IH].
    destruct ev as [o| | |j resp|j]; cbn [of_chain] in Hev; try discriminate.
    apply bool_decide_eq_true in Hev. subst j. cbn [step].
    destruct (response_shape k resp p) as [Hchunks|(chunks & c & Hout & Hchunks & Hs)].
    + destruct (IH (fst (on_response k resp p))) as (chunks' & final & Heq & Hc & Hlen).
      exists (calls (snd (on_response k resp p)) ++ chunks'), final.
      rewrite Heq, app_assoc. split; [reflexivity|].
      rewrite List.filter_app, Hchunks, Hc. split; [reflexivity|exact Hlen].
    + rewrite (settled_chain_silent k evs _ Hs), app_nil_r.
      exists chunks, [c]. split; [exact Hout|]. split; [exact Hchunks|cbn; lia].
Qed.

Lemma kill_silences_chain_witness :
  chain_calls 0
    (snd (trace (fst (kill (streaming (js "r1"))))
            [Respond 0 (ReadChunk (jsq "{'response':'late','done':true}" ++ [0x0A%N]));
             Respond 0 ReadDone]))
  = [].
Proof.
  assert (Hq : requests (streaming (js "r1")) !! 0
               = Some {| options := Cli.simple_options (js "hi") (js "r1");
                         aborted := false; timer := true; phase := Reading [] |})
    by reflexivity.
  assert (Hc : abortController (streaming (js "r1")) = Some 0) by reflexivity.
  exact (proj1 (kill_silences_chain (streaming (js "r1")) 0 _
                  (Cli.simple_options (js "next") (js "r2")) _ Hq Hc)).
Defined.

Lemma timeout_aborts_and_reports_witness :
  snd (step (fetching (js "r1")) (TimerFire 0))
  = [Abort 0; Call (onError (JStr (js "Request timed out")) (js "r1"))].
Proof.
  assert (Hq : requests (fetching (js "r1")) !! 0
               = Some {| options := Cli.simple_options (js "hi") (js "r1");
                         aborted := false; timer := true; phase := AwaitFetch |})
    by reflexivity.
  assert (Hc : abortController (fetching (js "r1")) = Some 0) by reflexivity.
  exact (proj1 (timeout_aborts_and_reports (fetching (js "r1")) 0 _ [] Hq eq_refl Hc)).
Defined.

End OllamaRunsProps.

(* ===================================================================== *)
(** * Further properties of the request multiplexer                       *)
(* ===================================================================== *)

Module ConnectionProps.
Import JS Server ServerRuns.
Import Cli (RunOptions, HandlerCall, onChunk, onComplete, onError).

Section Server.
Variable factory : Provider -> nat -> RunnerRef.



Lemma requests_set_slot (p : Provider) (r : RunnerRef) (s : ConnectionState) :
  requests (set_slot p r s) = requests s.
Proof. destruct p; reflexivity. Qed.


(** X19: requests with different ids do not touch each other's entry: an
    event that is about another request id, or about none, leaves the entry
    of a request id in the request map as it is. *)
Theorem requests_independent (c : Connection) (ev : Event) (id : jsstring) :
  event_id ev <> Some id ->
  requests (state (fst (step factory c ev))) !! id = requests (state c) !! id.
Proof.
  intros Hid. destruct ev as [raw|call|b|]; cbn [step event_id] in *;
    [| |reflexivity|reflexivity].
  - unfold handleMessage.
    destruct (Protocol.parseClientMessage raw) as [[m|id']|err]; [| |reflexivity].
    + unfold handlePrompt. destruct (requests (state c) !! Protocol.requestId m);
        [reflexivity|].
      destruct (slot (provider_slot (Protocol.provider m)) (state c));
        cbn [fst state set_state set_requests requests];
        rewrite lookup_insert_ne by congruence; rewrite ?requests_set_slot; reflexivity.
    + unfold handleCancel. destruct (requests (state c) !! id'); [|reflexivity].
      cbn [fst state set_state set_requests requests].
      apply lookup_delete_ne. congruence.
  - destruct call as [content id' thinking|id'|message id']; cbn [handler fst];
      [reflexivity| |];
      cbn [state set_state set_requests requests]; apply lookup_delete_ne; congruence.
Qed.

(** X20: what a handler call of a runner does on the connection: it writes
    exactly one frame, with the request id of the call - a chunk frame that
    carries [thinking] as the call does, a complete frame, or an error frame
    with the message of the call - which is sent when the socket is open and
    dropped otherwise.  A final call first removes the request id from the
    request map, whether the socket is open or not, so that a later prompt
    with the same id is given to a runner again; a chunk leaves the
    connection as it is. *)
Theorem callback_relays_and_frees (call : HandlerCall) (c : Connection) :
  let c' := fst (handler call c) in
  let out := snd (handler call c) in
  frames out
  = [match call with
     | onChunk content id thinking => ChunkMessage content id thinking
     | onComplete id => CompleteMessage id
     | onError message id => ErrorMessage message (Some id)
     end]
  /\ (sent out = if open c then frames out else [])
  /\ match call with
     | onChunk _ _ _ => c' = c
     | onComplete id | onError _ id =>
         requests (state c') = delete id (requests (state c))
         /\ open c' = open c
         /\ forall m, Protocol.requestId m = id ->
                      frames (snd (handlePrompt factory m c')) = []
                      /\ length (runs (snd (handlePrompt factory m c'))) = 1
     end.
Proof.
  assert (Hprompt : forall (id : jsstring) (c0 : Connection) (m : Protocol.PromptMessage),
            requests (state c0) !! id = None -> Protocol.requestId m = id ->
            frames (snd (handlePrompt factory m c0)) = []
            /\ length (runs (snd (handlePrompt factory m c0))) = 1).
  { intros id c0 m Hnone <-. unfold handlePrompt. rewrite Hnone.
    destruct (slot (provider_slot (Protocol.provider m)) (state c0)); split; reflexivity. }
  cbn zeta. destruct call as [content id thinking|id|message id]; cbn [handler fst snd].
  - unfold sendMessage. destruct (open c); repeat split.
  - split; [|split; [|split; [|split]]]; try reflexivity.
    + unfold sendMessage. cbn [open set_state]. destruct (open c); reflexivity.
    + unfold sendMessage. cbn [open set_state]. destruct (open c); reflexivity.
    + intros m Hm. apply (Hprompt id _ m); [|exact Hm].
      cbn [state set_state set_requests requests]. apply lookup_delete_eq.
  - split; [|split; [|split; [|split]]]; try reflexivity.
    + unfold sendMessage. cbn [open set_state]. destruct (open c); reflexivity.
    + unfold sendMessage. cbn [open set_state]. destruct (open c); reflexivity.
    + intros m Hm. apply (Hprompt id _ m); [|exact Hm].
      cbn [state set_state set_requests requests]. apply lookup_delete_eq.
Qed.

(** ** The runners of the active requests *)

Lemma slot_set_requests (q : Provider) (m : gmap jsstring ActiveRequest)
    (s : ConnectionState) :
  slot q (set_requests m s) = slot q s.
Proof. destruct q; reflexivity. Qed.

Lemma handlePrompt_cached (m : Protocol.PromptMessage) (c : Connection) :
  cached c -> cached (fst (handlePrompt factory m c)).
Proof.
  intros Hc. unfold handlePrompt.
  destruct (requests (state c) !! Protocol.requestId m) eqn:Hm; [exact Hc|].
  set (p := provider_slot (Protocol.provider m)).
  destruct (slot p (state c)) as [r|] eqn:Hs; cbn [fst]; intros id active;
    cbn [state set_state set_requests requests]; rewrite ?requests_set_slot;
    (destruct (decide (Protocol.requestId m = id)) as [<-|Hne];
     [rewrite lookup_insert_eq; intros [= <-]|rewrite lookup_insert_ne by exact Hne; intros Hl]).
  - exists p. rewrite slot_set_requests. exact Hs.
  - destruct (Hc id active Hl) as [q Hq]. exists q. rewrite slot_set_requests. exact Hq.
  - exists p. rewrite slot_set_requests, ServerProps.slot_set_slot.
    rewrite decide_True by reflexivity. reflexivity.
  - destruct (Hc id active Hl) as [q Hq]. exists q.
    rewrite slot_set_requests, ServerProps.slot_set_slot.
    destruct (decide (p = q)) as [<-|Hpq]; [congruence|exact Hq].
Qed.

Lemma delete_cached (id : jsstring) (c : Connection) :
  cached c ->
  cached (set_state (set_requests (delete id (requests (state c))) (state c)) c).
Proof.
  intros Hc id' active. cbn [state set_state set_requests requests].
  intros Hl. apply lookup_delete_Some in Hl as [_ Hl].
  destruct (Hc id' active Hl) as [q Hq]. exists q. rewrite slot_set_requests. exact Hq.
Qed.

Lemma step_cached (ev : Event) (c : Connection) :
  cached c -> cached (fst (step factory c ev)).
Proof.
  intros Hc. destruct ev as [raw|call|b|]; cbn [step].
  - unfold handleMessage.
    destruct (Protocol.parseClientMessage raw) as [[m|id]|err]; [| |exact Hc].
    + apply handlePrompt_cached, Hc.
    + unfold handleCancel. destruct (requests (state c) !! id); [|exact Hc].
      apply delete_cached, Hc.
  - destruct call as [content id thinking|id|message id]; cbn [handler fst];
      [exact Hc|apply delete_cached, Hc..].
  - intros id active Hl. destruct (Hc id active Hl) as [q Hq]. exists q.
    destruct q; exact Hq.
  - intros id active Hl. destruct (Hc id active Hl) as [q Hq]. exists q.
    destruct q; exact Hq.
Qed.

Lemma steps_cached (evs : list Event) (c : Connection) :
  cached c -> cached (fst (steps factory c evs)).
Proof.
  revert c. induction evs as [|ev evs IH]; intros c Hc; [exact Hc|].
  rewrite ServerProps.server_steps_cons. cbn [fst]. apply IH, step_cached, Hc.
Qed.

(** X21: on a connection, every active request runs on one of the cached
    runners of the connection: whatever frames and handler calls arrive, the
    runner recorded for a request id is the runner in the slot of some
    provider - so a cancel kills a runner of this connection only. *)
Theorem requests_run_on_cached_runners (evs : list Event) :
  cached (fst (steps factory connected evs)).
Proof.
  apply steps_cached. intros id active Hl. cbn in Hl. rewrite lookup_empty in Hl.
  discriminate.
Qed.

End Server.

Lemma requests_independent_witness :
  requests (state (fst (step fresh_runners
                          (fst (step fresh_runners connected
                                  (Message (jsq "{'type':'prompt','prompt':'hi','requestId':'a'}"))))
                          (Callback (onComplete (js "b"))))))
    !! js "a"
  = requests (state (fst (step fresh_runners connected
                            (Message (jsq "{'type':'prompt','prompt':'hi','requestId':'a'}")))))
      !! js "a".
Proof.
  apply (requests_independent fresh_runners). discriminate.
Defined.

End ConnectionProps.

(** ** One frame, with what [runner.run] does inside the call *)

Module DispatchProps.
Import JS Server ServerRuns Dispatch ConnectionProps.
Import Cli (RunOptions, HandlerCall, onChunk, onComplete, onError).

Section Dispatch.
Context {S Env : Type} `{Cli.CliProvider S Env}.
Variable factory : Provider -> nat -> RunnerRef.

(** The contract of [spawnProcess]: it calls a handler only when it returns
    [null], and then [onError] once for the request. *)
Hypothesis spawn_calls :
  forall (s : S) (e : Env) (o : RunOptions),
    match snd (Cli.spawnProcess s e o) with
    | Cli.NoProcess =>
        exists message,
          Cli.calls (snd (fst (Cli.spawnProcess s e o))) = [onError message (Cli.requestId o)]
    | _ => Cli.calls (snd (fst (Cli.spawnProcess s e o))) = []
    end.





End Dispatch.


Lemma codex_spawn_calls (s : Cli.CodexProvider) (e : Cli.SysEnv) (o : RunOptions) :
  match snd (Cli.codex_spawnProcess s e o) with
  | Cli.NoProcess =>
      exists message,
        Cli.calls (snd (fst (Cli.codex_spawnProcess s e o)))
        = [onError message (Cli.requestId o)]
  | _ => Cli.calls (snd (fst (Cli.codex_spawnProcess s e o))) = []
  end.
Proof.
  unfold Cli.codex_spawnProcess.
  destruct (SpawnProps.codex_write_images_quiet s e o) as (_ & _ & _ & Hcl).
  destruct (Cli.codex_write_images s e o) as [[p1 out_images] threw].
  cbn [fst snd] in Hcl.
  destruct threw; [exact Hcl|].
  destruct (ProviderProps.unlinks_quiet (Cli.currentImagePaths p1)) as [_ Hu].
  destruct (Cli.projectId o) as [[|ch pid]|].
  2: destruct (Cli.escapes_base _ _);
     [cbn [Cli.cleanupImages fst snd];
      rewrite !ProviderProps.effect_calls_app, Hcl, Hu; cbn [app Cli.calls omap]; eauto|];
     destruct (Cli.mkdir_throws e _);
     [cbn [fst snd]; rewrite !ProviderProps.effect_calls_app, Hcl; reflexivity|].
  all: destruct (Cli.spawn_throws e); cbn [Cli.cleanupImages fst snd];
       rewrite !ProviderProps.effect_calls_app, ?Hcl, ?Hu; cbn [app Cli.calls omap]; eauto.
Qed.


End DispatchProps.

(* ===================================================================== *)
(** * Admission                                                           *)
(* ===================================================================== *)

Module AdmissionProps.
Import JS Server ServerRuns Admission.

Lemma startsWith_prefix (p rest : jsstring) : startsWith (p ++ rest) p = true.
Proof.
  induction p as [|c p IH]; [destruct rest; reflexivity|].
  cbn. rewrite N.eqb_refl. exact IH.
Qed.

Lemma existsb_jseqb_elem (x : jsstring) (l : list jsstring) :
  existsb (jseqb x) l = true <-> x ∈ l.
Proof.
  rewrite ProtocolProps.existsb_jseqb. apply bool_decide_eq_true.
Qed.

(** The token of the upgrade request is the key exactly when the header
    is [Bearer ] followed by the key. *)
Lemma bearer_token_is (req : Upgrade) (key : jsstring) :
  key <> [] ->
  jseqb (bearer_token req) key = true <-> authorization req = Some (js "Bearer " ++ key).
Proof.
  intros Hkey. unfold jseqb. rewrite bool_decide_eq_true. unfold bearer_token. split.
  - intros Htok. destruct (startsWith (default [] (authorization req)) (js "Bearer ")) eqn:Hs;
      [|symmetry in Htok; contradiction].
    apply ProviderProps.startsWith_app in Hs as [rest Hrest].
    rewrite Hrest in Htok. change (drop 7 (js "Bearer " ++ rest)) with rest in Htok.
    subst rest. destruct (authorization req) as [auth|].
    + change (auth = js "Bearer " ++ key) in Hrest. rewrite Hrest. reflexivity.
    + change ([] = js "Bearer " ++ key) in Hrest. discriminate.
  - intros ->. change (default [] (Some (js "Bearer " ++ key))) with (js "Bearer " ++ key).
    rewrite startsWith_prefix. reflexivity.
Qed.

(** X22: who [handleConnection] lets in.  The origin check comes first: with
    an allowlist that is not empty, an upgrade request whose [Origin] header
    is present and not in the list is closed with 4003 - a request without
    that header passes.  Then the key check: with an API key set, a request
    whose [Authorization] header is not exactly [Bearer ] followed by the
    key is closed with 4001.  Every other request is let in: the
    connection starts with no request, no runner and [isAlive] set, and the
    server greets it with one [connected] frame of version 2.0. *)
Theorem connection_admission (o : Options) (req : Upgrade) (is_open : bool) :
  let origin_ok :=
    forall allowed org, allowedOrigins o = Some allowed -> allowed <> [] ->
                        origin req = Some org -> org <> [] -> org ∈ allowed in
  let key_ok :=
    forall key, apiKey o = Some key -> key <> [] ->
                authorization req = Some (js "Bearer " ++ key) in
  (~ origin_ok -> handleConnection o req is_open = Closed 4003 (js "Origin not allowed"))
  /\ (origin_ok -> ~ key_ok ->
      handleConnection o req is_open = Closed 4001 (js "Unauthorized"))
  /\ (origin_ok -> key_ok ->
      exists c out,
        handleConnection o req is_open = Accepted c out
        /\ state c = state connected /\ open c = is_open
        /\ frames out = [ConnectedMessage (js "2.0")
                           (default (js "bridge-ws") (agentName o))]).
Proof.
  cbn zeta.
  assert (Horigin : origin_refused o req = false <->
            forall allowed org, allowedOrigins o = Some allowed -> allowed <> [] ->
                                origin req = Some org -> org <> [] -> org ∈ allowed).
  { unfold origin_refused. destruct (allowedOrigins o) as [[|a allowed]|].
    - split; [intros _ ? ? [= <-] Hne; contradiction|reflexivity].
    - destruct (origin req) as [[|ch org]|]; cbn [given andb default].
      + split; [intros _ ? ? _ _ [= <-] Hne; contradiction|reflexivity].
      + rewrite negb_false_iff, existsb_jseqb_elem. split.
        * intros Hin ? ? [= <-] _ [= <-] _. exact Hin.
        * intros H. apply (H _ _ eq_refl); [discriminate|reflexivity|discriminate].
      + split; [intros _ ? ? _ _ [=]|reflexivity].
    - split; [intros _ ? ? [=]|reflexivity]. }
  assert (Hkey : key_refused o req = false <->
            forall key, apiKey o = Some key -> key <> [] ->
                        authorization req = Some (js "Bearer " ++ key)).
  { unfold key_refused. destruct (apiKey o) as [[|ch key]|]; cbn [given andb default].
    - split; [intros _ ? [= <-] Hne; contradiction|reflexivity].
    - rewrite negb_false_iff, (bearer_token_is req (ch :: key)) by discriminate. split.
      + intros Hauth ? [= <-] _. exact Hauth.
      + intros H. apply H; [reflexivity|discriminate].
    - split; [intros _ ? [=]|reflexivity]. }
  unfold handleConnection.
  destruct (origin_refused o req).
  { split; [reflexivity|]. split; intros Hok; exfalso;
      assert (true = false) by (apply Horigin, Hok); discriminate. }
  split; [intros Hno; exfalso; apply Hno, Horigin; reflexivity|].
  destruct (key_refused o req).
  { split; [reflexivity|]. intros _ Hok. exfalso.
    assert (true = false) by (apply Hkey, Hok). discriminate. }
  split; [intros _ Hno; exfalso; apply Hno, Hkey; reflexivity|].
  intros _ _. eexists _, _. split; [reflexivity|]. split; [reflexivity|].
  split; [reflexivity|]. unfold sendMessage. cbn [open]. destruct is_open; reflexivity.
Qed.

Lemma connection_admission_witness :
  exists c out,
    handleConnection
      {| allowedOrigins := Some [js "https://app.example.com"];
         apiKey := Some (js "s3cret"); agentName := None |}
      {| origin := None; authorization := Some (js "Bearer s3cret") |} true
    = Accepted c out
    /\ state c = state connected /\ open c = true
    /\ frames out = [ConnectedMessage (js "2.0") (js "bridge-ws")].
Proof.
  apply (proj2 (proj2 (connection_admission
           {| allowedOrigins := Some [js "https://app.example.com"];
              apiKey := Some (js "s3cret"); agentName := None |}
           {| origin := None; authorization := Some (js "Bearer s3cret") |} true))).
  - intros allowed org _ _ Horigin. discriminate.
  - intros key [= <-] _. reflexivity.
Defined.

End AdmissionProps.


(* ===================================================================== *)
(** * The end of a connection                                             *)
(* ===================================================================== *)

Module TeardownProps.
Import JS Server ServerRuns Teardown.

Section Server.
Variable factory : Provider -> nat -> RunnerRef.

Lemma disposals_app (a b : list Teardown.Effect) :
  disposals (a ++ b) = disposals a ++ disposals b.
Proof. unfold disposals. apply omap_app. Qed.

Lemma disposals_dispose_all (values : list ActiveRequest) (c : Connection) :
  disposals (dispose_all values c)
  = List.map runner values ++ omap (fun p => slot p (state c)) [Claude; Codex; Ollama].
Proof.
  unfold dispose_all. rewrite disposals_app. f_equal.
  - induction values as [|a values IH]; [reflexivity|]. cbn. f_equal. exact IH.
  - induction (omap (fun p => slot p (state c)) [Claude; Codex; Ollama]) as [|r l IH];
      [reflexivity|]. cbn. f_equal. exact IH.
Qed.

Lemma elem_of_slots (r : RunnerRef) (s : ConnectionState) :
  r ∈ omap (fun p => slot p s) [Claude; Codex; Ollama] <-> exists p, slot p s = Some r.
Proof.
  rewrite list_elem_of_omap. split.
  - intros (p & _ & Hp). exists p. exact Hp.
  - intros (p & Hp). exists p. split; [|exact Hp]. destruct p; repeat constructor.
Qed.

Lemma created_runners_for (r : RunnerRef) (out : list Server.Effect) :
  r ∈ created_runners out <-> exists q, r ∈ created_for q out.
Proof.
  unfold created_runners, created_for. rewrite list_elem_of_omap. split.
  - intros (e & He & Hr). destruct e; try discriminate. injection Hr as ->.
    exists p. apply list_elem_of_omap. eexists. split; [exact He|].
    cbn. rewrite decide_True by reflexivity. reflexivity.
  - intros (q & Hq). apply list_elem_of_omap in Hq as (e & He & Hr).
    exists e. split; [exact He|]. destruct e; try discriminate.
    destruct (decide (p = q)); [exact Hr|discriminate].
Qed.

(** The runners a teardown disposes are the runners the connection
    created. *)
Lemma dispose_all_created (evs : list Event) (values : list ActiveRequest) (r : RunnerRef) :
  let c := fst (steps factory connected evs) in
  enumerates values c ->
  r ∈ disposals (dispose_all values c)
  <-> r ∈ created_runners (snd (steps factory connected evs)).
Proof.
  intros c Henum.
  assert (Hslots : forall q, slot_inv q c (snd (steps factory connected evs))).
  { intros q. apply (ServerProps.steps_slot_inv factory q evs connected []).
    destruct q; split; reflexivity. }
  assert (Hcached : cached c).
  { apply ConnectionProps.steps_cached. intros id active Hl. cbn in Hl.
    rewrite lookup_empty in Hl. discriminate. }
  assert (Hslot : (exists p, slot p (state c) = Some r)
                  <-> r ∈ created_runners (snd (steps factory connected evs))).
  { rewrite created_runners_for. split; intros (q & Hq); exists q.
    - specialize (Hslots q). unfold slot_inv in Hslots. rewrite Hq in Hslots.
      destruct Hslots as [-> _]. constructor.
    - specialize (Hslots q). unfold slot_inv in Hslots.
      destruct (slot q (state c)) as [r0|].
      + destruct Hslots as [Hc _]. rewrite Hc in Hq.
        apply list_elem_of_singleton in Hq. subst r0. reflexivity.
      + destruct Hslots as [Hc _]. rewrite Hc in Hq. inversion Hq. }
  rewrite disposals_dispose_all, elem_of_app, elem_of_slots, <- Hslot.
  split; [|intros Hp; right; exact Hp].
  intros [Hval|Hp]; [|exact Hp].
  apply list_elem_of_fmap in Hval as (active & -> & Hin).
  apply Henum in Hin as (id & Hid). apply (Hcached id active Hid).
Qed.

(** X23: when a connection ends - its socket closes, the heartbeat gives it
    up, or the server stops - the runners that are disposed are exactly the
    runners the connection created: every runner it created is disposed,
    whatever requests are still active, and no other runner is. *)
Theorem teardown_disposes_created (evs : list Event) (values : list ActiveRequest)
    (r : RunnerRef) (ping_throws : bool) :
  let c := fst (steps factory connected evs) in
  let created := created_runners (snd (steps factory connected evs)) in
  enumerates values c ->
  (r ∈ disposals (on_close values c) <-> r ∈ created)
  /\ (r ∈ disposals (stop values c) <-> r ∈ created)
  /\ (fst (heartbeat ping_throws values c) = None ->
      r ∈ disposals (snd (heartbeat ping_throws values c)) <-> r ∈ created).
Proof.
  intros c created Henum.
  pose proof (dispose_all_created evs values r Henum) as Hall. fold c in Hall.
  fold created in Hall.
  split; [|split].
  - unfold on_close. rewrite disposals_app. cbn [disposals omap]. rewrite app_nil_r.
    exact Hall.
  - unfold stop. rewrite disposals_app. cbn [disposals omap]. rewrite app_nil_r.
    exact Hall.
  - unfold heartbeat. destruct (negb (isAlive (state c))); cbn [fst snd].
    + intros _. rewrite disposals_app. cbn [disposals omap]. rewrite app_nil_r.
      exact Hall.
    + destruct ping_throws; cbn [fst snd]; [|discriminate]. intros _.
      change (Ping :: dispose_all values (set_isAlive false c) ++ [Forget; Terminate])
        with ([Ping] ++ dispose_all values c ++ [Forget; Terminate]).
      rewrite !disposals_app. cbn [disposals omap app]. rewrite app_nil_r.
      exact Hall.
Qed.

(** ** The heartbeat *)

Lemma handlePrompt_isAlive (m : Protocol.PromptMessage) (c : Connection) :
  isAlive (state (fst (handlePrompt factory m c))) = isAlive (state c).
Proof.
  unfold handlePrompt. destruct (requests (state c) !! Protocol.requestId m); [reflexivity|].
  destruct (slot (provider_slot (Protocol.provider m)) (state c)); [reflexivity|].
  cbn. destruct (provider_slot (Protocol.provider m)); reflexivity.
Qed.

Lemma step_isAlive (ev : Event) (c : Connection) :
  isAlive (state (fst (step factory c ev))) = isAlive (state c) || is_pong ev.
Proof.
  destruct ev as [raw|call|b|]; cbn [step is_pong]; rewrite ?orb_false_r.
  - unfold handleMessage.
    destruct (Protocol.parseClientMessage raw) as [[m|id]|err]; [| |reflexivity].
    + apply handlePrompt_isAlive.
    + unfold handleCancel. destruct (requests (state c) !! id); reflexivity.
  - destruct call; reflexivity.
  - reflexivity.
  - cbn. rewrite orb_true_r. reflexivity.
Qed.

Lemma steps_isAlive (evs : list Event) (c : Connection) :
  isAlive (state (fst (steps factory c evs))) = isAlive (state c) || existsb is_pong evs.
Proof.
  revert c. induction evs as [|ev evs IH]; intros c; cbn [existsb].
  - cbn. rewrite orb_false_r. reflexivity.
  - rewrite ServerProps.server_steps_cons. cbn [fst]. rewrite IH, step_isAlive.
    rewrite orb_assoc. reflexivity.
Qed.

(** X24: the heartbeat gives a connection one interval to answer.  A round
    on a live connection lowers [isAlive] and pings; if no pong arrives
    before the next round - whatever frames and handler calls do - that round
    disposes the runners, forgets the connection and terminates the socket;
    if a pong arrived in between, the round pings again and the connection
    stays. *)
Theorem heartbeat_two_rounds (c : Connection) (evs : list Event)
    (values values' : list ActiveRequest) :
  isAlive (state c) = true ->
  let c1 := set_isAlive false c in
  let c2 := fst (steps factory c1 evs) in
  heartbeat false values c = (Some c1, [Ping])
  /\ (existsb is_pong evs = false ->
      forall ping_throws,
        heartbeat ping_throws values' c2
        = (None, dispose_all values' c2 ++ [Forget; Terminate]))
  /\ (existsb is_pong evs = true ->
      heartbeat false values' c2 = (Some (set_isAlive false c2), [Ping])).
Proof.
  intros Halive c1 c2.
  assert (H2 : isAlive (state c2) = existsb is_pong evs).
  { subst c2. rewrite steps_isAlive. reflexivity. }
  split; [|split].
  - unfold heartbeat. rewrite Halive. reflexivity.
  - intros Hno ping_throws. unfold heartbeat. rewrite H2, Hno. reflexivity.
  - intros Hpong. unfold heartbeat. rewrite H2, Hpong. reflexivity.
Qed.

End Server.

Lemma teardown_disposes_created_witness :
  0 ∈ disposals
        (on_close [{| runner := 0 |}]
           (fst (steps fresh_runners connected
                   [Message (jsq "{'type':'prompt','prompt':'hi','requestId':'a'}")])))
  <-> 0 ∈ created_runners
            (snd (steps fresh_runners connected
                    [Message (jsq "{'type':'prompt','prompt':'hi','requestId':'a'}")])).
Proof.
  assert (Hreq :
    requests (state (fst (steps fresh_runners connected
                            [Message (jsq "{'type':'prompt','prompt':'hi','requestId':'a'}")])))
    = <[js "a" := {| runner := 0 |}]> ∅) by (vm_compute; reflexivity).
  assert (Henum :
    enumerates [{| runner := 0 |}]
      (fst (steps fresh_runners connected
              [Message (jsq "{'type':'prompt','prompt':'hi','requestId':'a'}")]))).
  { intros active. rewrite Hreq. split.
    - intros Hin. apply list_elem_of_singleton in Hin. subst active.
      exists (js "a"). apply lookup_insert_eq.
    - intros [id Hid]. apply lookup_insert_Some in Hid as [[_ <-]|[_ Hid]].
      + constructor.
      + rewrite lookup_empty in Hid. discriminate. }
  exact (proj1 (teardown_disposes_created fresh_runners
                  [Message (jsq "{'type':'prompt','prompt':'hi','requestId':'a'}")]
                  [{| runner := 0 |}] 0 false Henum)).
Defined.

Lemma heartbeat_two_rounds_witness :
  heartbeat false []
    (fst (steps fresh_runners (set_isAlive false connected)
            [Message (jsq "{'type':'cancel','requestId':'a'}")]))
  = (None,
     dispose_all []
       (fst (steps fresh_runners (set_isAlive false connected)
               [Message (jsq "{'type':'cancel','requestId':'a'}")]))
     ++ [Forget; Terminate]).
Proof.
  apply (proj1 (proj2 (heartbeat_two_rounds fresh_runners connected
                         [Message (jsq "{'type':'cancel','requestId':'a'}")] [] []
                         eq_refl)) eq_refl false).
Defined.

End TeardownProps.

(* ===================================================================== *)
(** * Start-up                                                            *)
(* ===================================================================== *)

Module StartupProps.
Import JS Startup.

Lemma js_String (a : ascii) (s : string) : js (String a s) = N_of_ascii a :: js s.
Proof. reflexivity. Qed.

(** Reading the digits of a numeral gives its value. *)
Lemma digits_value_acc (d : Decimal.uint) (acc : positive) :
  digits_value (Npos acc) (js (NilEmpty.string_of_uint d)) = Npos (Pos.of_uint_acc d acc).
Proof.
  revert acc. induction d; intros acc; cbn [NilEmpty.string_of_uint Pos.of_uint_acc];
    [reflexivity|..]; rewrite js_String; cbn [digits_value];
    match goal with |- context [is_digit ?c] => change (is_digit c) with true end;
    cbn iota; rewrite <- IHd; f_equal;
    match goal with
    | |- context [(N_of_ascii ?a - ?b)%N] =>
        let v := eval vm_compute in (N_of_ascii a - b)%N in
        change (N_of_ascii a - b)%N with v
    end; lia.
Qed.

Lemma digits_value_uint (d : Decimal.uint) :
  digits_value 0 (js (NilEmpty.string_of_uint d)) = Pos.of_uint d.
Proof.
  induction d; cbn [NilEmpty.string_of_uint Pos.of_uint]; [reflexivity|..];
    rewrite js_String; cbn [digits_value];
    match goal with |- context [is_digit ?c] => change (is_digit c) with true end;
    cbn iota; [exact IHd|..]; apply digits_value_acc.
Qed.

Lemma parseInt10_uint (d : Decimal.uint) :
  d <> Decimal.Nil ->
  parseInt10 (js (NilEmpty.string_of_uint d)) = Some (Z.of_N (Pos.of_uint d)).
Proof.
  intros Hd. rewrite <- digits_value_uint.
  destruct d; [contradiction|..]; reflexivity.
Qed.

(** [parseInt] reads back the decimal numeral of a natural number. *)
Lemma parseInt10_dec (n : N) : parseInt10 (dec_of_N n) = Some (Z.of_N n).
Proof.
  unfold dec_of_N. rewrite parseInt10_uint.
  - change (Pos.of_uint (N.to_uint n)) with (N.of_uint (N.to_uint n)).
    rewrite DecimalN.Unsigned.of_to. reflexivity.
  - destruct n as [|p]; [discriminate|]. apply DecimalPos.Unsigned.to_uint_nonnil.
Qed.

Section Action.
Variable cli_available : jsstring -> bool.
Variable valid_url : jsstring -> bool.
Variable env_api_key : option jsstring.

(** X25: the server is only ever started with options that passed the
    checks: the Claude CLI answers, the port is between 1 and 65535, the
    request timeout is a whole number of seconds between 1 and 3600 given in
    milliseconds, the number of turns, when given, is at least 1, every
    allowed origin is a non-empty string that is a URL, and the API key,
    when there is one, is not empty. *)
Theorem started_options_valid (opts : CliOptions) (a : AgentWSOptions) :
  action cli_available valid_url env_api_key opts = Start a ->
  cli_available (claudePath opts) = true
  /\ (1 <= agent_port a <= 65535)%Z
  /\ (exists seconds, (1 <= seconds <= 3600)%Z /\ timeoutMs a = (seconds * 1000)%Z)
  /\ (forall n, agent_maxTurns a = Some n -> (1 <= n)%Z)
  /\ (forall allowed, allowedOrigins a = Some allowed ->
        Forall (fun o => o <> [] /\ valid_url o = true) allowed)
  /\ apiKey a <> Some [].
Proof.
  unfold action.
  destruct (cli_available (claudePath opts)) eqn:Hcli; cbn [negb]; [|discriminate].
  destruct (parseInt10 (port opts)) as [p|]; [|discriminate].
  destruct ((p <? 1) || (65535 <? p))%Z eqn:Hp; [discriminate|].
  destruct (parseInt10 (timeout opts)) as [s|]; [|discriminate].
  destruct ((s <? 1) || (3600 <? s))%Z eqn:Hs; [discriminate|].
  apply orb_false_iff in Hp as [Hp1 Hp2]. apply orb_false_iff in Hs as [Hs1 Hs2].
  apply Z.ltb_ge in Hp1, Hp2, Hs1, Hs2.
  destruct (match maxTurns opts with
            | Some text =>
                match parseInt10 text with
                | Some n => if (n <? 1)%Z then inl text else inr (Some n)
                | None => inl text
                end
            | None => inr None
            end) as [text|turns] eqn:Hturns; [discriminate|].
  destruct (bad_origin valid_url (parse_origins opts)) as [o|] eqn:Hbad; [discriminate|].
  intros [= <-]. cbn [agent_port timeoutMs agent_maxTurns allowedOrigins apiKey].
  split; [reflexivity|]. split; [lia|]. split; [exists s; split; [lia|reflexivity]|].
  split; [|split].
  - intros n ->. destruct (maxTurns opts) as [text|]; [|discriminate].
    destruct (parseInt10 text) as [m|]; [|discriminate].
    destruct (m <? 1)%Z eqn:Hm; [discriminate|]. injection Hturns as ->.
    apply Z.ltb_ge, Hm.
  - intros allowed Hallowed. rewrite Hallowed in Hbad. cbn [bad_origin] in Hbad.
    apply Forall_forall. intros o Ho. split.
    + unfold parse_origins in Hallowed. destruct (origins opts); [|discriminate].
      injection Hallowed as <-. apply list_elem_of_In, List.filter_In in Ho as [_ Ho].
      intros ->. discriminate.
    + apply list_elem_of_In in Ho. apply (List.find_none _ _ Hbad) in Ho.
      apply negb_false_iff, Ho.
  - destruct env_api_key as [[|c key]|]; discriminate.
Qed.

(** X26: the decimal numeral of a port between 1 and 65535 and that of a
    timeout between 1 and 3600 seconds are accepted and read back as the
    numbers they stand for: with a Claude CLI that answers, no origins and
    no turn limit, the server is started on that port with that timeout in
    milliseconds and the other options as they were given. *)
Theorem numerals_accepted (opts : CliOptions) (p seconds : N) :
  (1 <= p <= 65535)%N ->
  (1 <= seconds <= 3600)%N ->
  cli_available (claudePath opts) = true ->
  port opts = dec_of_N p ->
  timeout opts = dec_of_N seconds ->
  origins opts = None ->
  maxTurns opts = None ->
  action cli_available valid_url env_api_key opts
  = Start {| agent_port := Z.of_N p; agent_host := host opts;
             agent_claudePath := claudePath opts; agent_codexPath := codexPath opts;
             agent_ollamaUrl := ollamaUrl opts; timeoutMs := Z.of_N seconds * 1000;
             agent_logLevel := logLevel opts; allowedOrigins := None;
             apiKey := match env_api_key with
                       | Some (c :: key) => Some (c :: key)
                       | _ => None
                       end;
             agent_maxTurns := None; agent_tools := tools opts |}.
Proof.
  intros Hp Hs Hcli Hport Htimeout Horigins Hturns. unfold action, parse_origins.
  rewrite Hcli, Hport, Htimeout, Horigins, Hturns, !parseInt10_dec. cbn [negb bad_origin].
  replace ((Z.of_N p <? 1) || (65535 <? Z.of_N p))%Z with false
    by (symmetry; apply orb_false_iff; split; apply Z.ltb_ge; lia).
  replace ((Z.of_N seconds <? 1) || (3600 <? Z.of_N seconds))%Z with false
    by (symmetry; apply orb_false_iff; split; apply Z.ltb_ge; lia).
  reflexivity.
Qed.

End Action.

Lemma started_options_valid_witness :
  (1 <= 9999 <= 65535)%Z.
Proof.
  assert (Hstart :
    action (fun _ => true) (fun _ => true) (Some (js "s3cret"))
      {| port := js "9999"; host := js "localhost"; claudePath := js "claude";
         codexPath := js "codex"; ollamaUrl := js "http://localhost:11434";
         timeout := js " 300s"; logLevel := js "info";
         origins := Some (js "https://a.example , ,https://b.example");
         maxTurns := Some (js "+5"); tools := None |}
    = Start {| agent_port := 9999; agent_host := js "localhost";
               agent_claudePath := js "claude"; agent_codexPath := js "codex";
               agent_ollamaUrl := js "http://localhost:11434"; timeoutMs := 300000;
               agent_logLevel := js "info";
               allowedOrigins := Some [js "https://a.example"; js "https://b.example"];
               apiKey := Some (js "s3cret");
               agent_maxTurns := Some 5%Z; agent_tools := None |})
    by (vm_compute; reflexivity).
  exact (proj1 (proj2 (started_options_valid _ _ _ _ _ Hstart))).
Defined.

Lemma numerals_accepted_witness :
  action (fun _ => true) (fun _ => true) None defaults
  = Start {| agent_port := 9999; agent_host := js "localhost";
             agent_claudePath := js "claude"; agent_codexPath := js "codex";
             agent_ollamaUrl := js "http://localhost:11434"; timeoutMs := 300000;
             agent_logLevel := js "info"; allowedOrigins := None; apiKey := None;
             agent_maxTurns := None; agent_tools := None |}.
Proof.
  apply (numerals_accepted (fun _ => true) (fun _ => true) None defaults 9999 300);
    try reflexivity; lia.
Defined.

End StartupProps.
